(** * Wallet ledger and exchange-rate resolver of the storefront

    A shallow embedding of [store/utils/currency.py] (the rate resolver and
    [convert_amount]), of the wallet helpers of [UserProfile] in
    [store/models.py] ([add_balance], [deduct_balance], [convert_balance]) and
    of the two views of [store/views.py] that move money
    ([WalletTopupView.post], [PaymentView.post]), followed by the properties
    of the specification that concern them.

    Layout: Python values the code computes with (exceptions, [Decimal],
    [float]); the resolver; the models and their storage; the views; the
    theorems. *)

From Stdlib Require Import ZArith Lia Bool List String.
From Stdlib Require Import SpecFloat.
From stdpp Require Import gmap strings.
Import ListNotations.

Local Open Scope Z_scope.

(** ** Exceptions and outcomes *)

(** The exception classes that the modelled code can meet.  All of them derive
    from [Exception], so an [except Exception] clause catches each one. *)
Inductive exn : Set :=
| InvalidOperation          (* decimal.InvalidOperation *)
| DecimalOverflow           (* decimal.Overflow *)
| DivisionByZero            (* decimal.DivisionByZero *)
| DatabaseError             (* django.db.DatabaseError and subclasses *)
| TransactionManagementError.

(** What running a piece of Python gives: a value, a raised exception, or
    [Beyond] when a non-finite number ([inf], [nan]) turns up.  The embedding
    has finite decimals only, so it says nothing about such runs: [Beyond] is
    not an exception and no handler catches it. *)
Inductive outcome (A : Type) : Type :=
| Ok (a : A)
| Raise (e : exn)
| Beyond.
Arguments Ok {A} a.
Arguments Raise {A} e.
Arguments Beyond {A}.

(** Sequencing, through stdpp's monad notation [x ← c; k]. *)
Global Instance outcome_bind : MBind outcome := λ A B f x,
  match x with
  | Ok a => f a
  | Raise e => Raise e
  | Beyond => Beyond
  end.
Global Instance outcome_ret : MRet outcome := λ A a, Ok a.

(** ** Python's [decimal.Decimal], finite values, default context *)

Module Dec.

(** A finite decimal is a coefficient and an exponent: [dmant * 10^dexp].
    The sign lives in the coefficient, so the negative zero of Python is
    identified with zero. *)
Record decimal : Set := Dec { dmant : Z; dexp : Z }.

(** The default context: 28 digits, exponents within [-999999, 999999],
    ROUND_HALF_EVEN, traps on InvalidOperation, DivisionByZero, Overflow. *)
Definition prec_default : Z := 28.
Definition Emax : Z := 999999.
Definition Emin : Z := -999999.
Definition Etiny (prec : Z) : Z := Emin - prec + 1.
Definition Etop (prec : Z) : Z := Emax - prec + 1.

Inductive rounding : Set := ROUND_HALF_UP | ROUND_HALF_EVEN.

(** [len(str(n))] for [0 <= n]. *)
Fixpoint digits_aux (fuel : nat) (n : Z) : Z :=
  match fuel with
  | O => 1
  | S f => if n <? 10 then 1 else 1 + digits_aux f (n / 10)
  end.

Definition ndigits (n : Z) : Z := digits_aux (Z.to_nat (Z.log2 n)) n.

(** [Decimal.adjusted()]: the exponent of the most significant digit. *)
Definition adjusted (d : decimal) : Z := dexp d + ndigits (Z.abs (dmant d)) - 1.

(** Dropping the last [k > 0] digits of the coefficient [c >= 0] under a
    rounding mode ([_round_half_up], [_round_half_even]). *)
Definition round_drop (r : rounding) (c k : Z) : Z :=
  let p := 10 ^ k in
  let q := c / p in
  let rem := c mod p in
  match r with
  | ROUND_HALF_UP => if p <=? 2 * rem then q + 1 else q
  | ROUND_HALF_EVEN =>
      if (p <? 2 * rem) || ((p =? 2 * rem) && Z.odd q) then q + 1 else q
  end.

(** [Decimal._rescale(exp, rounding)]. *)
Definition rescale (r : rounding) (d : decimal) (exp : Z) : decimal :=
  if dmant d =? 0 then Dec 0 exp
  else if exp <=? dexp d then Dec (dmant d * 10 ^ (dexp d - exp)) exp
  else Dec (Z.sgn (dmant d) * round_drop r (Z.abs (dmant d)) (exp - dexp d)) exp.

(** [Decimal._fix(context)]: fit a result into the context, rounding
    half-even to [prec] digits; Overflow is trapped, the other signals
    (Rounded, Inexact, Subnormal, Underflow, Clamped) are not. *)
Definition fix_ (prec : Z) (d : decimal) : outcome decimal :=
  if dmant d =? 0 then
    Ok (Dec 0 (Z.min (Z.max (dexp d) (Etiny prec)) Emax))
  else
    let len := ndigits (Z.abs (dmant d)) in
    let exp_min := len + dexp d - prec in
    if Etop prec <? exp_min then Raise DecimalOverflow
    else
      let exp_min := Z.max exp_min (Etiny prec) in
      if dexp d <? exp_min then
        let c := round_drop ROUND_HALF_EVEN (Z.abs (dmant d)) (exp_min - dexp d) in
        let '(c, exp_min) :=
          if prec <? ndigits c then (c / 10, exp_min + 1) else (c, exp_min) in
        if Etop prec <? exp_min then Raise DecimalOverflow
        else Ok (Dec (Z.sgn (dmant d) * c) exp_min)
      else Ok d.

(** Exact sum at the smaller exponent, before [_fix]. *)
Definition exact_add (a b : decimal) : decimal :=
  let e := Z.min (dexp a) (dexp b) in
  Dec (dmant a * 10 ^ (dexp a - e) + dmant b * 10 ^ (dexp b - e)) e.

Definition neg (a : decimal) : decimal := Dec (- dmant a) (dexp a).

(** [a + b], [a - b], [a * b] in the default context. *)
Definition add (a b : decimal) : outcome decimal := fix_ prec_default (exact_add a b).
Definition sub (a b : decimal) : outcome decimal := add a (neg b).
Definition mul (a b : decimal) : outcome decimal :=
  fix_ prec_default (Dec (dmant a * dmant b) (dexp a + dexp b)).

(** The loop of [__truediv__] for an exact quotient: strip trailing zeros
    while the exponent is below the ideal one. *)
Fixpoint strip_zeros (fuel : nat) (coeff exp ideal : Z) : Z * Z :=
  match fuel with
  | O => (coeff, exp)
  | S f =>
      if (exp <? ideal) && (coeff mod 10 =? 0)
      then strip_zeros f (coeff / 10) (exp + 1) ideal
      else (coeff, exp)
  end.

(** [a / b] ([Decimal.__truediv__]) in the default context. *)
Definition div (a b : decimal) : outcome decimal :=
  if dmant b =? 0 then
    if dmant a =? 0 then Raise InvalidOperation else Raise DivisionByZero
  else if dmant a =? 0 then fix_ prec_default (Dec 0 (dexp a - dexp b))
  else
    let ca := Z.abs (dmant a) in
    let cb := Z.abs (dmant b) in
    let shift := ndigits cb - ndigits ca + prec_default + 1 in
    let exp := dexp a - dexp b - shift in
    let '(coeff, remainder) :=
      if 0 <=? shift then (ca * 10 ^ shift / cb, ca * 10 ^ shift mod cb)
      else (ca / (cb * 10 ^ (- shift)), ca mod (cb * 10 ^ (- shift))) in
    let '(coeff, exp) :=
      if remainder =? 0
      then strip_zeros (Z.to_nat (dexp a - dexp b - exp)) coeff exp (dexp a - dexp b)
      else ((if coeff mod 5 =? 0 then coeff + 1 else coeff), exp) in
    fix_ prec_default (Dec (Z.sgn (dmant a) * Z.sgn (dmant b) * coeff) exp).

(** [d.quantize(Decimal(1).scaleb(exp), rounding=r)] in a context of [prec]
    digits ([Decimal.quantize]). *)
Definition quantize (prec : Z) (r : rounding) (d : decimal) (exp : Z) : outcome decimal :=
  if negb ((Etiny prec <=? exp) && (exp <=? Emax)) then Raise InvalidOperation
  else if dmant d =? 0 then fix_ prec (Dec 0 exp)
  else if Emax <? adjusted d then Raise InvalidOperation
  else if prec <? adjusted d - exp + 1 then Raise InvalidOperation
  else
    let ans := rescale r d exp in
    if Emax <? adjusted ans then Raise InvalidOperation
    else if prec <? ndigits (Z.abs (dmant ans)) then Raise InvalidOperation
    else fix_ prec ans.

(** Numeric comparison of two finite decimals ([Decimal._cmp]). *)
Definition compare (a b : decimal) : comparison :=
  let e := Z.min (dexp a) (dexp b) in
  Z.compare (dmant a * 10 ^ (dexp a - e)) (dmant b * 10 ^ (dexp b - e)).

Definition eqb (a b : decimal) : bool :=
  match compare a b with Eq => true | _ => false end.
Definition ltb (a b : decimal) : bool :=
  match compare a b with Lt => true | _ => false end.
Definition leb (a b : decimal) : bool :=
  match compare a b with Gt => false | _ => true end.

Definition zero : decimal := Dec 0 0.

(** [x.quantize(Decimal('0.01'), rounding=ROUND_HALF_UP)]. *)
Definition quantize_cents (d : decimal) : outcome decimal :=
  quantize prec_default ROUND_HALF_UP d (-2).

End Dec.
Export Dec(decimal, Dec, dmant, dexp).

(** ** Python's [float]: IEEE 754 binary64 *)

Module Float.

(** Doubles are the [spec_float] of the standard library at precision 53 and
    exponent bound 1024. *)
Definition prec : Z := 53.
Definition emax : Z := 1024.

Definition is_finite (f : spec_float) : bool :=
  match f with
  | S754_zero _ | S754_finite _ _ _ => true
  | _ => false
  end.

(** [bool(f)]: every float but zero is true. *)
Definition truthy (f : spec_float) : bool :=
  match f with
  | S754_zero _ => false
  | _ => true
  end.

(** [x / y] on floats whose divisor is not zero. *)
Definition div (x y : spec_float) : spec_float := SFdiv prec emax x y.

(** The double nearest to a decimal, ties to even: a float literal of the
    source, [float(d)] for a [Decimal] [d], [float(v)] for a JSON number. *)
Definition of_decimal (d : decimal) : spec_float :=
  match dmant d with
  | Z0 => S754_zero false
  | _ =>
      let s := dmant d <? 0 in
      let c := Z.abs (dmant d) in
      if 0 <=? dexp d then
        binary_normalize prec emax (if s then - (c * 10 ^ dexp d) else c * 10 ^ dexp d) 0 false
      else
        let '(q, e, l) := SFdiv_core_binary prec emax c 0 (10 ^ (- dexp d)) 0 in
        binary_round_aux prec emax s q e l
  end.

Definition eqb (x y : spec_float) : bool := SFeqb x y.

(** *** [repr(f)]: the shortest decimal string that reads back as [f] *)

(** [m * 2^e] as a fraction of two positive integers. *)
Definition fraction (m : positive) (e : Z) : Z * Z :=
  if 0 <=? e then (Z.pos m * 2 ^ e, 1) else (Z.pos m, 2 ^ (- e)).

(** The exponent of the leading decimal digit of [num / den]. *)
Definition magnitude (num den : Z) : Z :=
  if den <=? num then Dec.ndigits (num / den) - 1
  else - Dec.ndigits (den / num).

(** The two decimals of [n] digits around [num / den], as coefficients at
    exponent [k], and whether the lower one is at least as close. *)
Definition neighbours (num den k : Z) : Z * bool :=
  let num' := if 0 <=? k then num else num * 10 ^ (- k) in
  let den' := if 0 <=? k then den * 10 ^ k else den in
  let lo := num' / den' in
  (lo, 2 * num' <=? (2 * lo + 1) * den').

(** Search for the least number of digits, from [n] on. *)
Fixpoint shortest (fuel : nat) (f : spec_float) (num den mag n : Z) : Z * Z :=
  let k := mag - n + 1 in
  let '(lo, lo_closer) := neighbours num den k in
  match fuel with
  | O => (lo, k)
  | S fuel' =>
      let ok_lo := eqb (of_decimal (Dec lo k)) f in
      let ok_hi := eqb (of_decimal (Dec (lo + 1) k)) f in
      if ok_lo && (lo_closer || negb ok_hi) then (lo, k)
      else if ok_hi then (lo + 1, k)
      else shortest fuel' f num den mag (n + 1)
  end.

(** Digits without trailing zeros. *)
Fixpoint strip (fuel : nat) (c k : Z) : Z * Z :=
  match fuel with
  | O => (c, k)
  | S f => if (c mod 10 =? 0) && negb (c =? 0) then strip f (c / 10) (k + 1) else (c, k)
  end.

(** [Decimal(str(f))]: the digits of [repr(f)] read by [Decimal].  [repr]
    writes [d.ddde+XX] when the decimal point falls more than 16 places
    right of the first digit or more than 3 places left of it, and plain
    digits otherwise, with [.0] after an integer. *)
Definition to_decimal (f : spec_float) : outcome decimal :=
  match f with
  | S754_zero _ => Ok (Dec 0 (-1))
  | S754_finite s m e =>
      let '(num, den) := fraction m e in
      let '(c, k) := shortest 17 (S754_finite false m e) num den (magnitude num den) 1 in
      let '(c, k) := strip 17 c k in
      let decpt := k + Dec.ndigits c in
      let c := if s then - c else c in
      if (decpt <=? -4) || (16 <? decpt) then Ok (Dec c k)
      else if 0 <=? k then Ok (Dec (c * 10 ^ (k + 1)) (-1))
      else Ok (Dec c k)
  | _ => Beyond
  end.

End Float.

(** ** Model fields *)

Module Field.

(** [models.DecimalField(max_digits, decimal_places)] on its way into the
    database of [settings.DATABASES] (sqlite3): the value is quantized to
    [decimal_places] places in a context of [max_digits] digits, with that
    context's rounding (half-even); a value that does not fit raises
    InvalidOperation and nothing is written.  What is read back later is
    the quantized value. *)
Definition DecimalField (max_digits decimal_places : Z) (v : decimal) : outcome decimal :=
  Dec.quantize max_digits Dec.ROUND_HALF_EVEN v (- decimal_places).

End Field.

(** ** [store/utils/currency.py] *)

Module Currency.

(** [store.models.CurrencyRate]: one stored rate [base -> target]. *)
Record CurrencyRate : Set := {
  cr_base : string;
  cr_target : string;
  cr_rate : decimal;         (* DecimalField(max_digits=18, decimal_places=8) *)
  cr_fetched_at : Z          (* DateTimeField(auto_now_add=True) *)
}.

(** [CurrencyRate.latest_rate(base, target)] of [store/models.py]:
    [filter(base=base, target=target).order_by('-fetched_at').first()]. *)
Fixpoint latest_row (base target : string) (rows : list CurrencyRate) : option CurrencyRate :=
  match rows with
  | [] => None
  | r :: rest =>
      if bool_decide (cr_base r = base) && bool_decide (cr_target r = target) then
        match latest_row base target rest with
        | Some r' => if cr_fetched_at r <? cr_fetched_at r' then Some r' else Some r
        | None => Some r
        end
      else latest_row base target rest
  end.
Definition latest_rate (base target : string) (rows : list CurrencyRate) : option decimal :=
  cr_rate <$> latest_row base target rows.

(** What a call depends on besides the module's own state. *)
Record env : Type := {
  now : Z;                          (* time.time(), whole seconds *)
  CURRENCY_FETCH_ENABLED : bool;    (* settings.CURRENCY_FETCH_ENABLED *)
  (* requests.get(...).json()['rates'] as pairs (str(k), float(v)); None
     for a timeout, an HTTP error or a body that does not parse *)
  http_rates : string -> option (list (string * spec_float));
  rates_query_ok : bool;            (* the SELECT on CurrencyRate succeeds *)
  rates_write_ok : bool             (* the bulk INSERT on CurrencyRate succeeds *)
}.

(** The module globals [_CACHE], [_CACHE_TS] and the CurrencyRate table. *)
Record state : Type := {
  _CACHE : gmap string (gmap string spec_float);
  _CACHE_TS : gmap string Z;
  rate_rows : list CurrencyRate
}.

Definition _TTL_SECONDS : Z := 60 * 60.

(** The literals of [_FALLBACK_USD], in source order. *)
Definition fallback_literals : list (string * decimal) :=
  [ ("USD", Dec 10 (-1)); ("EUR", Dec 92 (-2)); ("GBP", Dec 78 (-2));
    ("UAH", Dec 410 (-1)); ("RUB", Dec 920 (-1)); ("JPY", Dec 1500 (-1));
    ("CAD", Dec 137 (-2)); ("AUD", Dec 155 (-2)); ("CNY", Dec 730 (-2));
    ("PLN", Dec 398 (-2)) ]%string.

Definition _FALLBACK_USD : gmap string spec_float :=
  list_to_map (prod_map id Float.of_decimal <$> fallback_literals).

(** [k in _FALLBACK_USD]. *)
Definition supported (k : string) : bool :=
  match _FALLBACK_USD !! k with Some _ => true | None => false end.

(** [bool(d)] for a dict. *)
Definition nonempty (d : gmap string spec_float) : bool :=
  negb (bool_decide (size d = 0%nat)).

(** [order_by('-fetched_at')]: newest first; rows of equal time keep their
    table order (SQL leaves that order open). *)
Fixpoint insert_desc (r : CurrencyRate) (l : list CurrencyRate) : list CurrencyRate :=
  match l with
  | [] => [r]
  | x :: xs =>
      if cr_fetched_at r <? cr_fetched_at x then x :: insert_desc r xs
      else r :: x :: xs
  end.
Definition order_by_fetched_at_desc (l : list CurrencyRate) : list CurrencyRate :=
  foldr insert_desc [] l.

(** [{r.target: float(r.rate) for r in recs if r.target in _FALLBACK_USD}]:
    a later row replaces an earlier one of the same target. *)
Definition rates_of_rows (recs : list CurrencyRate) : gmap string spec_float :=
  foldl (λ m r, if supported (cr_target r)
                then <[cr_target r := Float.of_decimal (cr_rate r)]> m else m)
        ∅ recs.

(** The block "Try DB" (lines 43-52 and again 92-102): [Some db_rates] when
    it returns them, [None] when control falls through. *)
Definition db_rates (E : env) (st : state) (base : string) : option (gmap string spec_float) :=
  if rates_query_ok E then
    let recs := take (size _FALLBACK_USD)
                  (order_by_fetched_at_desc
                     (filter (λ r, cr_base r = base) (rate_rows st))) in
    match recs with
    | [] => None
    | _ => let db := rates_of_rows recs in
           if nonempty db then Some db else None
    end
  else None.

(** The static table, pivoted to [base] (lines 54-60 and 104-114). *)
Definition static_rates (base : string) : gmap string spec_float :=
  if decide (base = "USD"%string) then _FALLBACK_USD
  else match _FALLBACK_USD !! base with
       | Some rate_base => (λ val, Float.div val rate_base) <$> _FALLBACK_USD
       | None => _FALLBACK_USD
       end.

Definition cache_put (st : state) (base : string) (r : gmap string spec_float) (t : Z) : state :=
  {| _CACHE := <[base := r]> (_CACHE st);
     _CACHE_TS := <[base := t]> (_CACHE_TS st);
     rate_rows := rate_rows st |}.

(** [{str(k): float(v) for k, v in rates.items() if str(k) in _FALLBACK_USD}]. *)
Definition filter_supported (items : list (string * spec_float)) : gmap string spec_float :=
  foldl (λ m kv, if supported kv.1 then <[kv.1 := kv.2]> m else m) ∅ items.

(** The rows that [bulk_create] writes for a fetched table: [Ok None] when
    a value does not fit the column (the insert raises, nothing is written). *)
Fixpoint new_rows (base : string) (t : Z) (items : list (string * spec_float))
  : outcome (option (list CurrencyRate)) :=
  match items with
  | [] => Ok (Some [])
  | (tgt, val) :: rest =>
      d ← Float.to_decimal val;
      tl ← new_rows base t rest;
      match Field.DecimalField 18 8 d, tl with
      | Ok q, Some rows =>
          Ok (Some ({| cr_base := base; cr_target := tgt; cr_rate := q; cr_fetched_at := t |} :: rows))
      | Beyond, _ => Beyond
      | _, _ => Ok None
      end
  end.

(** "Persist to DB (best-effort)", lines 78-87. *)
Definition persist (E : env) (st : state) (base : string) (filtered : gmap string spec_float)
  : outcome state :=
  rows ← new_rows base (now E) (map_to_list filtered);
  match rows with
  | Some rows =>
      if rates_write_ok E
      then Ok {| _CACHE := _CACHE st; _CACHE_TS := _CACHE_TS st;
                 rate_rows := rate_rows st ++ rows |}
      else Ok st
  | None => Ok st
  end.

(** Everything below the cache test when live fetching is disabled. *)
Definition fetch_disabled (E : env) (st : state) (base : string)
  : state * outcome (gmap string spec_float) :=
  match db_rates E st base with
  | Some db => (cache_put st base db (now E), Ok db)
  | None => (st, Ok (static_rates base))
  end.

(** "Try DB fallback", then the static table (lines 91-114). *)
Definition fetch_fallback (E : env) (st : state) (base : string)
  : state * outcome (gmap string spec_float) :=
  match db_rates E st base with
  | Some db => (cache_put st base db (now E), Ok db)
  | None => (st, Ok (static_rates base))
  end.

(** Lines 61-90: the live fetch; without a usable answer, the fallbacks. *)
Definition fetch_live (E : env) (st : state) (base : string)
  : state * outcome (gmap string spec_float) :=
  match http_rates E base with
  | Some items =>
      let filtered := filter_supported items in
      if nonempty filtered then
        let st1 := cache_put st base filtered (now E) in
        match persist E st1 base filtered with
        | Ok st2 => (st2, Ok filtered)
        | Raise _ => (st1, Ok filtered)
        | Beyond => (st1, Beyond)
        end
      else fetch_fallback E st base
  | None => fetch_fallback E st base
  end.

(** [base in _CACHE and (now - _CACHE_TS.get(base, 0)) < _TTL_SECONDS]. *)
Definition cache_hit (E : env) (st : state) (base : string) : option (gmap string spec_float) :=
  match _CACHE st !! base with
  | Some cached =>
      if now E - default 0 (_CACHE_TS st !! base) <? _TTL_SECONDS
      then Some cached else None
  | None => None
  end.

Definition _fetch_rates (E : env) (st : state) (base : string)
  : state * outcome (gmap string spec_float) :=
  match cache_hit E st base with
  | Some cached => (st, Ok cached)
  | None =>
      if negb (CURRENCY_FETCH_ENABLED E) then fetch_disabled E st base
      else fetch_live E st base
  end.

(** [r] counts as true in [if r_from and r_to]: present and not zero. *)
Definition usable (r : option spec_float) : bool :=
  match r with
  | Some f => Float.truthy f
  | None => false
  end.

(** The body of the [try] of lines 124-131, after [usd_rates] is there. *)
Definition pivot (amount_dec : decimal) (usd_rates : gmap string spec_float)
    (from_currency to_currency : string) : outcome (option decimal) :=
  match usd_rates !! from_currency, usd_rates !! to_currency with
  | Some r_from, Some r_to =>
      if Float.truthy r_from && Float.truthy r_to then
        d_from ← Float.to_decimal r_from;
        in_usd ← Dec.div amount_dec d_from;
        d_to ← Float.to_decimal r_to;
        converted ← Dec.mul in_usd d_to;
        q ← Dec.quantize_cents converted;
        Ok (Some q)
      else Ok None
  | _, _ => Ok None
  end.

(** [convert_amount(amount, from_currency, to_currency)] for a [Decimal]
    amount, for which [Decimal(str(amount))] is the amount itself. *)
Definition convert_amount (E : env) (st : state) (amount : decimal)
    (from_currency to_currency : string) : state * outcome decimal :=
  let amount_dec := amount in
  if decide (from_currency = to_currency) then (st, Dec.quantize_cents amount_dec)
  else
    let '(st, rates_from) := _fetch_rates E st from_currency in
    match rates_from with
    | Ok rates_from =>
        match rates_from !! to_currency with
        | None =>
            (* the try of lines 124-133: an exception raised inside it is
               swallowed and control reaches line 134 *)
            let '(st, usd_rates) := _fetch_rates E st "USD" in
            match usd_rates with
            | Ok usd_rates =>
                match pivot amount_dec usd_rates from_currency to_currency with
                | Ok (Some v) => (st, Ok v)
                | Ok None | Raise _ => (st, Dec.quantize_cents amount_dec)
                | Beyond => (st, Beyond)
                end
            | Raise _ => (st, Dec.quantize_cents amount_dec)
            | Beyond => (st, Beyond)
            end
        | Some rate_to =>
            (st, rate ← Float.to_decimal rate_to;
                 converted ← Dec.mul amount_dec rate;
                 Dec.quantize_cents converted)
        end
    | Raise e => (st, Raise e)
    | Beyond => (st, Beyond)
    end.

End Currency.

(** ** [store/models.py]: the wallet *)

Module Models.
Import Currency.

(** [UserProfile], the fields the wallet uses.  The same record serves for
    the row of the table and for an instance loaded from it. *)
Record UserProfile : Set := {
  user : nat;
  preferred_currency : string;   (* CharField(max_length=5, default='USD') *)
  total_spent : decimal;         (* DecimalField(max_digits=10, decimal_places=2) *)
  balance : decimal              (* DecimalField(max_digits=12, decimal_places=2) *)
}.

Inductive kind : Set := topup | purchase_deduct | manual_adjust | refund.

(** [WalletTransaction]; [description] and [created_at] are left out, the
    rows of the table are kept in creation order. *)
Record WalletTransaction : Set := {
  wt_user : nat;
  amount : decimal;                    (* DecimalField(12, 2) *)
  currency : string;
  source_amount : option decimal;      (* DecimalField(12, 2, null=True) *)
  source_currency : option string;
  wt_kind : kind;
  balance_after : decimal              (* DecimalField(12, 2) *)
}.

Inductive status : Set := pending | paid | cancelled.

Record Order : Set := {
  o_user : nat;
  total_price : decimal;               (* DecimalField(10, 2) *)
  o_currency : string;
  o_status : status
}.

(** The process and its database: the resolver's globals and table, the
    three tables of the wallet, and the state of the connection
    ([in_atomic_block], [needs_rollback]). *)
Record World : Type := {
  rates : Currency.state;
  profiles : gmap nat UserProfile;
  wallet_transactions : list WalletTransaction;
  orders : gmap nat Order;
  in_atomic_block : bool;
  needs_rollback : bool
}.

Definition set_rates (w : World) (r : Currency.state) : World :=
  {| rates := r; profiles := profiles w; wallet_transactions := wallet_transactions w;
     orders := orders w; in_atomic_block := in_atomic_block w;
     needs_rollback := needs_rollback w |}.

Definition set_profiles (w : World) (p : gmap nat UserProfile) : World :=
  {| rates := rates w; profiles := p; wallet_transactions := wallet_transactions w;
     orders := orders w; in_atomic_block := in_atomic_block w;
     needs_rollback := needs_rollback w |}.

Definition set_wallet_transactions (w : World) (l : list WalletTransaction) : World :=
  {| rates := rates w; profiles := profiles w; wallet_transactions := l;
     orders := orders w; in_atomic_block := in_atomic_block w;
     needs_rollback := needs_rollback w |}.

Definition set_orders (w : World) (o : gmap nat Order) : World :=
  {| rates := rates w; profiles := profiles w; wallet_transactions := wallet_transactions w;
     orders := o; in_atomic_block := in_atomic_block w;
     needs_rollback := needs_rollback w |}.

(** [Model.save] runs under [mark_for_rollback_on_error]: an exception
    inside an atomic block marks the transaction before it goes on. *)
Definition mark_for_rollback_on_error (w : World) : World :=
  {| rates := rates w; profiles := profiles w; wallet_transactions := wallet_transactions w;
     orders := orders w; in_atomic_block := in_atomic_block w;
     needs_rollback := needs_rollback w || in_atomic_block w |}.

Definition with_balance (p : UserProfile) (b : decimal) : UserProfile :=
  {| user := user p; preferred_currency := preferred_currency p;
     total_spent := total_spent p; balance := b |}.
Definition with_preferred_currency (p : UserProfile) (c : string) : UserProfile :=
  {| user := user p; preferred_currency := c;
     total_spent := total_spent p; balance := balance p |}.
Definition with_total_spent (p : UserProfile) (t : decimal) : UserProfile :=
  {| user := user p; preferred_currency := preferred_currency p;
     total_spent := t; balance := balance p |}.

(** [self.save(update_fields=...)]: the new values are prepared for their
    columns, then the row is UPDATEd.  A query in a transaction marked for
    rollback raises TransactionManagementError; an UPDATE that touches no
    row raises DatabaseError. *)
Definition save (w : World) (self : UserProfile)
    (prepared : outcome (UserProfile -> UserProfile)) : World * outcome unit :=
  match prepared with
  | Ok update =>
      if needs_rollback w then (w, Raise TransactionManagementError)
      else match profiles w !! user self with
           | Some row => (set_profiles w (<[user self := update row]> (profiles w)), Ok tt)
           | None => (mark_for_rollback_on_error w, Raise DatabaseError)
           end
  | Raise e => (mark_for_rollback_on_error w, Raise e)
  | Beyond => (w, Beyond)
  end.

(** [update_fields=['balance']] *)
Definition save_balance (w : World) (self : UserProfile) : World * outcome unit :=
  save w self (b ← Field.DecimalField 12 2 (balance self); Ok (λ row, with_balance row b)).


(** [update_fields=['total_spent']] *)
Definition save_total_spent (w : World) (self : UserProfile) : World * outcome unit :=
  save w self (t ← Field.DecimalField 10 2 (total_spent self); Ok (λ row, with_total_spent row t)).

(** The [amount] argument of the helpers, "число/строка/Decimal", by what
    [Decimal(str(amount))] makes of it: a finite decimal; one of the
    special values that [Decimal] reads as well (NaN and sNaN, the two
    infinities); or an exception, for everything else. *)
Inductive pyamount : Set :=
| Numeric (d : decimal)
| NaN                          (* Decimal('NaN'), Decimal('sNaN') *)
| Infinity (negative : bool)   (* Decimal('Infinity'), Decimal('-Infinity') *)
| NotNumeric.

(** [currency or self.preferred_currency] *)
Definition currency_or (currency : option string) (preferred : string) : string :=
  match currency with
  | Some c => if decide (c = EmptyString) then preferred else c
  | None => preferred
  end.

(** [try: amt = convert_amount(amt, cur, preferred) except Exception: pass] *)
Definition try_convert (E : env) (w : World) (amt : decimal) (cur preferred : string)
  : World * outcome decimal :=
  let '(r, converted) := convert_amount E (rates w) amt cur preferred in
  match converted with
  | Ok v => (set_rates w r, Ok v)
  | Raise _ => (set_rates w r, Ok amt)
  | Beyond => (set_rates w r, Beyond)
  end.

(** Lines 357-362 and 380-385, the same in both helpers:
    [cur = currency or self.preferred_currency], then the conversion when
    [cur] is another currency. *)
Definition in_preferred_currency (E : env) (w : World) (self : UserProfile)
    (amt : decimal) (currency : option string) : World * outcome decimal :=
  let cur := currency_or currency (preferred_currency self) in
  if decide (cur = preferred_currency self) then (w, Ok amt)
  else try_convert E w amt cur (preferred_currency self).

(** [UserProfile.add_balance(amount, currency=None, save=True)]: the
    instance afterwards, the world afterwards, and how the call ends. *)
Definition add_balance (E : env) (w : World) (self : UserProfile)
    (amount : pyamount) (currency : option string) (save : bool)
  : UserProfile * World * outcome unit :=
  match amount with
  | NotNumeric => (self, w, Ok tt)
  | NaN => (self, w, Raise InvalidOperation)   (* [amt <= 0] raises *)
  | Infinity true => (self, w, Ok tt)          (* [amt <= 0] holds *)
  | Infinity false => (self, w, Beyond)        (* the balance leaves the finite decimals *)
  | Numeric amt =>
      if Dec.leb amt Dec.zero then (self, w, Ok tt)
      else
        let '(w, amt) := in_preferred_currency E w self amt currency in
        match amt ≫= Dec.add (balance self) with
        | Ok b =>
            let self := with_balance self b in
            if save then
              let '(w, r) := save_balance w self in (self, w, r)
            else (self, w, Ok tt)
        | Raise e => (self, w, Raise e)
        | Beyond => (self, w, Beyond)
        end
  end.

(** [UserProfile.deduct_balance(amount, currency=None, allow_negative=False,
    save=True) -> bool]. *)
Definition deduct_balance (E : env) (w : World) (self : UserProfile)
    (amount : pyamount) (currency : option string) (allow_negative save : bool)
  : UserProfile * World * outcome bool :=
  match amount with
  | NotNumeric => (self, w, Ok false)
  | NaN => (self, w, Raise InvalidOperation)   (* [amt <= 0] raises *)
  | Infinity true => (self, w, Ok false)       (* [amt <= 0] holds *)
  | Infinity false => (self, w, Beyond)        (* [self.balance - amt] is not finite *)
  | Numeric amt =>
      if Dec.leb amt Dec.zero then (self, w, Ok false)
      else
        let '(w, amt) := in_preferred_currency E w self amt currency in
        match amt ≫= Dec.sub (balance self) with
        | Ok new_balance =>
            if negb allow_negative && Dec.ltb new_balance (Dec 0 (-2))
            then (self, w, Ok false)
            else
              let self := with_balance self new_balance in
              if save then
                let '(w, r) := save_balance w self in
                (self, w, r ≫= λ _, Ok true)
              else (self, w, Ok true)
        | Raise e => (self, w, Raise e)
        | Beyond => (self, w, Beyond)
        end
  end.


(** [UserProfile.add_spending(amount)] for a [Decimal] amount. *)
Definition add_spending (w : World) (self : UserProfile) (amount : decimal)
  : UserProfile * World * outcome unit :=
  match Dec.add (total_spent self) amount with
  | Ok t =>
      let self := with_total_spent self t in
      let '(w, r) := save_total_spent w self in (self, w, r)
  | Raise e => (self, w, Raise e)
  | Beyond => (self, w, Beyond)
  end.

(** [WalletTransaction.objects.create(...)]: the row as the table keeps it.
    [wallet_write] tells whether the INSERT itself goes through. *)
Definition prepare_row (t : WalletTransaction) : outcome WalletTransaction :=
  a ← Field.DecimalField 12 2 (amount t);
  s ← match source_amount t with
      | Some v => q ← Field.DecimalField 12 2 v; Ok (Some q)
      | None => Ok None
      end;
  b ← Field.DecimalField 12 2 (balance_after t);
  Ok {| wt_user := wt_user t; amount := a; currency := currency t;
        source_amount := s; source_currency := source_currency t;
        wt_kind := wt_kind t; balance_after := b |}.

Definition create (wallet_write : bool) (w : World) (t : WalletTransaction)
  : World * outcome unit :=
  match prepare_row t with
  | Ok row =>
      if needs_rollback w then (w, Raise TransactionManagementError)
      else if wallet_write
           then (set_wallet_transactions w (wallet_transactions w ++ [row]), Ok tt)
           else (mark_for_rollback_on_error w, Raise DatabaseError)
  | Raise e => (mark_for_rollback_on_error w, Raise e)
  | Beyond => (w, Beyond)
  end.

End Models.

(** ** [store/views.py]: the two views that move money *)

Module Views.
Import Currency Models.

(** What the user gets to see: the flash messages of a response. *)
Inductive message : Set :=
| profile_not_found           (* "Профиль не найден." *)
| enter_valid_amount          (* "Введите корректную сумму." *)
| amount_must_be_positive     (* "Сумма должна быть больше 0." *)
| below_minimum (min_amt : decimal)
| topped_up (delta : decimal) (* "Баланс пополнен на ..." / "... зачислено ..." *)
| charged (to_charge : decimal)   (* "Списано ... с баланса." *)
| insufficient_funds          (* "Недостаточно средств на балансе. Списание пропущено." *)
| payment_succeeded.          (* "Оплата прошла успешно. Спасибо за покупку!" *)

Inductive response : Set :=
| HttpResponseRedirect (msgs : list message)
| Http404.

(** *** [transaction.atomic()], outermost block *)

Definition atomic_enter (w : World) : World :=
  {| rates := rates w; profiles := profiles w; wallet_transactions := wallet_transactions w;
     orders := orders w; in_atomic_block := true; needs_rollback := false |}.

(** Leaving the block: COMMIT, or ROLLBACK when the transaction was marked.
    A rollback restores the tables; the globals of the process stay. *)
Definition atomic_exit (before w : World) : World :=
  if needs_rollback w then
    {| rates := {| _CACHE := _CACHE (rates w); _CACHE_TS := _CACHE_TS (rates w);
                   rate_rows := rate_rows (rates before) |};
       profiles := profiles before; wallet_transactions := wallet_transactions before;
       orders := orders before; in_atomic_block := false; needs_rollback := false |}
  else
    {| rates := rates w; profiles := profiles w; wallet_transactions := wallet_transactions w;
       orders := orders w; in_atomic_block := false; needs_rollback := false |}.

(** *** [WalletTopupView.post] *)

Record topup_form : Set := {
  tf_user : nat;               (* request.user *)
  tf_amount : pyamount;        (* Decimal(amt_raw), InvalidOperation caught *)
  tf_currency : string         (* request.POST['currency'], stripped *)
}.

(** Lines 1888-1892: the minimum, one US dollar in the chosen currency. *)
Definition min_amount (E : env) (w : World) (chosen_currency : string) : World * outcome decimal :=
  let '(r, m) := convert_amount E (rates w) (Dec 100 (-2)) "USD" chosen_currency in
  match m with
  | Ok v => (set_rates w r, Ok v)
  | Raise _ =>
      (set_rates w r,
       Ok (if decide (chosen_currency = "USD"%string) then Dec 100 (-2) else Dec 0 (-2)))
  | Beyond => (set_rates w r, Beyond)
  end.

Definition WalletTopupView_post (E : env) (wallet_write : bool) (w : World) (f : topup_form)
  : World * outcome response :=
  match profiles w !! tf_user f with
  | None => (w, Ok (HttpResponseRedirect [profile_not_found]))
  | Some prof =>
      let chosen_currency :=
        if decide (tf_currency f = EmptyString) then preferred_currency prof else tf_currency f in
      match tf_amount f with
      | NotNumeric => (w, Ok (HttpResponseRedirect [enter_valid_amount]))
      | NaN => (w, Raise InvalidOperation)     (* [amt <= 0] raises, nothing catches it *)
      | Infinity true => (w, Ok (HttpResponseRedirect [amount_must_be_positive]))
      | Infinity false => (w, Beyond)
      | Numeric amt =>
          if Dec.leb amt Dec.zero then (w, Ok (HttpResponseRedirect [amount_must_be_positive]))
          else
            let '(w, min_amt) := min_amount E w chosen_currency in
            match min_amt with
            | Ok min_amt =>
                if Dec.ltb amt min_amt then (w, Ok (HttpResponseRedirect [below_minimum min_amt]))
                else
                  let target_cur := preferred_currency prof in
                  let '(w, credited) :=
                    if decide (chosen_currency = target_cur) then (w, Ok amt)
                    else try_convert E w amt chosen_currency target_cur in
                  match credited with
                  | Ok credited =>
                      let before := balance prof in
                      let '(prof, w, r) :=
                        add_balance E w prof (Numeric credited) (Some target_cur) true in
                      match r ≫= λ _, Dec.sub (balance prof) before with
                      | Ok delta =>
                          let converted := negb (bool_decide (chosen_currency = target_cur)) in
                          (* try: WalletTransaction.objects.create(...) except Exception: pass *)
                          let '(w, _) :=
                            create wallet_write w
                              {| wt_user := tf_user f; amount := delta; currency := target_cur;
                                 source_amount := if converted then Some amt else None;
                                 source_currency := if converted then Some chosen_currency else None;
                                 wt_kind := topup; balance_after := balance prof |} in
                          (w, Ok (HttpResponseRedirect [topped_up delta]))
                      | Raise e => (w, Raise e)
                      | Beyond => (w, Beyond)
                      end
                  | Raise e => (w, Raise e)
                  | Beyond => (w, Beyond)
                  end
            | Raise e => (w, Raise e)
            | Beyond => (w, Beyond)
            end
      end
  end.

(** *** [PaymentView.post] *)

Record payment_form : Set := {
  pf_user : nat;               (* request.user *)
  pf_pk : nat;                 (* kwargs['pk'] *)
  pf_use_wallet : bool         (* request.POST.get('use_wallet') == '1' *)
}.

(** What the view reads before it writes anything: the order (404 without
    one of this user) and the profile. *)
Definition payment_load (w : World) (f : payment_form) : option (Order * option UserProfile) :=
  match orders w !! pf_pk f with
  | Some order =>
      if decide (o_user order = pf_user f) then Some (order, profiles w !! pf_user f)
      else None
  | None => None
  end.

(** Lines 1430-1458, the wallet part of the [try] inside the atomic block. *)
Definition charge_wallet (E : env) (wallet_write : bool) (w : World) (f : payment_form)
    (order : Order) (prof : UserProfile)
  : UserProfile * World * outcome (list message) :=
  if pf_use_wallet f && Dec.ltb Dec.zero (balance prof) then
    let '(w, to_charge) :=
      if decide (o_currency order = preferred_currency prof) then (w, Ok (total_price order))
      else try_convert E w (total_price order) (o_currency order) (preferred_currency prof) in
    match to_charge with
    | Ok to_charge =>
        if Dec.leb to_charge (balance prof) then
          let before := balance prof in
          let '(prof, w, ok) :=
            deduct_balance E w prof (Numeric to_charge) (Some (preferred_currency prof)) false true in
          match ok with
          | Ok true =>
              (* try: WalletTransaction.objects.create(...) except Exception: pass *)
              match d ← Dec.sub before (balance prof); Dec.mul d (Dec (-1) 0) with
              | Ok amount =>
                  let '(w, _) :=
                    create wallet_write w
                      {| wt_user := pf_user f; amount := amount;
                         currency := preferred_currency prof;
                         source_amount := Some (total_price order);
                         source_currency := Some (o_currency order);
                         wt_kind := purchase_deduct; balance_after := balance prof |} in
                  (prof, w, Ok [charged to_charge])
              | Raise _ => (prof, w, Ok [charged to_charge])
              | Beyond => (prof, w, Beyond)
              end
          | Ok false => (prof, w, Ok [charged to_charge])
          | Raise e => (prof, w, Raise e)
          | Beyond => (prof, w, Beyond)
          end
        else (prof, w, Ok [insufficient_funds])
    | Raise e => (prof, w, Raise e)
    | Beyond => (prof, w, Beyond)
    end
  else (prof, w, Ok []).

(** The rest of the view, on what [payment_load] read. *)
Definition payment_run (E : env) (wallet_write : bool) (w : World) (f : payment_form)
    (order : Order) (prof : option UserProfile) : World * outcome response :=
  match o_status order with
  | paid => (w, Ok (HttpResponseRedirect [payment_succeeded]))
  | _ =>
      let before := w in
      let w := atomic_enter w in
      (* order.status = 'paid'; order.save(update_fields=['status']) *)
      let w := set_orders w
                 (<[pf_pk f := {| o_user := o_user order; total_price := total_price order;
                                  o_currency := o_currency order; o_status := paid |}]> (orders w)) in
      match prof with
      | Some prof =>
          (* try: ... except Exception: pass *)
          let '(prof, w, msgs) := charge_wallet E wallet_write w f order prof in
          match msgs with
          | Ok msgs =>
              let '(_, w, spent) := add_spending w prof (total_price order) in
              match spent with
              | Beyond => (w, Beyond)
              | _ => (atomic_exit before w, Ok (HttpResponseRedirect (msgs ++ [payment_succeeded])))
              end
          | Raise _ => (atomic_exit before w, Ok (HttpResponseRedirect [payment_succeeded]))
          | Beyond => (w, Beyond)
          end
      | None => (atomic_exit before w, Ok (HttpResponseRedirect [payment_succeeded]))
      end
  end.

Definition PaymentView_post (E : env) (wallet_write : bool) (w : World) (f : payment_form)
  : World * outcome response :=
  match payment_load w f with
  | Some (order, prof) => payment_run E wallet_write w f order prof
  | None => (w, Ok Http404)
  end.

End Views.

(** ** The words of the specification *)

Module Spec.

(** "Round half-up to 2 decimal places": the whole number of cents nearest
    to [x], a value halfway between two going to the one of larger
    magnitude, that is [floor(|x| * 100 + 1/2)] with the sign of [x]. *)
Definition cents_half_up (x : decimal) : Z :=
  let n := if 0 <=? dexp x + 2 then Z.abs (dmant x) * 10 ^ (dexp x + 2) else Z.abs (dmant x) in
  let d := if 0 <=? dexp x + 2 then 1 else 10 ^ (- (dexp x + 2)) in
  Z.sgn (dmant x) * ((2 * n + d) / (2 * d)).

Definition round_half_up_2 (x : decimal) : decimal := Dec (cents_half_up x) (-2).

End Spec.

(** ** The ledger, as the specification speaks of it *)

Module Ledger.
Import Currency Models Views.

(** The stored balance of every user. *)
Definition balances (w : World) : gmap nat decimal := balance <$> profiles w.

(** The WalletTransaction rows of a user, in creation order. *)
Definition ledger_of (u : nat) (w : World) : list WalletTransaction :=
  filter (λ t, wt_user t = u) (wallet_transactions w).

(** The sum of the amounts of some rows, in cents. *)
Definition amounts_sum (rows : list WalletTransaction) : Z :=
  foldr (λ t acc, dmant (amount t) + acc) 0 rows.

(** Every row's [balance_after] is the sum of the amounts up to and
    including that row. *)
Definition running_sums_ok (rows : list WalletTransaction) : Prop :=
  forall i t, rows !! i = Some t ->
    dexp (amount t) = -2 /\
    balance_after t = Dec (amounts_sum (take (S i) rows)) (-2).

(** A database as the application leaves it: every profile under its own
    user, balances and order totals as their columns hold them (cents,
    12 and 10 digits), balances not negative, no transaction open. *)
Definition well_formed (w : World) : Prop :=
  (forall k p, profiles w !! k = Some p ->
     user p = k /\ exists B, balance p = Dec B (-2) /\ 0 <= B < 10 ^ 12) /\
  (forall k o, orders w !! k = Some o ->
     exists T, total_price o = Dec T (-2) /\ Z.abs T < 10 ^ 10) /\
  in_atomic_block w = false /\
  needs_rollback w = false.

(** One request to one of the two views, with what it meets. *)
Inductive call : Type :=
| Topup (E : env) (wallet_write : bool) (f : topup_form)
| Pay (E : env) (wallet_write : bool) (f : payment_form).

Definition step (w : World) (c : call) : World * outcome response :=
  match c with
  | Topup E wallet_write f => WalletTopupView_post E wallet_write w f
  | Pay E wallet_write f => PaymentView_post E wallet_write w f
  end.

(** Requests served one after the other.  A request that ends in an
    exception (a 500 response) leaves the world it had reached. *)
Fixpoint run (w : World) (calls : list call) : outcome World :=
  match calls with
  | [] => Ok w
  | c :: rest =>
      match step w c with
      | (_, Beyond) => Beyond
      | (w', _) => run w' rest
      end
  end.

(** The requests of the ledger invariant: the INSERT of a top-up into the
    ledger goes through, and a top-up amount is written with at most two
    decimals and fits the column of the ledger.  A payment need not be
    asked anything: its failed INSERT takes the deduction back with it. *)
Definition plain (c : call) : Prop :=
  match c with
  | Topup _ wallet_write f =>
      wallet_write = true /\
      match tf_amount f with
      | Numeric a => -2 <= dexp a /\ exists q, Field.DecimalField 12 2 a = Ok q
      | _ => True
      end
  | Pay _ _ _ => True
  end.

(** What one request of user [v] can have done to the stored balances and
    to the ledger: nothing; a move of the balance by [D] cents together
    with its row; a move of the balance with no row. *)
Definition nothing (w w' : World) : Prop :=
  balances w' = balances w /\ wallet_transactions w' = wallet_transactions w.

Definition posted (v : nat) (w w' : World) : Prop :=
  exists B D row,
    balances w !! v = Some (Dec B (-2)) /\
    balances w' = <[v := Dec (B + D) (-2)]> (balances w) /\
    wallet_transactions w' = wallet_transactions w ++ [row] /\
    wt_user row = v /\ amount row = Dec D (-2) /\ balance_after row = Dec (B + D) (-2).

Definition unposted (v : nat) (w w' : World) : Prop :=
  exists B D,
    D <> 0 /\
    balances w !! v = Some (Dec B (-2)) /\
    balances w' = <[v := Dec (B + D) (-2)]> (balances w) /\
    wallet_transactions w' = wallet_transactions w.

(** The ledger of [u] adds up: the balance is the sum of the amounts of
    the rows, and every [balance_after] is the running sum. *)
Definition settled (u : nat) (w : World) : Prop :=
  exists B, balances w !! u = Some (Dec B (-2)) /\
            B = amounts_sum (ledger_of u w) /\
            running_sums_ok (ledger_of u w).

(** From [w] to [w'] rows were only added, and every balance moved by the
    sum of the amounts of its user's new rows. *)
Definition moved (w w' : World) : Prop :=
  exists rows,
    wallet_transactions w' = wallet_transactions w ++ rows /\
    forall u B, balances w !! u = Some (Dec B (-2)) ->
      balances w' !! u
      = Some (Dec (B + amounts_sum (filter (λ t, wt_user t = u) rows)) (-2)).

(** The rows of [u] written after [w], up to [w']. *)
Definition committed_since (w w' : World) (u : nat) : list WalletTransaction :=
  filter (λ t, wt_user t = u)
         (drop (length (wallet_transactions w)) (wallet_transactions w')).

(** Two payments served one after the other. *)
Definition serial (E1 E2 : env) (ww1 ww2 : bool) (f1 f2 : payment_form) (w : World)
  : World * outcome response * outcome response :=
  let '(w1, r1) := PaymentView_post E1 ww1 w f1 in
  let '(w2, r2) := PaymentView_post E2 ww2 w1 f2 in
  (w2, r1, r2).

(** Two payments of which each has read its order and its profile before
    the other one writes. *)
Definition interleaved (E1 E2 : env) (ww1 ww2 : bool) (f1 f2 : payment_form) (w : World)
  : option (World * outcome response * outcome response) :=
  match payment_load w f1, payment_load w f2 with
  | Some (order1, prof1), Some (order2, prof2) =>
      let '(w1, r1) := payment_run E1 ww1 w f1 order1 prof1 in
      let '(w2, r2) := payment_run E2 ww2 w1 f2 order2 prof2 in
      Some (w2, r1, r2)
  | _, _ => None
  end.

(** A user just created: balance 0.00, no row. *)
Definition fresh_user (u : nat) (w : World) : Prop :=
  balances w !! u = Some (Dec 0 (-2)) /\ ledger_of u w = [].

End Ledger.

(** ** Concrete settings used by the examples *)

Module Samples.
Import Currency Models Views.

(** The module as imported, with an empty CurrencyRate table. *)
Definition fresh_rates : Currency.state :=
  {| _CACHE := ∅; _CACHE_TS := ∅; rate_rows := [] |}.

(** [settings.CURRENCY_FETCH_ENABLED = False], as in [settings.py]. *)
Definition offline : env :=
  {| now := 1700000000; CURRENCY_FETCH_ENABLED := false; http_rates := λ _, None;
     rates_query_ok := true; rates_write_ok := true |}.

(** A user with 5.00 USD, and the world that holds just that profile. *)
Definition five_dollars : UserProfile :=
  {| user := 1; preferred_currency := "USD"; total_spent := Dec 0 (-2); balance := Dec 500 (-2) |}.
Definition ten_dollars : UserProfile :=
  {| user := 1; preferred_currency := "USD"; total_spent := Dec 0 (-2); balance := Dec 1000 (-2) |}.
Definition no_money : UserProfile :=
  {| user := 1; preferred_currency := "USD"; total_spent := Dec 0 (-2); balance := Dec 0 (-2) |}.
Definition world_of (p : UserProfile) (o : gmap nat Order) : World :=
  {| rates := fresh_rates; profiles := {[ user p := p ]}; wallet_transactions := [];
     orders := o; in_atomic_block := false; needs_rollback := false |}.

(** An order of 6.00 USD of user 1, not yet paid; a wallet of 10.00 USD
    with two such orders. *)
Definition six_dollar_order : Order :=
  {| o_user := 1; total_price := Dec 600 (-2); o_currency := "USD"; o_status := pending |}.
Definition two_orders : World :=
  world_of ten_dollars {[ 1%nat := six_dollar_order; 2%nat := six_dollar_order ]}.
Definition pay_with_wallet (pk : nat) : payment_form :=
  {| pf_user := 1; pf_pk := pk; pf_use_wallet := true |}.
Definition topup_form_of (a : decimal) (c : string) : topup_form :=
  {| tf_user := 1; tf_amount := Numeric a; tf_currency := c |}.

(** A fresh user with one pending order of 1.50 USD, and three requests:
    a top-up of 41.00 UAH, one of 2.00 USD and the payment of the order. *)
Definition one_small_order : World :=
  world_of no_money
    {[ 7%nat := {| o_user := 1; total_price := Dec 150 (-2); o_currency := "USD";
                   o_status := pending |} ]}.
Definition three_requests : list Ledger.call :=
  [ Ledger.Topup offline true (topup_form_of (Dec 4100 (-2)) "UAH");
    Ledger.Topup offline true (topup_form_of (Dec 200 (-2)) "USD");
    Ledger.Pay offline true (pay_with_wallet 7) ].

(** One stored rate USD -> EUR of 0.50, a quarter of an hour old; and a
    state after all stored rates were deleted, the cache left as it is. *)
Definition eur_050 : CurrencyRate :=
  {| cr_base := "USD"; cr_target := "EUR"; cr_rate := Dec 50000000 (-8);
     cr_fetched_at := 1699999100 |}.
Definition one_eur_row : Currency.state :=
  {| _CACHE := ∅; _CACHE_TS := ∅; rate_rows := [eur_050] |}.
Definition pruned (st : Currency.state) : Currency.state :=
  {| _CACHE := _CACHE st; _CACHE_TS := _CACHE_TS st; rate_rows := [] |}.

(** Two stored rates USD -> EUR, 0.90 fetched first and 0.95 after it. *)
Definition eur_090 : CurrencyRate :=
  {| cr_base := "USD"; cr_target := "EUR"; cr_rate := Dec 90000000 (-8); cr_fetched_at := 1 |}.
Definition eur_095 : CurrencyRate :=
  {| cr_base := "USD"; cr_target := "EUR"; cr_rate := Dec 95000000 (-8); cr_fetched_at := 2 |}.
Definition two_eur_rows : Currency.state :=
  {| _CACHE := ∅; _CACHE_TS := ∅; rate_rows := [eur_090; eur_095] |}.

(** The rows of [test_convert_uses_db_rates_when_available]. *)
Definition test_rows : Currency.state :=
  {| _CACHE := ∅; _CACHE_TS := ∅;
     rate_rows := [ {| cr_base := "USD"; cr_target := "EUR"; cr_rate := Dec 90000000 (-8);
                       cr_fetched_at := 1 |};
                    {| cr_base := "USD"; cr_target := "UAH"; cr_rate := Dec 4000000000 (-8);
                       cr_fetched_at := 2 |} ] |}.

End Samples.

(** Unfolding of record updates and projections of the world. *)
Ltac wsimpl :=
  cbn [Models.set_rates Models.set_profiles Models.set_wallet_transactions Models.set_orders
       Models.mark_for_rollback_on_error Views.atomic_enter
       Models.rates Models.profiles Models.wallet_transactions Models.orders
       Models.in_atomic_block Models.needs_rollback
       Models.with_balance Models.with_total_spent Models.with_preferred_currency
       Models.user Models.balance Models.total_spent Models.preferred_currency] in *.

(** ** Further code of the same files *)

(** *** What the resolver's tables look like *)

Module Tables.
Import Currency.

(** A table of rates as the resolver hands it out: not empty, and with
    codes of [_FALLBACK_USD] only. *)
Definition tidy (r : gmap string spec_float) : Prop :=
  nonempty r = true /\ forall k v, r !! k = Some v -> supported k = true.

(** Every table in [_CACHE] is such a table. *)
Definition cache_tidy (st : state) : Prop :=
  forall base r, _CACHE st !! base = Some r -> tidy r.

End Tables.

(** *** [store/templatetags/store_extras.py] *)

Module StoreExtras.
Import Currency Models.


End StoreExtras.

(** *** What a request may touch *)

Module Frames.
Import Currency Models Views Ledger.

(** Every profile row is stored under its own user. *)
Definition keyed (w : World) : Prop :=
  forall k p, profiles w !! k = Some p -> user p = k.

(** From [w] to [w'] only the profile of [u] was written, the orders are
    the same, and the ledger grew by rows of [u] only. *)
Definition footprint (u : nat) (w w' : World) : Prop :=
  (forall k, k <> u -> profiles w' !! k = profiles w !! k) /\
  orders w' = orders w /\
  exists rows, wallet_transactions w' = wallet_transactions w ++ rows /\
               Forall (λ t, wt_user t = u) rows.

(** The user a request acts for. *)
Definition actor (c : call) : nat :=
  match c with
  | Topup _ _ f => tf_user f
  | Pay _ _ f => pf_user f
  end.

(** The tables of the wallet and of the orders. *)
Definition same_tables (w w' : World) : Prop :=
  profiles w' = profiles w /\ wallet_transactions w' = wallet_transactions w /\
  orders w' = orders w.

(** An order, paid. *)
Definition as_paid (o : Order) : Order :=
  {| o_user := o_user o; total_price := total_price o; o_currency := o_currency o;
     o_status := paid |}.

End Frames.

(** * Properties *)

(** ** Facts about decimals *)

Section DecFacts.
Import Dec.

Lemma digits_aux_bounds fuel n :
  0 < n -> n < 10 ^ (Z.of_nat fuel + 1) ->
  10 ^ (digits_aux fuel n - 1) <= n < 10 ^ digits_aux fuel n.
Proof.
  revert n. induction fuel as [|fuel IH]; intros n Hpos Hlt.
  - simpl in *. lia.
  - cbn [digits_aux]. destruct (n <? 10) eqn:Hn.
    + apply Z.ltb_lt in Hn. simpl. lia.
    + apply Z.ltb_ge in Hn.
      assert (Hq : 0 < n / 10) by (apply Z.div_str_pos; lia).
      assert (Hq' : n / 10 < 10 ^ (Z.of_nat fuel + 1)).
      { apply Z.div_lt_upper_bound; [lia|].
        replace (Z.of_nat (S fuel) + 1) with (Z.succ (Z.of_nat fuel + 1)) in Hlt by lia.
        rewrite Z.pow_succ_r in Hlt by lia. lia. }
      specialize (IH _ Hq Hq').
      assert (Hd : 1 <= digits_aux fuel (n / 10)).
      { destruct fuel; cbn [digits_aux]; [lia|].
        destruct (n / 10 <? 10); [lia|].
        assert (0 <= digits_aux fuel (n / 10 / 10)); [|lia].
        clear. generalize (n / 10 / 10). induction fuel; intros; cbn [digits_aux]; [lia|].
        destruct (z <? 10); [lia|]. specialize (IHfuel (z / 10)). lia. }
      replace (1 + digits_aux fuel (n / 10) - 1) with (Z.succ (digits_aux fuel (n / 10) - 1)) by lia.
      replace (1 + digits_aux fuel (n / 10)) with (Z.succ (digits_aux fuel (n / 10))) by lia.
      rewrite !Z.pow_succ_r by lia.
      pose proof (Z.div_mod n 10 ltac:(lia)).
      pose proof (Z.mod_pos_bound n 10 ltac:(lia)). lia.
Qed.

Lemma ndigits_bounds n : 0 < n -> 10 ^ (ndigits n - 1) <= n < 10 ^ ndigits n.
Proof.
  intros Hn. unfold ndigits. apply digits_aux_bounds; [done|].
  rewrite Z2Nat.id by apply Z.log2_nonneg.
  pose proof (Z.log2_spec n Hn) as [_ H2].
  eapply Z.lt_le_trans; [exact H2|].
  replace (Z.succ (Z.log2 n)) with (Z.log2 n + 1) by lia.
  apply Z.pow_le_mono_l. lia.
Qed.

Lemma ndigits_ge_1 n : 1 <= ndigits n.
Proof.
  unfold ndigits. generalize (Z.to_nat (Z.log2 n)). intros fuel. revert n.
  induction fuel; intros; cbn [digits_aux]; [lia|].
  destruct (n <? 10); [lia|]. specialize (IHfuel (n / 10)). lia.
Qed.

Lemma pow10_pos k : 0 < 10 ^ k \/ k < 0.
Proof. destruct (Z_lt_le_dec k 0); [by right|left; by apply Z.pow_pos_nonneg]. Qed.

Lemma pow10_lt_inv a b : 0 <= b -> 10 ^ a < 10 ^ b -> a < b.
Proof.
  intros Hb H. destruct (Z_lt_le_dec a b); [done|].
  exfalso. assert (10 ^ b <= 10 ^ a) by (apply Z.pow_le_mono_r; lia). lia.
Qed.

(** [ndigits] is the only [d] with [10^(d-1) <= n < 10^d]. *)
Lemma ndigits_unique n d : 0 < n -> 10 ^ (d - 1) <= n < 10 ^ d -> ndigits n = d.
Proof.
  intros Hn [Hlo Hhi].
  pose proof (ndigits_bounds n Hn) as [Hlo' Hhi'].
  pose proof (ndigits_ge_1 n).
  assert (0 < d).
  { destruct (Z_lt_le_dec 0 d); [done|]. exfalso.
    destruct (Z.eq_dec d 0) as [->|]; [simpl in Hhi; lia|].
    rewrite Z.pow_neg_r in Hhi by lia. lia. }
  assert (ndigits n - 1 < d) by (apply pow10_lt_inv; lia).
  assert (d - 1 < ndigits n) by (apply pow10_lt_inv; lia).
  lia.
Qed.

Lemma ndigits_le n d : 0 < n -> 0 <= d -> (ndigits n <= d <-> n < 10 ^ d).
Proof.
  intros Hn Hd. pose proof (ndigits_bounds n Hn) as [Hlo Hhi].
  pose proof (ndigits_ge_1 n). split; intros H'.
  - eapply Z.lt_le_trans; [exact Hhi|]. apply Z.pow_le_mono_r; lia.
  - assert (ndigits n - 1 < d); [|lia]. apply pow10_lt_inv; lia.
Qed.

End DecFacts.

Section QuantizeFacts.
Import Dec Spec.

(** A result that already fits the context passes [_fix] unchanged. *)
Lemma fix_fits prec d :
  dmant d <> 0 -> ndigits (Z.abs (dmant d)) <= prec ->
  Etiny prec <= dexp d -> dexp d <= Etop prec ->
  fix_ prec d = Ok d.
Proof.
  intros Hm Hd Ht He. unfold fix_.
  destruct (dmant d =? 0) eqn:H0; [apply Z.eqb_eq in H0; done|].
  destruct (Etop prec <? _) eqn:H1; [apply Z.ltb_lt in H1; lia|].
  destruct (dexp d <? _) eqn:H2; [apply Z.ltb_lt in H2; lia|done].
Qed.

Lemma fix_zero prec e :
  Etiny prec <= e -> e <= Emax -> fix_ prec (Dec 0 e) = Ok (Dec 0 e).
Proof. intros. unfold fix_. simpl. f_equal. f_equal. lia. Qed.

(** Half-up dropping of [k] digits is [floor (c / 10^k + 1/2)]. *)
Lemma round_drop_half_up c k :
  0 <= c -> 0 <= k ->
  round_drop ROUND_HALF_UP c k = (2 * c + 10 ^ k) / (2 * 10 ^ k).
Proof.
  intros Hc Hk. unfold round_drop.
  assert (Hp : 0 < 10 ^ k) by (apply Z.pow_pos_nonneg; lia).
  pose proof (Z.div_mod c (10 ^ k) ltac:(lia)) as Hdm.
  pose proof (Z.mod_pos_bound c (10 ^ k) Hp) as Hr.
  set (p := 10 ^ k) in *. set (q := c / p) in *. set (r := c mod p) in *.
  destruct (p <=? 2 * r) eqn:Hcmp.
  - apply Z.leb_le in Hcmp. apply Z.div_unique with (r := 2 * r - p); lia.
  - apply Z.leb_gt in Hcmp. apply Z.div_unique with (r := 2 * r + p); lia.
Qed.

Lemma adjusted_bounds d :
  dmant d <> 0 ->
  10 ^ (adjusted d - dexp d) <= Z.abs (dmant d) < 10 ^ (adjusted d - dexp d + 1).
Proof.
  intros Hm. unfold adjusted.
  pose proof (ndigits_bounds (Z.abs (dmant d)) ltac:(lia)) as [Hlo Hhi].
  replace (dexp d + ndigits (Z.abs (dmant d)) - 1 - dexp d) with (ndigits (Z.abs (dmant d)) - 1) by lia.
  replace (ndigits (Z.abs (dmant d)) - 1 + 1) with (ndigits (Z.abs (dmant d))) by lia. done.
Qed.

(** The magnitude of the rounded number of cents, from the position of the
    leading digit. *)
Lemma cents_half_up_bounds x :
  dmant x <> 0 -> 0 <= adjusted x + 2 ->
  10 ^ (adjusted x + 2) <= Z.abs (cents_half_up x) <= 10 ^ (adjusted x + 3).
Proof.
  intros Hm Ha. pose proof (adjusted_bounds x Hm) as [Hlo Hhi].
  set (a := adjusted x) in *. set (c := Z.abs (dmant x)) in *.
  assert (Hc0 : 0 < c) by (unfold c; lia).
  unfold cents_half_up. fold c.
  rewrite Z.abs_mul. replace (Z.abs (Z.sgn (dmant x))) with 1 by lia. rewrite Z.mul_1_l.
  destruct (0 <=? dexp x + 2) eqn:He.
  - apply Z.leb_le in He.
    replace ((2 * (c * 10 ^ (dexp x + 2)) + 1) / (2 * 1)) with (c * 10 ^ (dexp x + 2)).
    2:{ apply Z.div_unique with (r := 1); lia. }
    assert (Hp : 0 < 10 ^ (dexp x + 2)) by (apply Z.pow_pos_nonneg; lia).
    rewrite Z.abs_eq by (apply Z.mul_nonneg_nonneg; lia).
    replace (a + 2) with ((a - dexp x) + (dexp x + 2)) by lia.
    replace (a + 3) with ((a - dexp x + 1) + (dexp x + 2)) by lia.
    assert (0 <= a - dexp x).
    { unfold a, adjusted. pose proof (ndigits_ge_1 (Z.abs (dmant x))). lia. }
    rewrite (Z.pow_add_r 10 (a - dexp x) (dexp x + 2)),
      (Z.pow_add_r 10 (a - dexp x + 1) (dexp x + 2)) by lia.
    split; apply Z.mul_le_mono_nonneg_r; lia.
  - apply Z.leb_gt in He. set (k := - (dexp x + 2)) in *.
    assert (Hk : 0 < k) by lia.
    assert (Hp : 0 < 10 ^ k) by (apply Z.pow_pos_nonneg; lia).
    assert (Hq : 0 <= (2 * c + 10 ^ k) / (2 * 10 ^ k)) by (apply Z.div_pos; lia).
    rewrite Z.abs_eq by done.
    assert (Hak : a - dexp x = (a + 2) + k) by lia.
    rewrite Hak in Hlo. replace (a - dexp x + 1) with ((a + 3) + k) in Hhi by lia.
    rewrite Z.pow_add_r in Hlo, Hhi by lia.
    set (P := 10 ^ k) in *. set (A := 10 ^ (a + 2)) in *. set (B := 10 ^ (a + 3)) in *.
    assert (0 < A) by (apply Z.pow_pos_nonneg; lia).
    assert (0 < B) by (apply Z.pow_pos_nonneg; lia).
    clearbody P A B c. clear -Hlo Hhi Hp Hc0 H H0.
    split.
    + apply Z.div_le_lower_bound; [lia|]. nia.
    + assert ((2 * c + P) / (2 * P) < B + 1); [|lia].
      apply Z.div_lt_upper_bound; [lia|]. nia.
Qed.

(** [quantize] to cents, in full: the rounded number of cents when it has
    at most 28 digits, InvalidOperation otherwise. *)
Lemma quantize_cents_spec x :
  quantize_cents x =
    if Z.abs (cents_half_up x) <? 10 ^ 28 then Ok (round_half_up_2 x)
    else Raise InvalidOperation.
Proof.
  unfold quantize_cents, quantize, round_half_up_2.
  change (negb ((Etiny prec_default <=? -2) && (-2 <=? Emax))) with false. cbn iota.
  destruct (dmant x =? 0) eqn:Hm0.
  { apply Z.eqb_eq in Hm0. unfold cents_half_up. rewrite Hm0. simpl Z.sgn.
    rewrite Z.mul_0_l. reflexivity. }
  apply Z.eqb_neq in Hm0.
  destruct (Emax <? adjusted x) eqn:H1.
  { apply Z.ltb_lt in H1. unfold Emax in H1.
    pose proof (cents_half_up_bounds x Hm0 ltac:(lia)) as [Hlo _].
    assert (10 ^ 28 <= 10 ^ (adjusted x + 2)) by (apply Z.pow_le_mono_r; lia).
    destruct (Z.abs (cents_half_up x) <? 10 ^ 28) eqn:Hc; [apply Z.ltb_lt in Hc; lia|done]. }
  apply Z.ltb_ge in H1.
  destruct (prec_default <? adjusted x - -2 + 1) eqn:H2.
  { apply Z.ltb_lt in H2. unfold prec_default in H2.
    pose proof (cents_half_up_bounds x Hm0 ltac:(lia)) as [Hlo _].
    assert (10 ^ 28 <= 10 ^ (adjusted x + 2)) by (apply Z.pow_le_mono_r; lia).
    destruct (Z.abs (cents_half_up x) <? 10 ^ 28) eqn:Hc; [apply Z.ltb_lt in Hc; lia|done]. }
  apply Z.ltb_ge in H2. unfold prec_default in H2.
  assert (Hans : rescale ROUND_HALF_UP x (-2) = Dec (cents_half_up x) (-2)).
  { unfold rescale, cents_half_up.
    destruct (dmant x =? 0) eqn:E0; [apply Z.eqb_eq in E0; done|].
    replace (0 <=? dexp x + 2) with (-2 <=? dexp x).
    2:{ destruct (-2 <=? dexp x) eqn:Ea, (0 <=? dexp x + 2) eqn:Eb; try done;
        [apply Z.leb_le in Ea; apply Z.leb_gt in Eb|apply Z.leb_gt in Ea; apply Z.leb_le in Eb]; lia. }
    destruct (-2 <=? dexp x) eqn:He.
    - apply Z.leb_le in He. f_equal.
      replace ((2 * (Z.abs (dmant x) * 10 ^ (dexp x + 2)) + 1) / (2 * 1))
        with (Z.abs (dmant x) * 10 ^ (dexp x + 2)).
      2:{ apply Z.div_unique with (r := 1); lia. }
      replace (dexp x - -2) with (dexp x + 2) by lia.
      rewrite Z.mul_assoc. rewrite (Z.mul_comm (Z.sgn _)). rewrite Z.abs_sgn. done.
    - apply Z.leb_gt in He. f_equal. rewrite round_drop_half_up by lia.
      replace (-2 - dexp x) with (- (dexp x + 2)) by lia. done. }
  rewrite Hans. cbn [dmant dexp].
  destruct (Z.eq_dec (cents_half_up x) 0) as [Hz|Hnz].
  { rewrite Hz. change (Z.abs 0 <? 10 ^ 28) with true. cbn iota. reflexivity. }
  assert (Hcpos : 0 < Z.abs (cents_half_up x)) by lia.
  pose proof (ndigits_bounds _ Hcpos) as [Hdlo Hdhi].
  pose proof (ndigits_ge_1 (Z.abs (cents_half_up x))) as Hd1.
  destruct (Z_lt_le_dec (adjusted x) (-2)) as [Hadj|Hadj].
  { (* tiny numbers round to at most one cent *)
    assert (Hle : Z.abs (cents_half_up x) <= 1).
    { pose proof (adjusted_bounds x Hm0) as [_ Hhi].
      unfold cents_half_up. rewrite Z.abs_mul.
      replace (Z.abs (Z.sgn (dmant x))) with 1 by lia. rewrite Z.mul_1_l.
      assert (He : dexp x + 2 < 0).
      { unfold adjusted in Hadj. pose proof (ndigits_ge_1 (Z.abs (dmant x))). lia. }
      destruct (0 <=? dexp x + 2) eqn:Heb; [apply Z.leb_le in Heb; lia|].
      set (k := - (dexp x + 2)) in *.
      assert (Hp : 0 < 10 ^ k) by (apply Z.pow_pos_nonneg; lia).
      assert (Hpw : 10 ^ (adjusted x - dexp x + 1) <= 10 ^ k)
        by (apply Z.pow_le_mono_r; lia).
      rewrite Z.abs_eq by (apply Z.div_pos; lia).
      assert ((2 * Z.abs (dmant x) + 10 ^ k) / (2 * 10 ^ k) < 2); [|lia].
      apply Z.div_lt_upper_bound; lia. }
    assert (Hone : Z.abs (cents_half_up x) = 1) by lia.
    rewrite Hone. change (1 <? 10 ^ 28) with true. cbn iota.
    unfold adjusted. cbn [dmant dexp]. rewrite Hone.
    change (Emax <? -2 + ndigits 1 - 1) with false. cbn iota.
    change (prec_default <? ndigits 1) with false. cbn iota.
    apply fix_fits; cbn [dmant dexp]; rewrite ?Hone; try done; vm_compute; congruence. }
  pose proof (cents_half_up_bounds x Hm0 ltac:(lia)) as [Hlo Hhi].
  assert (Hup : 10 ^ (adjusted x + 3) <= 10 ^ 28) by (apply Z.pow_le_mono_r; lia).
  assert (Hnd : ndigits (Z.abs (cents_half_up x)) <= 29).
  { apply ndigits_le; [done|lia|]. change (10 ^ 29) with (10 * 10 ^ 28). lia. }
  unfold adjusted. cbn [dmant dexp].
  destruct (Emax <? _) eqn:H3; [apply Z.ltb_lt in H3; unfold Emax in H3; lia|].
  destruct (prec_default <? _) eqn:H4.
  - apply Z.ltb_lt in H4. unfold prec_default in H4.
    assert (~ Z.abs (cents_half_up x) < 10 ^ 28).
    { intros Hlt. apply ndigits_le in Hlt; [lia|done|lia]. }
    destruct (_ <? 10 ^ 28) eqn:Hc; [apply Z.ltb_lt in Hc; done|done].
  - apply Z.ltb_ge in H4. unfold prec_default in H4.
    assert (Hlt : Z.abs (cents_half_up x) < 10 ^ 28) by (apply ndigits_le; [done|lia|lia]).
    apply Z.ltb_lt in Hlt. rewrite Hlt.
    apply fix_fits; cbn [dmant dexp]; unfold prec_default, Etiny, Etop, Emin, Emax; lia.
Qed.

End QuantizeFacts.

(** ** The resolver *)

Section ResolverFacts.
Import Dec Spec Currency Samples.

(** Equal currencies: no lookup, the state is untouched. *)
Lemma convert_same_currency E st x C :
  convert_amount E st x C C = (st, quantize_cents x).
Proof. unfold convert_amount. by rewrite decide_True. Qed.

(** With fetching disabled, nothing stored and no live entry in the cache,
    the resolver answers from the static table and changes nothing. *)
Lemma fetch_static_table E st base :
  CURRENCY_FETCH_ENABLED E = false ->
  rate_rows st = [] ->
  cache_hit E st base = None ->
  _fetch_rates E st base = (st, Ok (static_rates base)).
Proof.
  intros Hoff Hrows Hmiss. unfold _fetch_rates. rewrite Hmiss, Hoff. cbn [negb].
  unfold fetch_disabled, db_rates. rewrite Hrows. by destruct (rates_query_ok E).
Qed.

Lemma fetch_static E base :
  CURRENCY_FETCH_ENABLED E = false ->
  _fetch_rates E fresh_rates base = (fresh_rates, Ok (static_rates base)).
Proof. intros Hoff. by apply fetch_static_table. Qed.

Lemma pivot_unusable amount usd_rates from_currency to_currency :
  usable (usd_rates !! from_currency) && usable (usd_rates !! to_currency) = false ->
  pivot amount usd_rates from_currency to_currency = Ok None.
Proof.
  unfold pivot, usable.
  destruct (usd_rates !! from_currency), (usd_rates !! to_currency); try done.
  by intros ->.
Qed.

(** In the dict built from rows, the row that comes last decides. *)
Lemma rates_of_rows_snoc recs r :
  supported (cr_target r) = true ->
  rates_of_rows (recs ++ [r]) !! cr_target r = Some (Float.of_decimal (cr_rate r)).
Proof.
  intros Hs. unfold rates_of_rows. rewrite foldl_app. cbn [foldl].
  rewrite Hs. apply lookup_insert_eq.
Qed.

(** C5, as stated, fails: fetching is disabled and no rate is stored, yet
    10 USD are 5.00 EUR.  A stored rate of 0.50 was read a moment before
    (which put it into [_CACHE]) and deleted afterwards; for the hour that
    the entry lives the cache answers, not the static table. *)
Lemma cached_table_overrides_static_fallback :
  exists st1 r,
    _fetch_rates offline one_eur_row "USD" = (st1, Ok r) /\
    CURRENCY_FETCH_ENABLED offline = false /\
    rate_rows (pruned st1) = [] /\
    (convert_amount offline (pruned st1) (Dec 10 0) "USD" "EUR").2 = Ok (Dec 500 (-2)).
Proof. eexists _, _. split; [reflexivity|]. split_and!; [done|done|]. vm_compute. reflexivity. Qed.

(** C5, amended. Static-fallback conversion is deterministic: with live
    fetching disabled and no stored rate, every base that the cache does
    not answer is answered from the fixed table ([derived[c] = fallback[c]
    / fallback[base]] for a base other than USD) and the state stays as
    it was; 10 USD are then 9.20 EUR and 41.00 UAH are 1.00 USD. *)
Theorem static_fallback_conversion E st :
  CURRENCY_FETCH_ENABLED E = false ->
  rate_rows st = [] ->
  (forall base, cache_hit E st base = None ->
                _fetch_rates E st base = (st, Ok (static_rates base))) /\
  static_rates "USD" = _FALLBACK_USD /\
  (forall base rate_base,
      base <> "USD"%string -> _FALLBACK_USD !! base = Some rate_base ->
      static_rates base = (λ val, Float.div val rate_base) <$> _FALLBACK_USD) /\
  (cache_hit E st "USD" = None ->
   convert_amount E st (Dec 10 0) "USD" "EUR" = (st, Ok (Dec 920 (-2)))) /\
  (cache_hit E st "UAH" = None ->
   convert_amount E st (Dec 4100 (-2)) "UAH" "USD" = (st, Ok (Dec 100 (-2)))).
Proof.
  intros Hoff Hrows. split_and!.
  - intros base Hmiss. by apply fetch_static_table.
  - reflexivity.
  - intros base rate_base Hne Hb. unfold static_rates.
    by rewrite decide_False, Hb.
  - intros Hmiss. unfold convert_amount. rewrite decide_False by done.
    rewrite fetch_static_table by done. vm_compute. reflexivity.
  - intros Hmiss. unfold convert_amount. rewrite decide_False by done.
    rewrite fetch_static_table by done. vm_compute. reflexivity.
Qed.

Lemma static_fallback_conversion_witness :
  convert_amount offline fresh_rates (Dec 10 0) "USD" "EUR" = (fresh_rates, Ok (Dec 920 (-2))) /\
  convert_amount offline fresh_rates (Dec 4100 (-2)) "UAH" "USD" = (fresh_rates, Ok (Dec 100 (-2))).
Proof.
  pose proof (static_fallback_conversion offline fresh_rates eq_refl eq_refl)
    as (_ & _ & _ & H1 & H2).
  exact (conj (H1 eq_refl) (H2 eq_refl)).
Defined.

(** C6. Persisted-fallback authority fails on the code: with two stored
    rows USD -> EUR, 0.90 fetched at time 1 and 0.95 at time 2,
    [latest_rate] (the newest row of the pair) is 0.95, yet the fallback
    of [_fetch_rates] answers 0.9, the older row, with fetching disabled
    and also after a failed live fetch; 10 USD become 9.00 EUR. *)
Theorem persisted_fallback_keeps_older_row :
  latest_rate "USD" "EUR" (rate_rows two_eur_rows) = Some (Dec 95000000 (-8)) /\
  (exists st rates,
      _fetch_rates offline two_eur_rows "USD" = (st, Ok rates) /\
      rates !! "EUR"%string = Some (Float.of_decimal (Dec 9 (-1)))) /\
  (exists st rates,
      _fetch_rates {| now := 5; CURRENCY_FETCH_ENABLED := true; http_rates := λ _, None;
                      rates_query_ok := true; rates_write_ok := true |}
                   two_eur_rows "USD" = (st, Ok rates) /\
      rates !! "EUR"%string = Some (Float.of_decimal (Dec 9 (-1)))) /\
  (convert_amount offline two_eur_rows (Dec 10 0) "USD" "EUR").2 = Ok (Dec 900 (-2)).
Proof.
  split; [reflexivity|]. split; [|split].
  - eexists _, _. split; [reflexivity|]. vm_compute. reflexivity.
  - eexists _, _. split; [reflexivity|]. vm_compute. reflexivity.
  - vm_compute. reflexivity.
Qed.

(** The repository's own test of the stored rates,
    [test_convert_uses_db_rates_when_available]. *)
Example test_convert_uses_db_rates :
  (convert_amount offline test_rows (Dec 10 0) "USD" "EUR").2 = Ok (Dec 900 (-2)) /\
  (convert_amount offline test_rows (Dec 5 0) "USD" "UAH").2 = Ok (Dec 20000 (-2)).
Proof. split; vm_compute; reflexivity. Qed.

(** C7, as stated, fails.  An amount of 1E+26 between two codes that no
    table knows makes [convert_amount] raise InvalidOperation; and so does
    1E+25 from USD to JPY, an amount that can itself be rounded to cents,
    because 150 times as much cannot. *)
Lemma convert_raises_on_huge_amount :
  (convert_amount offline fresh_rates (Dec 1 26) "XXX" "YYY").2 = Raise InvalidOperation /\
  (convert_amount offline fresh_rates (Dec 1 25) "USD" "JPY").2 = Raise InvalidOperation /\
  Z.abs (cents_half_up (Dec 1 25)) < 10 ^ 28.
Proof. split_and!; [vm_compute; reflexivity..|]. vm_compute. reflexivity. Qed.

(** The resolver itself raises nothing: every exception of the live
    fetch, of the query and of the insert is swallowed. *)
Lemma fetch_rates_never_raises E st base e :
  (_fetch_rates E st base).2 <> Raise e.
Proof.
  unfold _fetch_rates. destruct (cache_hit E st base); [done|].
  assert (Hfb : (fetch_fallback E st base).2 <> Raise e).
  { unfold fetch_fallback. by destruct (db_rates E st base). }
  destruct (negb (CURRENCY_FETCH_ENABLED E)).
  - unfold fetch_disabled. by destruct (db_rates E st base).
  - unfold fetch_live. destruct (http_rates E base) as [items|]; [|done].
    destruct (nonempty (filter_supported items)); [|done].
    by destruct (persist E _ base _).
Qed.

(** C8, as stated, fails: 1E+26 in one and the same currency is not
    returned rounded, the call raises InvalidOperation. *)
Lemma same_currency_raises_beyond_28_digits :
  (convert_amount offline fresh_rates (Dec 1 26) "USD" "USD").2 = Raise InvalidOperation /\
  (convert_amount offline fresh_rates (Dec 1 26) "USD" "USD").2
    <> Ok (round_half_up_2 (Dec 1 26)).
Proof. split; [vm_compute; reflexivity|vm_compute; discriminate]. Qed.

(** C8, amended. For every decimal [x] whose rounding to cents has at most
    28 digits and every code [C], [convert_amount x C C] is [x] rounded
    half-up to two places, and the state is untouched. *)
Theorem same_currency_rounds_half_up E st x C :
  Z.abs (cents_half_up x) < 10 ^ 28 ->
  convert_amount E st x C C = (st, Ok (round_half_up_2 x)).
Proof.
  intros Hfits. rewrite convert_same_currency, quantize_cents_spec.
  apply Z.ltb_lt in Hfits. by rewrite Hfits.
Qed.

(** 0.005 goes to 0.01, not to 0.00. *)
Lemma same_currency_rounds_half_up_witness :
  convert_amount offline fresh_rates (Dec 5 (-3)) "USD" "USD" = (fresh_rates, Ok (Dec 1 (-2))).
Proof.
  apply (same_currency_rounds_half_up offline fresh_rates (Dec 5 (-3)) "USD").
  vm_compute. reflexivity.
Defined.

(** [test_convert_same_currency_rounding]: 10.005 gives 10.01. *)
Example test_convert_same_currency_rounding :
  (convert_amount offline fresh_rates (Dec 10005 (-3)) "USD" "USD").2 = Ok (Dec 1001 (-2)).
Proof. vm_compute. reflexivity. Qed.

End ResolverFacts.

(** ** Amounts in cents *)

Section CentsFacts.
Import Dec.

Lemma ndigits_lt_pow n d : 0 <= n < 10 ^ d -> 0 < d -> ndigits n <= d.
Proof.
  intros [H0 Hn] Hd. destruct (Z.eq_dec n 0) as [->|].
  - change (ndigits 0) with 1. lia.
  - apply ndigits_le; lia.
Qed.

(** A coefficient of at most 28 digits at exponent -2 is its own [_fix]. *)
Lemma fix_cents m : Z.abs m < 10 ^ 28 -> fix_ prec_default (Dec m (-2)) = Ok (Dec m (-2)).
Proof.
  intros Hm. destruct (Z.eq_dec m 0) as [->|Hnz]; [reflexivity|].
  unfold prec_default. apply fix_fits; cbn [dmant dexp]; try done.
  apply ndigits_lt_pow; [lia|done].
Qed.

Lemma add_cents a b :
  Z.abs (a + b) < 10 ^ 28 -> add (Dec a (-2)) (Dec b (-2)) = Ok (Dec (a + b) (-2)).
Proof.
  intros H. unfold add, exact_add. cbn [dmant dexp].
  change (Z.min (-2) (-2)) with (-2). change (10 ^ (-2 - -2)) with 1.
  rewrite !Z.mul_1_r. by apply fix_cents.
Qed.

Lemma sub_cents a b :
  Z.abs (a - b) < 10 ^ 28 -> sub (Dec a (-2)) (Dec b (-2)) = Ok (Dec (a - b) (-2)).
Proof.
  intros H. unfold sub, neg. cbn [dmant dexp].
  rewrite add_cents; [done|]. by replace (a + - b) with (a - b) by lia.
Qed.

Lemma mul_minus_one a :
  Z.abs a < 10 ^ 28 -> mul (Dec a (-2)) (Dec (-1) 0) = Ok (Dec (- a) (-2)).
Proof.
  intros H. unfold mul. cbn [dmant dexp].
  replace (a * -1) with (- a) by lia. change (-2 + 0) with (-2).
  apply fix_cents. lia.
Qed.

(** Comparisons of two amounts in cents are those of their coefficients. *)
Lemma compare_cents a b : compare (Dec a (-2)) (Dec b (-2)) = (a ?= b).
Proof.
  unfold compare. cbn [dmant dexp]. change (Z.min (-2) (-2)) with (-2).
  change (10 ^ (-2 - -2)) with 1. by rewrite !Z.mul_1_r.
Qed.

Lemma ltb_cents a b : ltb (Dec a (-2)) (Dec b (-2)) = (a <? b).
Proof. unfold ltb. rewrite compare_cents. unfold Z.ltb. by destruct (a ?= b). Qed.

Lemma leb_cents a b : leb (Dec a (-2)) (Dec b (-2)) = (a <=? b).
Proof. unfold leb. rewrite compare_cents. unfold Z.leb. by destruct (a ?= b). Qed.

Lemma compare_zero_r a e : compare (Dec a e) zero = (a ?= 0).
Proof.
  unfold compare, zero. cbn [dmant dexp]. rewrite Z.mul_0_l.
  assert (0 < 10 ^ (e - Z.min e 0)) by (apply Z.pow_pos_nonneg; lia).
  destruct (Z.compare_spec a 0) as [->| |].
  - done.
  - apply Z.compare_lt_iff. nia.
  - apply Z.compare_gt_iff. nia.
Qed.

Lemma leb_zero a e : leb (Dec a e) zero = (a <=? 0).
Proof. unfold leb. rewrite compare_zero_r. unfold Z.leb. by destruct (a ?= 0). Qed.

Lemma compare_zero_l a e : compare zero (Dec a e) = (0 ?= a).
Proof.
  unfold compare, zero. cbn [dmant dexp]. rewrite Z.mul_0_l.
  assert (0 < 10 ^ (e - Z.min 0 e)) by (apply Z.pow_pos_nonneg; lia).
  destruct (Z.compare_spec 0 a) as [<-| |].
  - done.
  - apply Z.compare_lt_iff. nia.
  - apply Z.compare_gt_iff. nia.
Qed.

Lemma ltb_zero_l a e : ltb zero (Dec a e) = (0 <? a).
Proof. unfold ltb. rewrite compare_zero_l. unfold Z.ltb. by destruct (0 ?= a). Qed.

(** A column of [max_digits] digits, two of them decimals, keeps an amount
    in cents as it is when it has that many digits at most, and refuses it
    otherwise. *)
Lemma DecimalField_cents max_digits m :
  2 <= max_digits <= 28 ->
  Field.DecimalField max_digits 2 (Dec m (-2)) =
    if Z.abs m <? 10 ^ max_digits then Ok (Dec m (-2)) else Raise InvalidOperation.
Proof.
  intros Hmd. unfold Field.DecimalField, quantize.
  replace (negb ((Etiny max_digits <=? - (2)) && (- (2) <=? Emax))) with false.
  2:{ symmetry. apply negb_false_iff, andb_true_iff. unfold Etiny, Emin, Emax.
      split; apply Z.leb_le; lia. }
  cbn [dmant dexp].
  destruct (Z.eq_dec m 0) as [->|Hnz].
  { cbn [Z.eqb]. rewrite fix_zero by (unfold Etiny, Emin, Emax; lia).
    replace (Z.abs 0 <? 10 ^ max_digits) with true; [done|].
    symmetry. apply Z.ltb_lt. simpl. apply Z.pow_pos_nonneg; lia. }
  destruct (m =? 0) eqn:E0; [apply Z.eqb_eq in E0; done|].
  pose proof (ndigits_bounds (Z.abs m) ltac:(lia)) as [Hlo Hhi].
  pose proof (ndigits_ge_1 (Z.abs m)) as H1.
  unfold adjusted. cbn [dmant dexp].
  destruct (Z_lt_le_dec (Z.abs m) (10 ^ max_digits)) as [Hlt|Hge].
  - assert (Hnd : ndigits (Z.abs m) <= max_digits) by (apply ndigits_le; lia).
    apply Z.ltb_lt in Hlt as Hltb. rewrite Hltb.
    destruct (Emax <? _) eqn:Ha; [apply Z.ltb_lt in Ha; unfold Emax in Ha; lia|].
    destruct (max_digits <? _) eqn:Hb; [apply Z.ltb_lt in Hb; lia|].
    assert (Hres : rescale ROUND_HALF_EVEN (Dec m (-2)) (- (2)) = Dec m (-2)).
    { unfold rescale. cbn [dmant dexp]. rewrite E0.
      change (- (2) <=? -2) with true. cbn iota.
      change (10 ^ (-2 - - (2))) with 1. by rewrite Z.mul_1_r. }
    rewrite Hres. cbn [dmant dexp]. rewrite Ha.
    destruct (max_digits <? ndigits (Z.abs m)) eqn:Hc; [apply Z.ltb_lt in Hc; lia|].
    apply fix_fits; cbn [dmant dexp]; unfold Etiny, Etop, Emin, Emax; lia.
  - assert (Hnd : max_digits < ndigits (Z.abs m)).
    { destruct (Z_lt_le_dec max_digits (ndigits (Z.abs m))); [done|].
      assert (Z.abs m < 10 ^ max_digits); [|lia]. apply ndigits_le; lia. }
    assert (Hgeb : (Z.abs m <? 10 ^ max_digits) = false) by (apply Z.ltb_ge; lia).
    rewrite Hgeb.
    destruct (Emax <? _); [done|].
    destruct (max_digits <? _) eqn:Hb; [done|]. apply Z.ltb_ge in Hb. lia.
Qed.

End CentsFacts.

(** ** The wallet helpers of [UserProfile] *)

Section ModelsFacts.
Import Dec Spec Currency Models Samples.

(** The currency handling touches the resolver's state only. *)
Lemma in_preferred_currency_frame E w self amt currency w1 r :
  in_preferred_currency E w self amt currency = (w1, r) ->
  exists rs, w1 = set_rates w rs.
Proof.
  unfold in_preferred_currency, try_convert. case_decide.
  - intros [= <- <-]. exists (rates w). by destruct w.
  - destruct (convert_amount _ _ _ _ _) as [rs [v|e|]]; intros [= <- <-]; by exists rs.
Qed.

(** An amount the guard lets through, a balance that would go below zero:
    [deduct_balance] answers [False] before it writes anything. *)
Lemma deduct_insufficient E w self amt currency save w1 converted new_balance :
  leb amt zero = false ->
  in_preferred_currency E w self amt currency = (w1, Ok converted) ->
  sub (balance self) converted = Ok new_balance ->
  ltb new_balance (Dec 0 (-2)) = true ->
  deduct_balance E w self (Numeric amt) currency false save = (self, w1, Ok false).
Proof.
  intros Hpos Hconv Hsub Hneg. unfold deduct_balance.
  rewrite Hpos, Hconv. cbn [mbind outcome_bind]. rewrite Hsub. cbn [negb andb].
  by rewrite Hneg.
Qed.

(** C2. Insufficient funds block the mutation: for a positive amount, when
    [allow_negative] is false and the balance minus the converted amount is
    below zero, [deduct_balance] returns [False], the instance and the
    profile rows are as before and no WalletTransaction row is added (only
    the resolver's cache may have been filled by the conversion). *)
Theorem insufficient_funds_block_mutation E w self amt currency save w1 converted new_balance :
  leb amt zero = false ->
  in_preferred_currency E w self amt currency = (w1, Ok converted) ->
  sub (balance self) converted = Ok new_balance ->
  ltb new_balance (Dec 0 (-2)) = true ->
  deduct_balance E w self (Numeric amt) currency false save = (self, w1, Ok false) /\
  profiles w1 = profiles w /\
  wallet_transactions w1 = wallet_transactions w.
Proof.
  intros Hpos Hconv Hsub Hneg. split; [by eapply deduct_insufficient|].
  apply in_preferred_currency_frame in Hconv as [rs ->]. done.
Qed.

(** Balance 5.00, debit of 10.00 in the same currency: [False], and the
    balance stays 5.00. *)
Lemma insufficient_funds_block_mutation_witness :
  deduct_balance offline (world_of five_dollars ∅) five_dollars
                 (Numeric (Dec 1000 (-2))) None false true
    = (five_dollars, world_of five_dollars ∅, Ok false) /\
  profiles (world_of five_dollars ∅) = {[ 1%nat := five_dollars ]} /\
  wallet_transactions (world_of five_dollars ∅) = [].
Proof.
  apply (insufficient_funds_block_mutation offline (world_of five_dollars ∅) five_dollars
           (Dec 1000 (-2)) None true (world_of five_dollars ∅) (Dec 1000 (-2)) (Dec (-500) (-2)));
    reflexivity.
Defined.



(** C10 fails on the code for the amount NaN, which [Decimal(str(amount))]
    reads without complaint: the guard [amt <= 0], outside the [try],
    raises InvalidOperation, so [deduct_balance] does not return [False]
    and [add_balance] does not return [None]; instance, balance rows and
    ledger are untouched. *)
Theorem nan_amount_raises_in_both_helpers E w self currency allow_negative save :
  deduct_balance E w self NaN currency allow_negative save = (self, w, Raise InvalidOperation) /\
  add_balance E w self NaN currency save = (self, w, Raise InvalidOperation) /\
  (deduct_balance offline (world_of five_dollars ∅) five_dollars NaN None false true).2
    <> Ok false.
Proof. done. Qed.

End ModelsFacts.

(** ** What a conversion can return, what a column can hold *)

Section StoreFacts.
Import Dec Spec Currency Models.

Lemma quantize_cents_ok x v :
  quantize_cents x = Ok v -> exists V, v = Dec V (-2) /\ Z.abs V < 10 ^ 28.
Proof.
  rewrite quantize_cents_spec.
  destruct (_ <? _) eqn:H; [|done]. intros [= <-].
  apply Z.ltb_lt in H. by exists (cents_half_up x).
Qed.

(** Whatever [convert_amount] returns is an amount in cents. *)
Lemma convert_amount_cents E st a from_currency to_currency st' v :
  convert_amount E st a from_currency to_currency = (st', Ok v) ->
  exists V, v = Dec V (-2) /\ Z.abs V < 10 ^ 28.
Proof.
  unfold convert_amount. destruct (decide (from_currency = to_currency)) as [_|_].
  { intros [= _ H]. by apply quantize_cents_ok in H. }
  destruct (_fetch_rates E st from_currency) as [st1 [rates_from|e|]]; [|done..].
  destruct (rates_from !! to_currency) as [rate_to|].
  - intros [= _ H].
    destruct (Float.to_decimal rate_to) as [rate|e|]; [|done..]. cbn in H.
    destruct (mul a rate) as [converted|e|]; [|done..]. cbn in H.
    by apply quantize_cents_ok in H.
  - destruct (_fetch_rates E st1 "USD") as [st2 [usd_rates|e|]].
    + destruct (pivot a usd_rates from_currency to_currency) as [[q|]|e|] eqn:Hp.
      * intros [= _ <-]. unfold pivot in Hp.
        destruct (usd_rates !! from_currency) as [r_from|]; [|done].
        destruct (usd_rates !! to_currency) as [r_to|]; [|done].
        destruct (_ && _); [|done].
        destruct (Float.to_decimal r_from) as [d_from|?|]; [|done..]. cbn in Hp.
        destruct (div a d_from) as [in_usd|?|]; [|done..]. cbn in Hp.
        destruct (Float.to_decimal r_to) as [d_to|?|]; [|done..]. cbn in Hp.
        destruct (mul in_usd d_to) as [converted|?|]; [|done..]. cbn in Hp.
        destruct (quantize_cents converted) as [q'|?|] eqn:Hq; [|done..]. cbn in Hp.
        injection Hp as <-. by apply quantize_cents_ok in Hq.
      * intros [= _ H]. by apply quantize_cents_ok in H.
      * intros [= _ H]. by apply quantize_cents_ok in H.
      * done.
    + intros [= _ H]. by apply quantize_cents_ok in H.
    + done.
Qed.

(** No amount with a leading digit at 10^10 or above goes into a column of
    twelve digits. *)
Lemma DecimalField_refuses_large max_digits d :
  2 <= max_digits <= 28 -> dmant d <> 0 -> max_digits - 3 < adjusted d ->
  Field.DecimalField max_digits 2 d = Raise InvalidOperation.
Proof.
  intros Hmd Hm Hadj. unfold Field.DecimalField, quantize.
  replace (negb ((Etiny max_digits <=? - (2)) && (- (2) <=? Emax))) with false.
  2:{ symmetry. apply negb_false_iff, andb_true_iff. unfold Etiny, Emin, Emax.
      split; apply Z.leb_le; lia. }
  destruct (dmant d =? 0) eqn:E0; [apply Z.eqb_eq in E0; done|].
  destruct (Emax <? adjusted d); [done|].
  destruct (max_digits <? _) eqn:Hb; [done|]. apply Z.ltb_ge in Hb. lia.
Qed.

Lemma round_drop_lower r c k : 0 <= c -> 0 <= k -> c / 10 ^ k <= round_drop r c k.
Proof.
  intros Hc Hk. unfold round_drop. destruct r.
  - destruct (_ <=? _); lia.
  - destruct (_ || _); lia.
Qed.

(** A sum in cents that the context has to round is too long for the
    balance column. *)
Lemma fix_rounded_is_large S b :
  10 ^ 28 <= Z.abs S -> fix_ prec_default (Dec S (-2)) = Ok b ->
  dmant b <> 0 /\ 26 <= adjusted b.
Proof.
  intros HS. unfold fix_. cbn [dmant dexp].
  destruct (S =? 0) eqn:E0; [apply Z.eqb_eq in E0; subst; simpl in HS; lia|].
  apply Z.eqb_neq in E0.
  pose proof (ndigits_bounds (Z.abs S) ltac:(lia)) as [Hlo Hhi].
  set (len := ndigits (Z.abs S)) in *.
  assert (Hlen : 29 <= len).
  { destruct (Z_lt_le_dec len 29); [|done]. exfalso.
    assert (10 ^ len <= 10 ^ 28) by (apply Z.pow_le_mono_r; lia). lia. }
  unfold prec_default.
  destruct (Etop 28 <? len + -2 - 28); [done|].
  replace (Z.max (len + -2 - 28) (Etiny 28)) with (len - 30)
    by (unfold Etiny, Emin; lia).
  destruct (-2 <? len - 30) eqn:H2; [|apply Z.ltb_ge in H2; lia].
  replace (len - 30 - -2) with (len - 28) by lia.
  set (c := round_drop ROUND_HALF_EVEN (Z.abs S) (len - 28)).
  assert (Hc : 10 ^ 27 <= c).
  { etransitivity; [|apply round_drop_lower; lia].
    apply Z.div_le_lower_bound; [apply Z.pow_pos_nonneg; lia|].
    rewrite <- Z.pow_add_r by lia. by replace (len - 28 + 27) with (len - 1) by lia. }
  assert (Hres : forall c' e', 10 ^ 27 <= c' -> -1 <= e' ->
            dmant (Dec (Z.sgn S * c') e') <> 0 /\ 26 <= adjusted (Dec (Z.sgn S * c') e')).
  { intros c' e' Hc' He'. unfold adjusted. cbn [dmant dexp].
    assert (0 < 10 ^ 27) by (apply Z.pow_pos_nonneg; lia).
    split; [nia|].
    rewrite Z.abs_mul. replace (Z.abs (Z.sgn S)) with 1 by lia. rewrite Z.mul_1_l.
    rewrite (Z.abs_eq c') by lia.
    assert (28 <= ndigits c'); [|lia].
    destruct (Z_lt_le_dec (ndigits c') 28); [|done]. exfalso.
    pose proof (ndigits_bounds c' ltac:(lia)) as [_ Hh].
    assert (10 ^ ndigits c' <= 10 ^ 27); [|lia].
    apply Z.pow_le_mono_r; lia. }
  destruct (28 <? ndigits c) eqn:H3.
  - destruct (Etop 28 <? len - 30 + 1); [done|]. intros [= <-].
    apply Hres; [|lia].
    apply Z.ltb_lt in H3.
    assert (10 ^ 28 <= c).
    { destruct (Z_lt_le_dec c (10 ^ 28)); [|done]. exfalso.
      assert (0 < 10 ^ 27) by (apply Z.pow_pos_nonneg; lia).
      assert (ndigits c <= 28); [|lia]. apply ndigits_le; lia. }
    apply Z.div_le_lower_bound; [lia|]. change (10 ^ 28) with (10 * 10 ^ 27) in *. lia.
  - destruct (Etop 28 <? len - 30); [done|]. intros [= <-]. apply Hres; lia.
Qed.

(** A sum of two amounts that comes back from the context and then goes
    into the balance column is the exact sum, unchanged by either. *)
Lemma fix_then_store S b q :
  fix_ prec_default (Dec S (-2)) = Ok b ->
  Field.DecimalField 12 2 b = Ok q ->
  Z.abs S < 10 ^ 12 /\ b = Dec S (-2) /\ q = Dec S (-2).
Proof.
  intros Hfix Hstore.
  destruct (Z_lt_le_dec (Z.abs S) (10 ^ 28)) as [Hlt|Hge].
  - rewrite fix_cents in Hfix by done. injection Hfix as <-.
    rewrite DecimalField_cents in Hstore by lia.
    destruct (_ <? _) eqn:H12; [|done]. apply Z.ltb_lt in H12.
    by injection Hstore as <-.
  - apply fix_rounded_is_large in Hfix as [Hnz Hadj]; [|done].
    rewrite DecimalField_refuses_large in Hstore; [done|lia|done|lia].
Qed.

(** The sum of the balance and an amount of at most two decimals, before
    [_fix]. *)
Lemma add_cents_general B c e :
  -2 <= e -> add (Dec B (-2)) (Dec c e) = fix_ prec_default (Dec (B + c * 10 ^ (e + 2)) (-2)).
Proof.
  intros He. unfold add, exact_add. cbn [dmant dexp].
  rewrite Z.min_l by lia. change (10 ^ (-2 - -2)) with 1. rewrite Z.mul_1_r.
  by replace (e - -2) with (e + 2) by lia.
Qed.

End StoreFacts.

(** ** Changing the preferred currency *)

Section RedenominationFacts.
Import Dec Spec Currency Models Samples.





End RedenominationFacts.

(** ** When a conversion cannot raise *)

Section FailSoft.
Import Dec Spec Currency Samples.

Lemma cents_half_up_cents V : cents_half_up (Dec V (-2)) = V.
Proof.
  unfold cents_half_up. cbn [dmant dexp]. change (0 <=? -2 + 2) with true. cbn iota.
  change (10 ^ (-2 + 2)) with 1. rewrite Z.mul_1_r.
  replace ((2 * Z.abs V + 1) / (2 * 1)) with (Z.abs V).
  - rewrite Z.mul_comm. apply Z.abs_sgn.
  - apply Z.div_unique with (r := 1); lia.
Qed.

(** Below the cents, rounding to cents leaves at most a tenth of the
    coefficient, and one. *)
Lemma cents_half_up_small m e :
  e < -2 -> Z.abs (cents_half_up (Dec m e)) <= Z.abs m / 10 + 1.
Proof.
  intros He. unfold cents_half_up. cbn [dmant dexp].
  assert (H : (0 <=? e + 2) = false) by (apply Z.leb_gt; lia). rewrite H.
  set (k := - (e + 2)). assert (Hk : 1 <= k) by lia.
  assert (Hp : 10 <= 10 ^ k).
  { change 10 with (10 ^ 1) at 1. apply Z.pow_le_mono_r; lia. }
  set (n := Z.abs m). assert (Hn : 0 <= n) by (unfold n; lia).
  set (P := 10 ^ k) in *. clearbody P n.
  assert (Hq : 0 <= (2 * n + P) / (2 * P)) by (apply Z.div_pos; lia).
  rewrite Z.abs_mul, (Z.abs_eq _ Hq).
  assert (Hs : Z.abs (Z.sgn m) <= 1) by lia.
  assert (Hle : (2 * n + P) / (2 * P) <= n / 10 + 1).
  { assert ((2 * n + P) / (2 * P) < n / 10 + 1 + 1); [|lia].
    apply Z.div_lt_upper_bound; [lia|].
    pose proof (Z.div_mod n 10 ltac:(lia)). pose proof (Z.mod_pos_bound n 10 ltac:(lia)).
    nia. }
  nia.
Qed.

Lemma round_drop_upper r c k : 0 <= c -> 0 <= k -> round_drop r c k <= c / 10 ^ k + 1.
Proof.
  intros Hc Hk. unfold round_drop. destruct r.
  - destruct (_ <=? _); lia.
  - destruct (_ || _); lia.
Qed.

Lemma round_drop_even_le_up c k :
  round_drop ROUND_HALF_EVEN c k <= round_drop ROUND_HALF_UP c k.
Proof.
  unfold round_drop.
  destruct (10 ^ k <? 2 * (c mod 10 ^ k)) eqn:H1; cbn [orb].
  - apply Z.ltb_lt in H1.
    assert (H2 : (10 ^ k <=? 2 * (c mod 10 ^ k)) = true) by (apply Z.leb_le; lia).
    rewrite H2. lia.
  - destruct ((10 ^ k =? 2 * (c mod 10 ^ k)) && Z.odd (c / 10 ^ k)) eqn:H3.
    + apply andb_true_iff in H3 as [H3%Z.eqb_eq _].
      assert (H2 : (10 ^ k <=? 2 * (c mod 10 ^ k)) = true) by (apply Z.leb_le; lia).
      rewrite H2. lia.
    + destruct (_ <=? _); lia.
Qed.

(** Rounding to cents of a number written with more than two decimals is
    the half-up dropping of the digits behind the cents. *)
Lemma abs_cents_half_up_drop m e :
  e < -2 -> Z.abs (cents_half_up (Dec m e)) <= round_drop ROUND_HALF_UP (Z.abs m) (-2 - e) /\
  (m <> 0 -> Z.abs (cents_half_up (Dec m e)) = round_drop ROUND_HALF_UP (Z.abs m) (-2 - e)).
Proof.
  intros He. rewrite round_drop_half_up by lia.
  unfold cents_half_up. cbn [dmant dexp].
  assert (H : (0 <=? e + 2) = false) by (apply Z.leb_gt; lia). rewrite H.
  replace (- (e + 2)) with (-2 - e) by lia.
  assert (Hp : 0 < 10 ^ (-2 - e)) by (apply Z.pow_pos_nonneg; lia).
  assert (Hq : 0 <= (2 * Z.abs m + 10 ^ (-2 - e)) / (2 * 10 ^ (-2 - e)))
    by (apply Z.div_pos; lia).
  rewrite Z.abs_mul, (Z.abs_eq _ Hq). split.
  - assert (Hs : Z.abs (Z.sgn m) <= 1) by lia. nia.
  - intros Hm. replace (Z.abs (Z.sgn m)) with 1 by lia. lia.
Qed.

(** A number that rounds to at most 28 digits of cents passes the
    context, and what comes back still rounds to at most 28 digits. *)
Lemma fix_keeps_cents_short d :
  Z.abs (cents_half_up d) < 10 ^ 28 ->
  exists c, fix_ prec_default d = Ok c /\ Z.abs (cents_half_up c) < 10 ^ 28.
Proof.
  destruct d as [m e]. intros Hd. unfold fix_. cbn [dmant dexp].
  destruct (m =? 0) eqn:Hm0.
  { eexists. split; [done|]. unfold cents_half_up. cbn [dmant dexp].
    change (Z.sgn 0) with 0. rewrite Z.mul_0_l. done. }
  apply Z.eqb_neq in Hm0. set (len := ndigits (Z.abs m)).
  pose proof (ndigits_bounds (Z.abs m) ltac:(lia)) as [Hlo Hhi]. fold len in Hlo, Hhi.
  pose proof (ndigits_ge_1 (Z.abs m)) as Hlen1. fold len in Hlen1.
  assert (Hadj : e + len - 1 <= 25).
  { destruct (Z_lt_le_dec (e + len - 1 + 2) 0) as [?|Hge]; [lia|].
    pose proof (cents_half_up_bounds (Dec m e) Hm0) as Hb.
    unfold adjusted in Hb. cbn [dmant dexp] in Hb. fold len in Hb.
    destruct (Hb Hge) as [Hb1 _].
    assert (Hlt : 10 ^ (e + len - 1 + 2) < 10 ^ 28) by lia.
    apply pow10_lt_inv in Hlt; lia. }
  unfold prec_default, Etop, Etiny, Emax, Emin.
  assert (H1 : (999999 - 28 + 1 <? len + e - 28) = false) by (apply Z.ltb_ge; lia).
  rewrite H1.
  set (exp_min := Z.max (len + e - 28) (-999999 - 28 + 1)).
  assert (Hexp : exp_min <= -2) by (unfold exp_min; lia).
  assert (Hexp' : len + e - 28 <= exp_min) by (unfold exp_min; lia).
  clearbody exp_min.
  destruct (e <? exp_min) eqn:He; [|by exists (Dec m e)].
  apply Z.ltb_lt in He.
  set (k := exp_min - e). assert (Hk : 0 < k) by (unfold k; lia).
  set (cr := round_drop ROUND_HALF_EVEN (Z.abs m) k).
  assert (Hcr0 : 0 <= cr).
  { pose proof (round_drop_lower ROUND_HALF_EVEN (Z.abs m) k ltac:(lia) ltac:(lia)).
    assert (0 <= Z.abs m / 10 ^ k) by (apply Z.div_pos; [lia|apply Z.pow_pos_nonneg; lia]).
    unfold cr. lia. }
  assert (Hcr : cr <= 10 ^ 28).
  { pose proof (round_drop_upper ROUND_HALF_EVEN (Z.abs m) k ltac:(lia) ltac:(lia)).
    assert (Z.abs m / 10 ^ k < 10 ^ 28); [|unfold cr; lia].
    apply Z.div_lt_upper_bound; [apply Z.pow_pos_nonneg; lia|].
    rewrite <- Z.pow_add_r by lia.
    assert (10 ^ len <= 10 ^ (k + 28)) by (apply Z.pow_le_mono_r; unfold k; lia). lia. }
  assert (Hsgn : forall c, 0 <= c -> Z.abs (Z.sgn m * c) = c).
  { intros c Hc. rewrite Z.abs_mul, (Z.abs_eq c Hc). lia. }
  destruct (28 <? ndigits cr) eqn:Hcarry.
  - apply Z.ltb_lt in Hcarry.
    assert (Hbig : 10 ^ 28 <= cr).
    { destruct (Z_lt_le_dec cr (10 ^ 28)) as [Hlt|]; [|done].
      assert (cr <> 0) by (intros Hz; rewrite Hz in Hcarry; vm_compute in Hcarry; done).
      assert (ndigits cr <= 28) by (apply ndigits_le; lia). lia. }
    assert (Hcr' : cr / 10 = 10 ^ 27).
    { assert (cr = 10 ^ 28) as -> by lia. reflexivity. }
    assert (H2 : (999999 - 28 + 1 <? exp_min + 1) = false) by (apply Z.ltb_ge; lia).
    rewrite H2. eexists. split; [done|]. rewrite Hcr'.
    assert (H27 : 0 <= 10 ^ 27) by done.
    destruct (Z_lt_le_dec (exp_min + 1) (-2)) as [Hsm|Hge].
    + pose proof (cents_half_up_small (Z.sgn m * 10 ^ 27) (exp_min + 1) Hsm) as Hs.
      rewrite (Hsgn _ H27) in Hs.
      change (10 ^ 27 / 10 + 1) with (10 ^ 26 + 1) in Hs.
      assert (10 ^ 26 + 1 < 10 ^ 28) by reflexivity. lia.
    + destruct (Z.eq_dec (exp_min + 1) (-2)) as [Heq|Hne].
      * rewrite Heq, cents_half_up_cents, (Hsgn _ H27). reflexivity.
      * exfalso. assert (exp_min = -2) by lia. subst exp_min.
        pose proof (abs_cents_half_up_drop m e ltac:(lia)) as [_ Habs].
        rewrite (Habs Hm0) in Hd.
        pose proof (round_drop_even_le_up (Z.abs m) (-2 - e)) as Hle.
        unfold cr, k in Hbig. lia.
  - apply Z.ltb_ge in Hcarry.
    assert (Hsmall : cr < 10 ^ 28).
    { destruct (Z.eq_dec cr 0) as [->|Hnz]; [reflexivity|]. apply ndigits_le; lia. }
    assert (H2 : (999999 - 28 + 1 <? exp_min) = false) by (apply Z.ltb_ge; lia).
    rewrite H2. eexists. split; [done|].
    destruct (Z_lt_le_dec exp_min (-2)) as [Hsm|Hge].
    + pose proof (cents_half_up_small (Z.sgn m * cr) exp_min Hsm) as Hs.
      rewrite Hsgn in Hs by lia.
      assert (cr / 10 + 1 < 10 ^ 28); [|lia].
      assert (cr / 10 < 10 ^ 27); [|assert (10 ^ 27 + 1 < 10 ^ 28) by reflexivity; lia].
      apply Z.div_lt_upper_bound; [lia|]. change (10 * 10 ^ 27) with (10 ^ 28). lia.
    + assert (exp_min = -2) as -> by lia. rewrite cents_half_up_cents, Hsgn by lia. done.
Qed.

Lemma to_decimal_never_raises f x : Float.to_decimal f <> Raise x.
Proof.
  unfold Float.to_decimal. destruct f as [s|s| |s m e]; try done.
  destruct (Float.fraction m e) as [num den].
  destruct (Float.shortest _ _ _ _ _ _) as [c k].
  destruct (Float.strip _ _ _) as [c' k'].
  destruct (_ || _); [done|]. by destruct (0 <=? k').
Qed.

(** C7, amended. Fail-soft conversion: take any amount and any two
    codes, supported or not, such that the amount rounds to at most 28
    digits of cents and, where the resolver has a direct rate for the
    pair, so does the amount times that rate.  Then [convert_amount]
    raises nothing; and when no rate is usable (no direct rate, and the
    USD table lacks a non-zero rate for one of the codes) it returns the
    amount rounded half-up to two places. *)
Theorem convert_amount_fail_soft E st amount from_currency to_currency :
  Z.abs (cents_half_up amount) < 10 ^ 28 ->
  (forall st1 rates_from rate_to rate,
      from_currency <> to_currency ->
      _fetch_rates E st from_currency = (st1, Ok rates_from) ->
      rates_from !! to_currency = Some rate_to ->
      Float.to_decimal rate_to = Ok rate ->
      Z.abs (cents_half_up (Dec (dmant amount * dmant rate) (dexp amount + dexp rate)))
        < 10 ^ 28) ->
  (forall x, (convert_amount E st amount from_currency to_currency).2 <> Raise x) /\
  (forall st1 rates_from st2 usd_rates,
      _fetch_rates E st from_currency = (st1, Ok rates_from) ->
      rates_from !! to_currency = None ->
      _fetch_rates E st1 "USD" = (st2, Ok usd_rates) ->
      usable (usd_rates !! from_currency) && usable (usd_rates !! to_currency) = false ->
      (convert_amount E st amount from_currency to_currency).2 = Ok (round_half_up_2 amount)).
Proof.
  intros Hamt Hrate.
  assert (Hq : quantize_cents amount = Ok (round_half_up_2 amount)).
  { rewrite quantize_cents_spec. apply Z.ltb_lt in Hamt. by rewrite Hamt. }
  unfold convert_amount. destruct (decide (from_currency = to_currency)) as [Heq|Hne].
  { cbn [snd]. rewrite Hq. split; [done|]. by intros. }
  destruct (_fetch_rates E st from_currency) as [st1 [rates_from|x|]] eqn:Hfrom.
  - destruct (rates_from !! to_currency) as [rate_to|] eqn:Hto.
    + cbn [snd]. split; [|intros ? ? ? ? [= <- <-] Hn; congruence].
      intros x. destruct (Float.to_decimal rate_to) as [rate|y|] eqn:Hr;
        cbn [mbind outcome_bind]; [|by apply to_decimal_never_raises in Hr|done].
      specialize (Hrate st1 rates_from rate_to rate Hne eq_refl Hto Hr).
      apply fix_keeps_cents_short in Hrate as (c & Hc & Hcc).
      unfold mul. rewrite Hc. cbn [mbind outcome_bind].
      rewrite quantize_cents_spec. apply Z.ltb_lt in Hcc. by rewrite Hcc.
    + destruct (_fetch_rates E st1 "USD") as [st2 [usd_rates|x|]] eqn:Husd; cbn [snd].
      * split.
        -- intros x.
           destruct (pivot amount usd_rates from_currency to_currency) as [[v|]|y|];
             cbn [snd]; by rewrite ?Hq.
        -- intros ? ? ? ? [= <- <-] _ Hu2 Hu. rewrite Husd in Hu2.
           injection Hu2 as <- <-. by rewrite pivot_unusable.
      * by destruct (fetch_rates_never_raises E st1 "USD" x); rewrite Husd.
      * split; [done|]. intros ? ? ? ? [= <- <-] _ Hu2. by rewrite Husd in Hu2.
  - by destruct (fetch_rates_never_raises E st from_currency x); rewrite Hfrom.
  - cbn [snd]. split; [done|]. by intros ? ? ? ? [=].
Qed.

(** 10.00 USD to EUR, with the rate 0.92 of the static table: nothing is
    raised; 41.00 UAH to a code that no table knows stay 41.00. *)
Lemma convert_amount_fail_soft_witness :
  (convert_amount offline fresh_rates (Dec 1000 (-2)) "USD" "EUR").2 <> Raise InvalidOperation /\
  (convert_amount offline fresh_rates (Dec 4100 (-2)) "UAH" "XXX").2 = Ok (Dec 4100 (-2)).
Proof.
  split.
  - refine (proj1 (convert_amount_fail_soft offline fresh_rates (Dec 1000 (-2)) "USD" "EUR" _ _)
                  InvalidOperation).
    + vm_compute. reflexivity.
    + intros st1 rates_from rate_to rate _ Hf Ht Hr.
      vm_compute in Hf. injection Hf as <- <-.
      vm_compute in Ht. injection Ht as <-.
      vm_compute in Hr. injection Hr as <-.
      vm_compute. reflexivity.
  - refine (proj2 (convert_amount_fail_soft offline fresh_rates (Dec 4100 (-2)) "UAH" "XXX" _ _)
                  fresh_rates (static_rates "UAH") fresh_rates (static_rates "USD") _ _ _ _).
    + vm_compute. reflexivity.
    + intros st1 rates_from rate_to rate _ Hf Ht Hr.
      vm_compute in Hf. injection Hf as <- <-.
      vm_compute in Ht. discriminate Ht.
    + reflexivity.
    + vm_compute. reflexivity.
    + reflexivity.
    + vm_compute. reflexivity.
Defined.

End FailSoft.

(** ** The world under the views *)

Section WorldFacts.
Import Dec Spec Currency Models Views Ledger.

Lemma mark_idle w : in_atomic_block w = false -> mark_for_rollback_on_error w = w.
Proof.
  destruct w. unfold mark_for_rollback_on_error. wsimpl. intros ->.
  by rewrite orb_false_r.
Qed.

Lemma set_rates_id w : set_rates w (rates w) = w.
Proof. by destruct w. Qed.

Lemma well_formed_set_rates w rs : well_formed w -> well_formed (set_rates w rs).
Proof. by intros (? & ? & ? & ?). Qed.

Lemma try_convert_spec E w amt cur preferred w1 r :
  try_convert E w amt cur preferred = (w1, r) ->
  exists rs, w1 = set_rates w rs /\
    (r = Beyond \/ r = Ok amt \/ exists V, r = Ok (Dec V (-2)) /\ Z.abs V < 10 ^ 28).
Proof.
  unfold try_convert.
  destruct (convert_amount _ _ _ _ _) as [rs [v|e|]] eqn:Hc; intros [= <- <-]; exists rs.
  - split; [done|]. right. right. apply convert_amount_cents in Hc as (V & -> & HV). by exists V.
  - split; [done|]. right. by left.
  - split; [done|]. by left.
Qed.

Lemma min_amount_spec E w chosen w1 r :
  min_amount E w chosen = (w1, r) ->
  exists rs, w1 = set_rates w rs /\ (r = Beyond \/ exists m, r = Ok m).
Proof.
  unfold min_amount.
  destruct (convert_amount _ _ _ _ _) as [rs [v|e|]]; intros [= <- <-]; exists rs;
    (split; [done|]); eauto.
Qed.

(** What [create] does on a connection that is not marked. *)
Lemma create_spec wallet_write w t w' r :
  needs_rollback w = false ->
  create wallet_write w t = (w', r) ->
  (exists row, prepare_row t = Ok row /\ wallet_write = true /\ r = Ok tt /\
               w' = set_wallet_transactions w (wallet_transactions w ++ [row])) \/
  (w' = mark_for_rollback_on_error w /\ (exists e, r = Raise e) /\
   (wallet_write = false \/ exists e, prepare_row t = Raise e)) \/
  (prepare_row t = Beyond).
Proof.
  intros Hnr. unfold create. rewrite Hnr.
  destruct (prepare_row t) as [row|e|] eqn:Hp.
  - destruct wallet_write; intros [= <- <-].
    + left. by exists row.
    + right. left. split; [done|]. split; [by eexists|by left].
  - intros [= <- <-]. right. left. split; [done|]. split; [by eexists|right; by eexists].
  - intros _. by right; right.
Qed.

(** A row whose three amounts are cents of at most twelve digits is kept
    as it is. *)
Lemma prepare_row_cents u a c s sc k b :
  Z.abs a < 10 ^ 12 -> Z.abs b < 10 ^ 12 ->
  (forall v, s = Some v -> Field.DecimalField 12 2 v = Ok v) ->
  let t := {| wt_user := u; amount := Dec a (-2); currency := c; source_amount := s;
              source_currency := sc; wt_kind := k; balance_after := Dec b (-2) |} in
  prepare_row t = Ok t.
Proof.
  intros Ha Hb Hs t. unfold prepare_row. cbn [amount source_amount balance_after t].
  rewrite !DecimalField_cents by lia.
  apply Z.ltb_lt in Ha, Hb. rewrite Ha, Hb. cbn.
  destruct s as [v|]; [|done]. rewrite (Hs v eq_refl). done.
Qed.

Lemma balances_insert_same_balance w k row row' :
  profiles w !! k = Some row -> balance row' = balance row ->
  balance <$> <[k := row']> (profiles w) = balances w.
Proof.
  intros Hrow Hb. unfold balances. rewrite fmap_insert, Hb.
  apply insert_id. by rewrite lookup_fmap, Hrow.
Qed.

Lemma balances_lookup w k p : profiles w !! k = Some p -> balances w !! k = Some (balance p).
Proof. intros H. unfold balances. by rewrite lookup_fmap, H. Qed.

End WorldFacts.

(** ** [PaymentView.post], step by step *)

Section PaymentFacts.
Import Dec Spec Currency Models Views Ledger.

(** [add_spending] inside an open transaction: the transaction ends up
    marked, or nothing is written, or [total_spent] alone is. *)
Lemma add_spending_spec w p amt p' w' r :
  in_atomic_block w = true ->
  add_spending w p amt = (p', w', r) ->
  r <> Beyond /\
  wallet_transactions w' = wallet_transactions w /\ orders w' = orders w /\
  (needs_rollback w = true -> needs_rollback w' = true) /\
  (needs_rollback w' = true \/
   (needs_rollback w' = false /\ profiles w' = profiles w) \/
   (needs_rollback w' = false /\
    exists row t, profiles w !! user p = Some row /\
      profiles w' = <[user p := with_total_spent row t]> (profiles w))).
Proof.
  intros Hat. unfold add_spending.
  assert (Hmark : needs_rollback (mark_for_rollback_on_error w) = true).
  { unfold mark_for_rollback_on_error. wsimpl. rewrite Hat. apply orb_true_r. }
  destruct (add (total_spent p) amt) as [t|e|] eqn:Ha.
  - unfold save_total_spent, save. cbn [total_spent with_total_spent user].
    destruct (Field.DecimalField 10 2 t) as [q|e|] eqn:Hq; cbn.
    + destruct (needs_rollback w) eqn:Hnr.
      * intros [= <- <- <-]. repeat split; try done. by left.
      * destruct (profiles w !! user p) as [row|] eqn:Hrow.
        -- intros [= <- <- <-]. repeat split; try done. right. right.
           split; [done|]. by exists row, q.
        -- intros [= <- <- <-]. repeat split; try done. by left.
    + intros [= <- <- <-]. repeat split; try done. by left.
    + exfalso. unfold Field.DecimalField, quantize in Hq.
      repeat (destruct (_ : bool) in Hq; try done);
        unfold fix_ in Hq; repeat (destruct (_ : bool) in Hq; try done).
  - intros [= <- <- <-]. repeat split; try done.
    destruct (needs_rollback w); [by left|right; by left].
  - exfalso. unfold add, fix_ in Ha. repeat (destruct (_ : bool) in Ha; try done).
Qed.

(** No finite computation ends [Beyond]. *)
Lemma prepare_row_not_beyond t : prepare_row t <> Beyond.
Proof.
  unfold prepare_row, Field.DecimalField, quantize, fix_.
  destruct (source_amount t);
    repeat (match goal with
            | |- context [if ?b then _ else _] => destruct b
            | |- context [let '(_, _) := ?x in _] => destruct x
            end; cbn; try done).
Qed.

(** The wallet part of the payment, inside the open transaction: nothing
    is charged; or the balance is lowered by the price and the row is
    written; or the row is refused and the transaction is marked. *)
Lemma charge_wallet_spec E ww w f order p B P p' w' msgs :
  needs_rollback w = false -> in_atomic_block w = true ->
  profiles w !! pf_user f = Some p -> user p = pf_user f ->
  balance p = Dec B (-2) -> 0 <= B < 10 ^ 12 ->
  total_price order = Dec P (-2) -> Z.abs P < 10 ^ 10 ->
  charge_wallet E ww w f order p = (p', w', msgs) ->
  msgs = Beyond \/
  ((exists m, msgs = Ok m) /\ user p' = pf_user f /\
   orders w' = orders w /\ in_atomic_block w' = true /\
   ((p' = p /\ profiles w' = profiles w /\
     wallet_transactions w' = wallet_transactions w /\ needs_rollback w' = false) \/
    (exists T row,
        0 < T <= B /\ ww = true /\ p' = with_balance p (Dec (B - T) (-2)) /\
        wt_user row = pf_user f /\ amount row = Dec (- T) (-2) /\
        balance_after row = Dec (B - T) (-2) /\
        profiles w' = <[pf_user f := p']> (profiles w) /\
        wallet_transactions w' = wallet_transactions w ++ [row] /\
        needs_rollback w' = false) \/
    needs_rollback w' = true)).
Proof.
  intros Hnr Hat Hrow Hu Hbal HB Hprice HP. unfold charge_wallet.
  destruct (pf_use_wallet f && ltb zero (balance p)).
  2:{ intros [= <- <- <-]. right. split; [by eexists|]. repeat split; try done. by left. }
  destruct (if decide (o_currency order = preferred_currency p)
            then (w, Ok (total_price order))
            else try_convert E w (total_price order) (o_currency order) (preferred_currency p))
    as [w1 tc] eqn:Htc.
  assert (Hw1 : exists rs, w1 = set_rates w rs /\
            (tc = Beyond \/ exists T, tc = Ok (Dec T (-2)) /\ Z.abs T < 10 ^ 28)).
  { destruct (decide _).
    - injection Htc as <- <-. exists (rates w). split; [by rewrite set_rates_id|].
      right. exists P. split; [by rewrite Hprice|lia].
    - apply try_convert_spec in Htc as (rs & -> & [->|[->|(V & -> & HV)]]); exists rs;
        (split; [done|]); [by left|right..].
      + exists P. split; [by rewrite Hprice|lia].
      + by exists V. }
  destruct Hw1 as (rs & -> & [->|(T & -> & HT)]); [intros [= <- <- <-]; by left|].
  rewrite Hbal, leb_cents.
  destruct (T <=? B) eqn:HTB.
  2:{ intros [= <- <- <-]. right. split; [by eexists|]. repeat split; try done. by left. }
  apply Z.leb_le in HTB.
  unfold deduct_balance. rewrite leb_zero.
  destruct (T <=? 0) eqn:HT0.
  { intros [= <- <- <-]. right. split; [by eexists|]. repeat split; try done. by left. }
  apply Z.leb_gt in HT0.
  assert (Hcur : in_preferred_currency E (set_rates w rs) p (Dec T (-2)) (Some (preferred_currency p))
                 = (set_rates w rs, Ok (Dec T (-2)))).
  { unfold in_preferred_currency, currency_or.
    destruct (decide (preferred_currency p = EmptyString)); by rewrite decide_True. }
  rewrite Hcur. cbn [mbind outcome_bind]. rewrite Hbal.
  rewrite sub_cents by lia. cbn [negb andb]. rewrite ltb_cents.
  destruct (B - T <? 0) eqn:Hneg; [apply Z.ltb_lt in Hneg; lia|].
  unfold save_balance, save. cbn [balance with_balance user].
  rewrite DecimalField_cents by lia.
  destruct (Z.abs (B - T) <? 10 ^ 12) eqn:Hfit; [|apply Z.ltb_ge in Hfit; lia].
  cbn [mbind outcome_bind]. wsimpl. rewrite Hnr, Hu, Hrow.
  cbn [mbind outcome_bind].
  wsimpl. rewrite sub_cents by lia. cbn [mbind outcome_bind].
  replace (B - (B - T)) with T by lia. rewrite mul_minus_one by lia.
  match goal with |- context [create ww ?w2 ?t] =>
    destruct (create ww w2 t) as [w3 r3] eqn:Hcreate; set (row := t) in * end.
  intros [= <- <- <-]. right. split; [by eexists|].
  assert (Hprep : prepare_row row = Ok row).
  { apply prepare_row_cents; [lia|lia|].
    intros v [= <-]. rewrite Hprice, DecimalField_cents by lia.
    destruct (Z.abs P <? 10 ^ 12) eqn:H12; [done|]. apply Z.ltb_ge in H12.
    assert (10 ^ 10 < 10 ^ 12) by reflexivity. lia. }
  apply create_spec in Hcreate as [(row' & Hrow' & -> & _ & ->)|[(-> & _ & _)|Hb]]; [| | |done].
  - rewrite Hprep in Hrow'. injection Hrow' as <-. wsimpl.
    repeat split; try done. right. left. exists T, row.
    repeat split; try done; lia.
  - unfold mark_for_rollback_on_error. wsimpl. repeat split; try done.
    right. right. rewrite Hat. apply orb_true_r.
  - by apply prepare_row_not_beyond in Hb.
Qed.

Lemma atomic_exit_rollback before w :
  needs_rollback w = true ->
  profiles (atomic_exit before w) = profiles before /\
  wallet_transactions (atomic_exit before w) = wallet_transactions before /\
  orders (atomic_exit before w) = orders before /\
  in_atomic_block (atomic_exit before w) = false /\
  needs_rollback (atomic_exit before w) = false.
Proof. intros H. unfold atomic_exit. by rewrite H. Qed.

Lemma atomic_exit_commit before w :
  needs_rollback w = false ->
  profiles (atomic_exit before w) = profiles w /\
  wallet_transactions (atomic_exit before w) = wallet_transactions w /\
  orders (atomic_exit before w) = orders w /\
  in_atomic_block (atomic_exit before w) = false /\
  needs_rollback (atomic_exit before w) = false.
Proof. intros H. unfold atomic_exit. by rewrite H. Qed.

(** Well-formedness looks at the tables and the flags only. *)
Lemma well_formed_same_tables w w' :
  well_formed w ->
  profiles w' = profiles w -> orders w' = orders w ->
  in_atomic_block w' = false -> needs_rollback w' = false ->
  well_formed w'.
Proof. intros (H1 & H2 & _ & _) Hp Ho Ha Hn. unfold well_formed. by rewrite Hp, Ho. Qed.

Lemma nothing_same_tables w w' :
  profiles w' = profiles w -> wallet_transactions w' = wallet_transactions w -> nothing w w'.
Proof. intros Hp Hw. unfold nothing, balances. by rewrite Hp, Hw. Qed.

(** Saving the order as paid keeps the order table well-formed. *)
Lemma orders_paid_well_formed (o : gmap nat Order) k order :
  (forall k o', o !! k = Some o' -> exists T, total_price o' = Dec T (-2) /\ Z.abs T < 10 ^ 10) ->
  o !! k = Some order ->
  forall k' o', <[k := {| o_user := o_user order; total_price := total_price order;
                           o_currency := o_currency order; o_status := paid |}]> o !! k' = Some o' ->
    exists T, total_price o' = Dec T (-2) /\ Z.abs T < 10 ^ 10.
Proof.
  intros Hwf Hk k' o'. destruct (decide (k = k')) as [<-|Hne].
  - rewrite lookup_insert_eq. intros [= <-]. cbn. by apply (Hwf k).
  - rewrite lookup_insert_ne by done. apply Hwf.
Qed.

(** Replacing the row of [k] by one of the same user with a balance in
    range keeps the profile table well-formed. *)
Lemma profiles_insert_well_formed (m : gmap nat UserProfile) k p' B' :
  (forall k p, m !! k = Some p ->
     user p = k /\ exists B, balance p = Dec B (-2) /\ 0 <= B < 10 ^ 12) ->
  user p' = k -> balance p' = Dec B' (-2) -> 0 <= B' < 10 ^ 12 ->
  forall k0 p, <[k := p']> m !! k0 = Some p ->
     user p = k0 /\ exists B, balance p = Dec B (-2) /\ 0 <= B < 10 ^ 12.
Proof.
  intros Hwf Hu Hb HB k0 p. destruct (decide (k = k0)) as [<-|Hne].
  - rewrite lookup_insert_eq. intros [= <-]. split; [done|]. by exists B'.
  - rewrite lookup_insert_ne by done. apply Hwf.
Qed.

(** The body of [PaymentView.post] for an order not yet paid. *)
Lemma payment_body_effect E ww w f order prof w' r :
  well_formed w ->
  orders w !! pf_pk f = Some order -> prof = profiles w !! pf_user f ->
  (let before := w in
   let w := atomic_enter w in
   let w := set_orders w
              (<[pf_pk f := {| o_user := o_user order; total_price := total_price order;
                               o_currency := o_currency order; o_status := paid |}]> (orders w)) in
   match prof with
   | Some prof =>
       let '(prof, w, msgs) := charge_wallet E ww w f order prof in
       match msgs with
       | Ok msgs =>
           let '(_, w, spent) := add_spending w prof (total_price order) in
           match spent with
           | Beyond => (w, Beyond)
           | _ => (atomic_exit before w, Ok (HttpResponseRedirect (msgs ++ [payment_succeeded])))
           end
       | Raise _ => (atomic_exit before w, Ok (HttpResponseRedirect [payment_succeeded]))
       | Beyond => (w, Beyond)
       end
   | None => (atomic_exit before w, Ok (HttpResponseRedirect [payment_succeeded]))
   end) = (w', r) ->
  r <> Beyond ->
  well_formed w' /\ (nothing w w' \/ (ww = true /\ posted (pf_user f) w w')).
Proof.
  intros Hwf Hord -> Hrun Hr. cbn zeta in Hrun.
  pose proof Hwf as (Hprof & Hords & Hat & Hnr).
  set (wb := set_orders (atomic_enter w) _) in Hrun.
  assert (Hwb : profiles wb = profiles w /\ wallet_transactions wb = wallet_transactions w /\
                in_atomic_block wb = true /\ needs_rollback wb = false) by done.
  destruct Hwb as (Hwb1 & Hwb2 & Hwb3 & Hwb4).
  assert (Hwbo : forall k' o', orders wb !! k' = Some o' ->
                   exists T, total_price o' = Dec T (-2) /\ Z.abs T < 10 ^ 10)
    by (apply orders_paid_well_formed; done).
  assert (Hfin : forall wd,
            (forall k p, profiles wd !! k = Some p ->
               user p = k /\ exists B, balance p = Dec B (-2) /\ 0 <= B < 10 ^ 12) ->
            orders wd = orders wb ->
            well_formed (atomic_exit w wd)).
  { intros wd Hp Ho. destruct (needs_rollback wd) eqn:Hn.
    - destruct (atomic_exit_rollback w wd Hn) as (E1 & E2 & E3 & E4 & E5).
      by apply (well_formed_same_tables w).
    - destruct (atomic_exit_commit w wd Hn) as (E1 & E2 & E3 & E4 & E5).
      unfold well_formed. rewrite E1, E3, Ho. done. }
  destruct (profiles w !! pf_user f) as [p|] eqn:Hp.
  2:{ injection Hrun as <- <-.
      destruct (atomic_exit_commit w wb Hwb4) as (E1 & E2 & E3 & E4 & E5).
      split.
      - apply Hfin; [by rewrite Hwb1|done].
      - left. apply nothing_same_tables; congruence. }
  destruct (Hprof _ _ Hp) as (Hu & B & Hbal & HB).
  destruct (Hords _ _ Hord) as (P & Hprice & HP).
  destruct (charge_wallet E ww wb f order p) as [[p1 wc] msgs] eqn:Hcharge.
  eapply charge_wallet_spec in Hcharge; [|done|done|by rewrite Hwb1|done|done|done|done|done].
  destruct Hcharge as [->|((m & ->) & Hu1 & Hco & Hca & Hcases)]; [by injection Hrun as <- <-|].
  destruct (add_spending wc p1 (total_price order)) as [[p2 wd] spent] eqn:Hspend.
  apply add_spending_spec in Hspend as (Hsb & Hdw & Hdo & Hkeep & Hspend); [|done].
  assert (Hrun' : (atomic_exit w wd, Ok (HttpResponseRedirect (m ++ [payment_succeeded]))) = (w', r))
    by (by destruct spent).
  clear Hrun. injection Hrun' as <- <-. clear Hr.
  rewrite Hwb1, ?Hwb2 in Hcases.
  (* the transaction was marked: everything is rolled back *)
  assert (Hrolled : needs_rollback wd = true ->
            well_formed (atomic_exit w wd) /\
            (nothing w (atomic_exit w wd) \/ ww = true /\ posted (pf_user f) w (atomic_exit w wd))).
  { intros Hn. destruct (atomic_exit_rollback w wd Hn) as (E1 & E2 & E3 & E4 & E5).
    split; [by apply (well_formed_same_tables w)|]. left. by apply nothing_same_tables. }
  destruct Hspend as [Hn|Hspend]; [by apply Hrolled|].
  assert (Hn : needs_rollback wd = false) by (by destruct Hspend as [[? _]|[? _]]).
  destruct (atomic_exit_commit w wd Hn) as (E1 & E2 & E3 & E4 & E5).
  destruct Hcases as [(-> & Hc1 & Hc2 & Hc3)|[(T & row & HT & -> & -> & Hr1 & Hr2 & Hr3 & Hc1 & Hc2 & Hc3)|Hbroken]].
  - (* nothing was charged *)
    destruct Hspend as [(_ & Hpd)|(_ & row & t & Hrow & Hpd)].
    + split.
      * apply Hfin; [by rewrite Hpd, Hc1|congruence].
      * left. apply nothing_same_tables; congruence.
    + rewrite Hc1, Hu in Hrow, Hpd. rewrite Hp in Hrow. injection Hrow as <-.
      split.
      * apply Hfin; [|congruence]. rewrite Hpd.
        apply (profiles_insert_well_formed _ _ _ B); done.
      * left. split; [|congruence]. unfold balances at 1. rewrite E1, Hpd.
        by apply (balances_insert_same_balance w _ p).
  - (* the price was charged and its row written *)
    assert (Hposted :
              profiles wd = <[pf_user f := with_balance p (Dec (B - T) (-2))]> (profiles w) \/
              (exists t, profiles wd = <[pf_user f := with_total_spent (with_balance p (Dec (B - T) (-2))) t]> (profiles w)) ->
              posted (pf_user f) w (atomic_exit w wd)).
    { intros Hpx. exists B, (- T), row.
      split; [by rewrite (balances_lookup _ _ _ Hp), Hbal|].
      split; [|split; [congruence|by replace (B + - T) with (B - T) by lia]].
      unfold balances. replace (B + - T) with (B - T) by lia. rewrite E1.
      destruct Hpx as [->|(t & ->)]; by rewrite fmap_insert. }
    destruct Hspend as [(_ & Hpd)|(_ & row' & t & Hrow & Hpd)].
    + split.
      * apply Hfin; [|congruence]. rewrite Hpd, Hc1.
        apply (profiles_insert_well_formed _ _ _ (B - T)); [done|done|done|lia].
      * right. split; [done|]. apply Hposted. left. congruence.
    + cbn [user with_balance] in Hrow, Hpd. rewrite Hu in Hrow, Hpd.
      rewrite Hc1, lookup_insert_eq in Hrow. injection Hrow as <-.
      rewrite Hc1, insert_insert_eq in Hpd.
      split.
      * apply Hfin; [|congruence]. rewrite Hpd.
        apply (profiles_insert_well_formed _ _ _ (B - T)); [done|done|done|lia].
      * right. split; [done|]. apply Hposted. right. by exists t.
  - (* the row was refused: the transaction was marked before *)
    rewrite (Hkeep Hbroken) in Hn. done.
Qed.

End PaymentFacts.

Section PaymentEffect.
Import Dec Spec Currency Models Views Ledger.

(** A payment leaves a well-formed database well-formed, and either does
    nothing to balances and ledger or lowers the payer's balance together
    with the row that says so. *)
Lemma payment_effect E ww w f w' r :
  well_formed w ->
  PaymentView_post E ww w f = (w', r) -> r <> Beyond ->
  well_formed w' /\ (nothing w w' \/ (ww = true /\ posted (pf_user f) w w')).
Proof.
  intros Hwf. unfold PaymentView_post, payment_load.
  destruct (orders w !! pf_pk f) as [order|] eqn:Hord.
  2:{ intros [= <- <-] _. split; [done|]. by left. }
  destruct (decide (o_user order = pf_user f)).
  2:{ intros [= <- <-] _. split; [done|]. by left. }
  unfold payment_run.
  destruct (o_status order).
  2:{ intros [= <- <-] _. split; [done|]. by left. }
  all: by apply payment_body_effect.
Qed.

End PaymentEffect.

(** ** [WalletTopupView.post], step by step *)

Section TopupFacts.
Import Dec Spec Currency Models Views Ledger.

Lemma prepare_row_ok u a c s sc k b :
  Z.abs a < 10 ^ 12 -> Z.abs b < 10 ^ 12 ->
  (forall v, s = Some v -> exists q, Field.DecimalField 12 2 v = Ok q) ->
  exists row,
    prepare_row {| wt_user := u; amount := Dec a (-2); currency := c; source_amount := s;
                   source_currency := sc; wt_kind := k; balance_after := Dec b (-2) |} = Ok row /\
    wt_user row = u /\ amount row = Dec a (-2) /\ balance_after row = Dec b (-2).
Proof.
  intros Ha Hb Hs. unfold prepare_row. cbn [amount source_amount balance_after].
  rewrite !DecimalField_cents by lia.
  apply Z.ltb_lt in Ha, Hb. rewrite Ha, Hb. cbn.
  destruct s as [v|]; [|by eexists].
  destruct (Hs v eq_refl) as [q ->]. cbn. by eexists.
Qed.

(** [add_balance] as the top-up view calls it: on the stored profile, in
    the profile's own currency, with an amount of at most two decimals. *)
Lemma add_balance_spec E w p B c e p' w' r :
  in_atomic_block w = false -> needs_rollback w = false ->
  profiles w !! user p = Some p ->
  balance p = Dec B (-2) -> 0 <= B < 10 ^ 12 -> -2 <= e ->
  add_balance E w p (Numeric (Dec c e)) (Some (preferred_currency p)) true = (p', w', r) ->
  r = Beyond \/
  (c <= 0 /\ p' = p /\ w' = w /\ r = Ok tt) \/
  (0 < c /\ w' = w /\ exists e', r = Raise e') \/
  (0 < c /\ r = Ok tt /\ B + c * 10 ^ (e + 2) < 10 ^ 12 /\
   p' = with_balance p (Dec (B + c * 10 ^ (e + 2)) (-2)) /\
   w' = set_profiles w (<[user p := p']> (profiles w))).
Proof.
  intros Hat Hnr Hrow Hbal HB He. unfold add_balance. rewrite leb_zero.
  destruct (c <=? 0) eqn:Hc.
  { apply Z.leb_le in Hc. intros [= <- <- <-]. right. by left. }
  apply Z.leb_gt in Hc.
  assert (Hcur : in_preferred_currency E w p (Dec c e) (Some (preferred_currency p))
                 = (w, Ok (Dec c e))).
  { unfold in_preferred_currency, currency_or.
    destruct (decide (preferred_currency p = EmptyString)); by rewrite decide_True. }
  rewrite Hcur. cbn [mbind outcome_bind]. rewrite Hbal, add_cents_general by done.
  set (S := B + c * 10 ^ (e + 2)).
  assert (HS : B < S).
  { assert (0 < 10 ^ (e + 2)) by (apply Z.pow_pos_nonneg; lia). unfold S. nia. }
  destruct (fix_ prec_default (Dec S (-2))) as [b|e'|] eqn:Hfix.
  - unfold save_balance, save. cbn [balance with_balance user].
    destruct (Field.DecimalField 12 2 b) as [q|e'|] eqn:Hq; cbn [mbind outcome_bind].
    + destruct (fix_then_store _ _ _ Hfix Hq) as (HS12 & -> & ->).
      cbn. rewrite Hnr, Hrow. intros [= <- <- <-].
      right. right. right. repeat split; try done. lia.
    + cbn. rewrite mark_idle by done. intros [= <- <- <-]. right. right. left.
      repeat split; try done. by eexists.
    + cbn. intros [= <- <- <-]. by left.
  - intros [= <- <- <-]. right. right. left. repeat split; try done. by eexists.
  - intros [= <- <- <-]. by left.
Qed.

(** A top-up of an amount written with at most two decimals that fits the
    ledger's column: nothing happens to balances and ledger; or the balance
    rises together with its row; or, if the INSERT fails, the balance rises
    and no row says so. *)
Lemma topup_effect E ww w f w' r :
  well_formed w ->
  match tf_amount f with
  | Numeric a => -2 <= dexp a /\ exists q, Field.DecimalField 12 2 a = Ok q
  | _ => True
  end ->
  WalletTopupView_post E ww w f = (w', r) -> r <> Beyond ->
  well_formed w' /\
  (nothing w w' \/ (ww = true /\ posted (tf_user f) w w') \/
   (ww = false /\ unposted (tf_user f) w w')).
Proof.
  intros Hwf Hamt. pose proof Hwf as (Hprof & Hords & Hat & Hnr).
  unfold WalletTopupView_post.
  destruct (profiles w !! tf_user f) as [p|] eqn:Hp.
  2:{ intros [= <- <-] _. split; [done|]. by left. }
  destruct (Hprof _ _ Hp) as (Hu & B & Hbal & HB).
  set (chosen := if decide (tf_currency f = EmptyString) then preferred_currency p else tf_currency f).
  clearbody chosen.
  destruct (tf_amount f) as [[a e]| |[|]|].
  2,3,5:(intros [= <- <-] _; split; [done|]; by left).
  2:{ by intros [= <- <-] []. }
  cbn [dexp] in Hamt. destruct Hamt as [He Hfits].
  destruct (leb (Dec a e) zero).
  { intros [= <- <-] _. split; [done|]. by left. }
  destruct (min_amount E w chosen) as [w1 min_amt] eqn:Hmin.
  apply min_amount_spec in Hmin as (rs1 & -> & [->|[m ->]]); [by intros [= <- <-]|].
  destruct (ltb (Dec a e) m).
  { intros [= <- <-] _. split; [by apply well_formed_set_rates|]. by left. }
  destruct (if decide (chosen = preferred_currency p)
            then (set_rates w rs1, Ok (Dec a e))
            else try_convert E (set_rates w rs1) (Dec a e) chosen (preferred_currency p))
    as [w2 credited] eqn:Hcred.
  assert (Hw2 : exists rs, w2 = set_rates w rs /\
            (credited = Beyond \/ exists c ec, credited = Ok (Dec c ec) /\ -2 <= ec)).
  { destruct (decide _).
    - injection Hcred as <- <-. exists rs1. split; [done|]. right. by exists a, e.
    - apply try_convert_spec in Hcred as (rs & -> & [->|[->|(V & -> & HV)]]); exists rs;
        (split; [done|]); [by left|right..].
      + by exists a, e.
      + by exists V, (-2). }
  destruct Hw2 as (rs & -> & [->|(c & ec & -> & Hec)]); [by intros [= <- <-]|].
  destruct (add_balance E (set_rates w rs) p (Numeric (Dec c ec)) (Some (preferred_currency p)) true)
    as [[p1 w3] r3] eqn:Hadd.
  apply add_balance_spec with (B := B) in Hadd; [|done|done|by rewrite Hu|done|done|done].
  destruct Hadd as [->|[(Hc & -> & -> & ->)|[(Hc & -> & e' & ->)|(Hc & -> & HS & -> & ->)]]].
  - by intros [= <- <-].
  - (* nothing was credited: a row of 0.00 *)
    cbn [mbind outcome_bind]. rewrite Hbal, sub_cents by lia.
    replace (B - B) with 0 by lia.
    match goal with |- context [create ww ?w2 ?t] =>
      destruct (create ww w2 t) as [w4 r4] eqn:Hcreate end.
    intros [= <- <-] _.
    destruct (prepare_row_ok (tf_user f) 0 (preferred_currency p)
                (if negb (bool_decide (chosen = preferred_currency p)) then Some (Dec a e) else None)
                (if negb (bool_decide (chosen = preferred_currency p)) then Some chosen else None)
                topup B) as (row & Hrow & Hr1 & Hr2 & Hr3); [done|lia| |].
    { intros v Hv. destruct (negb _); [|done]. by injection Hv as <-. }
    apply create_spec in Hcreate as [(row' & Hrow' & -> & _ & ->)|[(-> & _ & _)|Hb]]; [| |congruence|done].
    + rewrite Hrow in Hrow'. injection Hrow' as <-. split; [done|].
      right. left. split; [done|]. exists B, 0, row. wsimpl.
      rewrite (balances_lookup _ _ _ Hp), Hbal, Z.add_0_r.
      repeat split; try done.
      unfold balances. wsimpl. symmetry. apply insert_id.
      rewrite lookup_fmap, Hp. cbn. by rewrite Hbal.
    + rewrite mark_idle by done. split; [by apply well_formed_set_rates|]. by left.
  - (* the balance could not be saved *)
    cbn [mbind outcome_bind]. intros [= <- <-] _.
    split; [by apply well_formed_set_rates|]. by left.
  - (* the balance was credited *)
    cbn [mbind outcome_bind]. cbn [balance with_balance]. rewrite Hbal.
    set (S := B + c * 10 ^ (ec + 2)) in *.
    assert (HSB : B < S).
    { assert (0 < 10 ^ (ec + 2)) by (apply Z.pow_pos_nonneg; lia). unfold S. nia. }
    rewrite sub_cents by lia. cbn [preferred_currency with_balance].
    match goal with |- context [create ww ?w2 ?t] =>
      destruct (create ww w2 t) as [w4 r4] eqn:Hcreate end.
    intros [= <- <-] _.
    destruct (prepare_row_ok (tf_user f) (S - B) (preferred_currency p)
                (if negb (bool_decide (chosen = preferred_currency p)) then Some (Dec a e) else None)
                (if negb (bool_decide (chosen = preferred_currency p)) then Some chosen else None)
                topup S) as (row & Hrow & Hr1 & Hr2 & Hr3); [lia|lia| |].
    { intros v Hv. destruct (negb _); [|done]. by injection Hv as <-. }
    assert (Hwf' : forall wx,
              profiles wx = <[tf_user f := with_balance p (Dec S (-2))]> (profiles w) ->
              orders wx = orders w -> in_atomic_block wx = false -> needs_rollback wx = false ->
              well_formed wx).
    { intros wx Hpx Hox Hax Hnx. unfold well_formed. rewrite Hpx, Hox.
      split_and!; [|done..].
      apply (profiles_insert_well_formed _ _ _ S); [done|done|done|lia]. }
    assert (Hbalx : balance <$> <[tf_user f := with_balance p (Dec S (-2))]> (profiles w)
                    = <[tf_user f := Dec (B + (S - B)) (-2)]> (balances w)).
    { rewrite fmap_insert. cbn. by replace (B + (S - B)) with S by lia. }
    apply create_spec in Hcreate as [(row' & Hrow' & -> & _ & ->)|[(-> & _ & Hwhy)|Hb]]; [| |congruence|done].
    + rewrite Hrow in Hrow'. injection Hrow' as <-. split.
      * apply Hwf'; wsimpl; by rewrite ?Hu.
      * right. left. split; [done|]. exists B, (S - B), row. wsimpl.
        rewrite (balances_lookup _ _ _ Hp), Hbal.
        repeat split; try done.
        -- unfold balances at 1. wsimpl. by rewrite Hu.
        -- by replace (B + (S - B)) with S by lia.
    + rewrite mark_idle by done. split.
      * apply Hwf'; wsimpl; by rewrite ?Hu.
      * destruct Hwhy as [->|[e' He']]; [|congruence].
        right. right. split; [done|]. exists B, (S - B). wsimpl.
        rewrite (balances_lookup _ _ _ Hp), Hbal.
        repeat split; try done; [lia|].
        unfold balances at 1. wsimpl. by rewrite Hu.
Qed.

End TopupFacts.

(** ** The ledger *)

Section LedgerFacts.
Import Dec Spec Currency Models Views Ledger Samples.

Lemma amounts_sum_app l1 l2 : amounts_sum (l1 ++ l2) = amounts_sum l1 + amounts_sum l2.
Proof. induction l1 as [|t l1 IH]; cbn; [done|]. unfold amounts_sum in *. cbn. lia. Qed.

Lemma amounts_sum_singleton t : amounts_sum [t] = dmant (amount t).
Proof. unfold amounts_sum. cbn. lia. Qed.

Lemma running_sums_snoc rows t :
  running_sums_ok rows ->
  dexp (amount t) = -2 ->
  balance_after t = Dec (amounts_sum (rows ++ [t])) (-2) ->
  running_sums_ok (rows ++ [t]).
Proof.
  intros Hok He Hb i t' Hi.
  destruct (decide (i < length rows)%nat) as [Hlt|Hge].
  - rewrite lookup_app_l in Hi by done.
    rewrite take_app_le by lia. by apply Hok.
  - rewrite lookup_app_r in Hi by lia.
    destruct (i - length rows)%nat as [|n] eqn:Hn; [|by destruct n].
    injection Hi as <-. split; [done|].
    rewrite take_ge; [done|]. rewrite length_app. cbn. lia.
Qed.

Lemma settled_nothing u w w' : nothing w w' -> settled u w -> settled u w'.
Proof.
  intros [Hb Hw] (B & H1 & H2 & H3). exists B. unfold ledger_of in *.
  by rewrite Hb, Hw.
Qed.

Lemma settled_posted u v w w' : posted v w w' -> settled u w -> settled u w'.
Proof.
  intros (Bv & D & row & Hbv & Hb & Hw & Hr1 & Hr2 & Hr3) (B & H1 & H2 & H3).
  unfold settled, ledger_of in *. rewrite Hb, Hw, filter_app.
  destruct (decide (v = u)) as [->|Hne].
  - rewrite Hbv in H1. injection H1 as ->.
    rewrite lookup_insert_eq. exists (B + D). split; [done|].
    rewrite filter_cons_True, filter_nil by done.
    rewrite amounts_sum_app, amounts_sum_singleton, Hr2. cbn [dmant].
    split; [lia|]. apply running_sums_snoc; [done|by rewrite Hr2|].
    rewrite Hr3, amounts_sum_app, amounts_sum_singleton, Hr2. cbn [dmant]. by rewrite <- H2.
  - rewrite lookup_insert_ne by done. exists B.
    rewrite filter_cons_False, filter_nil, app_nil_r by congruence. done.
Qed.

(** One plain request keeps the database well-formed and the ledger of
    every user settled. *)
Lemma step_settled u w c w' r :
  well_formed w -> settled u w -> plain c ->
  step w c = (w', r) -> r <> Beyond ->
  well_formed w' /\ settled u w'.
Proof.
  intros Hwf Hs Hplain Hstep Hr. destruct c as [E ww f|E ww f]; cbn in Hstep, Hplain.
  - destruct Hplain as [-> Hamt].
    destruct (topup_effect _ _ _ _ _ _ Hwf Hamt Hstep Hr) as [Hwf' [Hn|[[_ Hp]|[? _]]]]; [| |done].
    + split; [done|]. by eapply settled_nothing.
    + split; [done|]. by eapply settled_posted.
  - clear Hplain.
    destruct (payment_effect _ _ _ _ _ _ Hwf Hstep Hr) as [Hwf' [Hn|[_ Hp]]].
    + split; [done|]. by eapply settled_nothing.
    + split; [done|]. by eapply settled_posted.
Qed.

Lemma run_settled u calls : forall w w',
  well_formed w -> settled u w -> Forall plain calls ->
  run w calls = Ok w' -> well_formed w' /\ settled u w'.
Proof.
  induction calls as [|c calls IH]; intros w w' Hwf Hs Hplain Hrun.
  - cbn in Hrun. by injection Hrun as <-.
  - cbn in Hrun. apply Forall_cons in Hplain as [Hc Hrest].
    destruct (step w c) as [w1 r] eqn:Hstep.
    assert (Hr : r <> Beyond) by (intros ->; done).
    destruct (step_settled u _ _ _ _ Hwf Hs Hc Hstep Hr) as [Hwf1 Hs1].
    apply (IH w1); try done. by destruct r.
Qed.

(** C1, as stated, fails: a fresh user in USD tops up 92,000,000,000.00
    RUB.  The balance becomes 1,000,000,000.00 USD, but the entered amount
    does not fit the ledger's column, the INSERT raises, the view swallows
    the exception: no row is recorded and the sum of the rows is 0. *)
Lemma ledger_sum_misses_unrecorded_topup :
  fresh_user 1 (world_of no_money ∅) /\
  exists w,
    run (world_of no_money ∅)
        [Topup offline true (topup_form_of (Dec 9200000000000 (-2)) "RUB")] = Ok w /\
    balances w !! 1%nat = Some (Dec 100000000000 (-2)) /\
    ledger_of 1 w = [] /\
    amounts_sum (ledger_of 1 w) = 0.
Proof. split; [done|]. eexists. split; [vm_compute; reflexivity|]. done. Qed.

(** An amount with a third decimal breaks the sum as well: after top-ups
    of 1.01 and 1.005 the stored balance is 2.02 while the two rows hold
    1.01 and 1.00. *)
Example ledger_sum_and_half_cents :
  exists w,
    run (world_of no_money ∅)
        [Topup offline true (topup_form_of (Dec 101 (-2)) "USD");
         Topup offline true (topup_form_of (Dec 1005 (-3)) "USD")] = Ok w /\
    balances w !! 1%nat = Some (Dec 202 (-2)) /\
    amounts_sum (ledger_of 1 w) = 201.
Proof. eexists. split; [vm_compute; reflexivity|]. done. Qed.

(** C1, amended. Ledger sum invariant: take a well-formed database and a
    fresh user (balance 0.00, no row), and any sequence of top-ups and
    payments, of any users, served one after the other, in which the
    INSERT of every top-up into the ledger goes through and every top-up
    amount is written with at most two decimals and fits the ledger's
    column (a request may well end in an exception;
    [run] gives no world only when a rate is not a finite number).
    Afterwards the user's balance is the
    sum of the amounts of the user's rows, and the [balance_after] of each
    row is the sum of the amounts up to and including that row, in
    creation order. *)
Theorem ledger_sum_invariant u w calls w' :
  well_formed w -> fresh_user u w -> Forall plain calls ->
  run w calls = Ok w' ->
  exists B,
    balances w' !! u = Some (Dec B (-2)) /\
    B = amounts_sum (ledger_of u w') /\
    running_sums_ok (ledger_of u w').
Proof.
  intros Hwf [Hb Hl] Hplain Hrun.
  assert (Hs : settled u w).
  { exists 0. rewrite Hl. split; [done|]. split; [done|]. by intros i t Hi. }
  by destruct (run_settled u calls w w' Hwf Hs Hplain Hrun) as [_ Hs'].
Qed.

(** A top-up of 41.00 UAH, one of 2.00 USD and a payment of 1.50 USD leave
    1.50 USD. *)
Lemma ledger_sum_invariant_witness :
  exists w',
    run one_small_order three_requests = Ok w' /\
    balances w' !! 1%nat = Some (Dec 150 (-2)) /\
    exists B,
      balances w' !! 1%nat = Some (Dec B (-2)) /\
      B = amounts_sum (ledger_of 1 w') /\
      running_sums_ok (ledger_of 1 w').
Proof.
  eexists. split; [vm_compute; reflexivity|]. split; [reflexivity|].
  apply (ledger_sum_invariant 1 one_small_order three_requests).
  - unfold one_small_order, world_of, well_formed.
    cbn [profiles orders in_atomic_block needs_rollback].
    split_and!; [| |done..].
    + intros k p [<- <-]%lookup_singleton_Some. split; [done|]. exists 0. split; [done|lia].
    + intros k o [<- <-]%lookup_singleton_Some. exists 150. split; [done|]. simpl. lia.
  - done.
  - repeat constructor; cbn; try lia; by eexists.
  - vm_compute. reflexivity.
Defined.

End LedgerFacts.

(** ** A ledger write that fails *)

Section FailedWrite.
Import Dec Spec Currency Models Views Ledger Samples.

Lemma set_wallet_same w l :
  wallet_transactions w = l -> set_wallet_transactions w l = w.
Proof. intros <-. by destruct w. Qed.

Lemma set_wallet_twice w l l' :
  set_wallet_transactions (set_wallet_transactions w l) l' = set_wallet_transactions w l'.
Proof. done. Qed.

(** [add_balance] outside a transaction leaves the connection idle and the
    ledger alone. *)
Lemma add_balance_frame E w p a c s p' w' r :
  in_atomic_block w = false -> needs_rollback w = false ->
  add_balance E w p a c s = (p', w', r) ->
  in_atomic_block w' = false /\ needs_rollback w' = false /\
  wallet_transactions w' = wallet_transactions w.
Proof.
  intros Hat Hnr. unfold add_balance.
  destruct a as [amt| |[|]|]; [|by intros [= <- <- <-]..].
  destruct (leb amt zero); [by intros [= <- <- <-]|].
  destruct (in_preferred_currency E w p amt c) as [w1 r1] eqn:Hc.
  apply in_preferred_currency_frame in Hc as [rs ->].
  destruct (r1 ≫= add (balance p)) as [b|e|]; [|by intros [= <- <- <-]..].
  destruct s; [|by intros [= <- <- <-]].
  unfold save_balance, save.
  destruct (_ ≫= _) as [upd|e|]; wsimpl.
  - rewrite Hnr. destruct (profiles w !! user p); intros [= <- <- <-]; [done|].
    rewrite mark_idle by done. done.
  - intros [= <- <- <-]. rewrite mark_idle by done. done.
  - by intros [= <- <- <-].
Qed.

(** On an idle connection a failing INSERT leaves the world as it was,
    and a successful one changes the ledger only. *)
Lemma create_without_row w t :
  in_atomic_block w = false -> needs_rollback w = false ->
  (create false w t).1 = w /\
  set_wallet_transactions (create true w t).1 (wallet_transactions w) = w.
Proof.
  intros Hat Hnr. unfold create. rewrite Hnr.
  destruct (prepare_row t); cbn [fst]; rewrite ?mark_idle by done; split; try done.
  - by destruct w.
  - by apply set_wallet_same.
  - by apply set_wallet_same.
Qed.

(** The top-up view with a failing INSERT answers as with a successful
    one and leaves the same world, but for the row. *)
Lemma topup_without_row E w f w_ok r :
  in_atomic_block w = false -> needs_rollback w = false ->
  WalletTopupView_post E true w f = (w_ok, r) ->
  WalletTopupView_post E false w f
  = (set_wallet_transactions w_ok (wallet_transactions w), r).
Proof.
  intros Hat Hnr. unfold WalletTopupView_post.
  assert (Hid : forall rs r0, (set_rates w rs, r0) = (w_ok, r) ->
            (set_rates w rs, r0) = (set_wallet_transactions w_ok (wallet_transactions w), r)).
  { by intros rs r0 [= <- <-]. }
  assert (Hid0 : forall r0, (w, r0) = (w_ok, r) ->
            (w, r0) = (set_wallet_transactions w_ok (wallet_transactions w), r)).
  { intros r0 H. rewrite <- (set_rates_id w) in H at 1. rewrite <- (set_rates_id w) at 1.
    by apply Hid. }
  destruct (profiles w !! tf_user f) as [p|]; [|by apply Hid0].
  destruct (tf_amount f) as [amt| |[|]|]; [|by apply Hid0..].
  destruct (leb amt zero); [by apply Hid0|].
  destruct (min_amount E w _) as [w1 min_amt] eqn:Hmin.
  apply min_amount_spec in Hmin as (rs1 & -> & _).
  destruct min_amt as [m|e|]; [|by apply Hid..].
  destruct (ltb amt m); [by apply Hid|].
  match goal with |- context [if decide ?P then (?wa, Ok amt) else ?tc] =>
    destruct (if decide P then (wa, Ok amt) else tc) as [w2 credited] eqn:Hcred end.
  assert (Hw2 : exists rs, w2 = set_rates w rs).
  { destruct (decide _) in Hcred.
    - injection Hcred as <- _. by eexists.
    - apply try_convert_spec in Hcred as (rs & -> & _). by eexists. }
  destruct Hw2 as [rs ->].
  destruct credited as [credited|e|]; [|by apply Hid..].
  destruct (add_balance E (set_rates w rs) p (Numeric credited) _ true) as [[p1 w3] r3] eqn:Hadd.
  apply add_balance_frame in Hadd as (Hat3 & Hnr3 & Hw3); [|done..].
  assert (Hid3 : forall r0, (w3, r0) = (w_ok, r) ->
            (w3, r0) = (set_wallet_transactions w_ok (wallet_transactions w), r)).
  { intros r0 [= <- <-]. f_equal. symmetry. by apply set_wallet_same. }
  destruct (r3 ≫= _) as [delta|e|]; [|by apply Hid3..].
  match goal with |- context [create true w3 ?t] =>
    pose proof (create_without_row w3 t Hat3 Hnr3) as [Hf Ht];
    destruct (create true w3 t) as [w4 r4]; destruct (create false w3 t) as [w5 r5] end.
  cbn [fst] in Hf, Ht. subst w5. intros [= <- <-]. f_equal.
  wsimpl. by rewrite <- Hw3.
Qed.

End FailedWrite.

(** ** Payments one after the other *)

Section SerialFacts.
Import Dec Spec Currency Models Views Ledger Samples.

Lemma moved_nothing w w' :
  nothing w w' -> moved w w'.
Proof.
  intros [Hb Hw]. exists []. rewrite app_nil_r. split; [done|].
  intros u B Hu. rewrite filter_nil. unfold amounts_sum. cbn. by rewrite Z.add_0_r, Hb.
Qed.

Lemma moved_posted v w w' : posted v w w' -> moved w w'.
Proof.
  intros (Bv & D & row & Hbv & Hb & Hw & Hr1 & Hr2 & Hr3). exists [row]. split; [done|].
  intros u B Hu. rewrite Hb. destruct (decide (v = u)) as [->|Hne].
  - rewrite Hbv in Hu. injection Hu as ->. rewrite lookup_insert_eq.
    rewrite filter_cons_True, filter_nil by done.
    by rewrite amounts_sum_singleton, Hr2.
  - rewrite lookup_insert_ne by done.
    rewrite filter_cons_False, filter_nil by congruence.
    unfold amounts_sum. cbn. by rewrite Z.add_0_r.
Qed.

Lemma moved_trans w1 w2 w3 : moved w1 w2 -> moved w2 w3 -> moved w1 w3.
Proof.
  intros (rows1 & Hw1 & Hb1) (rows2 & Hw2 & Hb2). exists (rows1 ++ rows2).
  split; [by rewrite Hw2, Hw1, app_assoc|].
  intros u B Hu. rewrite (Hb2 u _ (Hb1 u B Hu)).
  rewrite filter_app, amounts_sum_app. do 2 f_equal. lia.
Qed.

Lemma moved_committed w w' u B :
  moved w w' -> balances w !! u = Some (Dec B (-2)) ->
  balances w' !! u = Some (Dec (B + amounts_sum (committed_since w w' u)) (-2)).
Proof.
  intros (rows & Hw & Hb) Hu. unfold committed_since.
  rewrite Hw, drop_app_length. by apply Hb.
Qed.

End SerialFacts.

(** ** Atomicity and races *)

Section AtomicityFacts.
Import Dec Spec Currency Models Views Ledger Samples.

Lemma well_formed_world_of p B o :
  balance p = Dec B (-2) -> 0 <= B < 10 ^ 12 ->
  (forall k o', o !! k = Some o' -> exists T, total_price o' = Dec T (-2) /\ Z.abs T < 10 ^ 10) ->
  well_formed (world_of p o).
Proof.
  intros Hb HB Ho. unfold well_formed, world_of.
  cbn [profiles orders in_atomic_block needs_rollback]. split_and!; [|done..].
  intros k p' [<- <-]%lookup_singleton_Some. split; [done|]. by exists B.
Qed.

Lemma well_formed_two_orders : well_formed two_orders.
Proof.
  apply (well_formed_world_of _ 1000); [done|lia|].
  intros k o' Hk. exists 600. split; [|simpl; lia].
  apply lookup_insert_Some in Hk as [[_ <-]|[_ Hk]]; [done|].
  by apply lookup_singleton_Some in Hk as [_ <-].
Qed.

(** C3, as stated, fails for a top-up.  A fresh user in USD tops up
    92,000,000,000.00 RUB: the entered amount does not fit its column, the
    INSERT raises, the view swallows the exception and answers with a
    success; 1,000,000,000.00 USD stay credited and the ledger is empty.
    The same happens to 2.00 USD when the INSERT fails for any other
    reason. *)
Lemma topup_keeps_balance_without_row :
  (exists w,
      WalletTopupView_post offline true (world_of no_money ∅)
                           (topup_form_of (Dec 9200000000000 (-2)) "RUB")
      = (w, Ok (HttpResponseRedirect [topped_up (Dec 100000000000 (-2))])) /\
      balances w !! 1%nat = Some (Dec 100000000000 (-2)) /\
      wallet_transactions w = []) /\
  (exists w,
      WalletTopupView_post offline false (world_of no_money ∅)
                           (topup_form_of (Dec 200 (-2)) "USD")
      = (w, Ok (HttpResponseRedirect [topped_up (Dec 200 (-2))])) /\
      balances w !! 1%nat = Some (Dec 200 (-2)) /\
      wallet_transactions w = []).
Proof. split; (eexists; split; [vm_compute; reflexivity|]; done). Qed.

(** C3, amended. In a payment the update of the balance and the row of the
    ledger are one unit: they are written inside one [transaction.atomic]
    block, a failing INSERT rolls the block back, and the stored balances
    never change without the row that says so.  In a top-up they are not:
    the balance is saved on its own, and when the INSERT fails the view
    answers as if it had succeeded and leaves the same world, credited
    balance included, with no row. *)
Theorem ledger_write_atomicity E w :
  well_formed w ->
  (forall ww f w' r,
      PaymentView_post E ww w f = (w', r) -> r <> Beyond ->
      (ww = false -> nothing w w') /\
      (balances w' <> balances w -> posted (pf_user f) w w')) /\
  (forall f w_ok r,
      WalletTopupView_post E true w f = (w_ok, r) ->
      WalletTopupView_post E false w f
      = (set_wallet_transactions w_ok (wallet_transactions w), r)).
Proof.
  intros Hwf. split.
  - intros ww f w' r Hpay Hr.
    destruct (payment_effect _ _ _ _ _ _ Hwf Hpay Hr) as [_ [Hn|[-> Hp]]].
    + split; [done|]. by intros []; destruct Hn.
    + done.
  - intros f w_ok r. destruct Hwf as (_ & _ & Hat & Hnr). by apply topup_without_row.
Qed.

(** A payment of 6.00 from a wallet of 10.00 whose row cannot be written
    changes no balance; a top-up of 2.00 whose row cannot be written
    credits the 2.00. *)
Lemma ledger_write_atomicity_witness :
  (exists w' r, PaymentView_post offline false two_orders (pay_with_wallet 1) = (w', r) /\
                nothing two_orders w') /\
  (exists w',
      WalletTopupView_post offline false two_orders (topup_form_of (Dec 200 (-2)) "USD")
      = (w', Ok (HttpResponseRedirect [topped_up (Dec 200 (-2))])) /\
      balances w' !! 1%nat = Some (Dec 1200 (-2)) /\
      wallet_transactions w' = []).
Proof.
  destruct (ledger_write_atomicity offline two_orders well_formed_two_orders) as [Hpay Htop].
  split.
  - eexists _, _. split; [reflexivity|].
    refine (proj1 (Hpay false (pay_with_wallet 1) _ _ eq_refl _) eq_refl).
    vm_compute. discriminate.
  - eexists. split; [|split].
    + apply Htop. vm_compute. reflexivity.
    + reflexivity.
    + reflexivity.
Defined.

(** C9, as stated, fails: two payments of 6.00 against 10.00, each having
    read the profile before the other writes.  Both are charged, two rows
    of -6.00 are committed, the balance ends at 4.00: one deduction is
    lost. *)
Lemma concurrent_debits_both_succeed :
  exists w,
    interleaved offline offline true true (pay_with_wallet 1) (pay_with_wallet 2) two_orders
    = Some (w, Ok (HttpResponseRedirect [charged (Dec 600 (-2)); payment_succeeded]),
               Ok (HttpResponseRedirect [charged (Dec 600 (-2)); payment_succeeded])) /\
    balances w !! 1%nat = Some (Dec 400 (-2)) /\
    amount <$> wallet_transactions w = [Dec (-600) (-2); Dec (-600) (-2)].
Proof. eexists. split; [vm_compute; reflexivity|]. done. Qed.

(** C9, amended. Served one after the other, two payments leave every
    balance at what it was plus the amounts of the rows committed since:
    no update is lost, nothing is deducted twice; of two payments of 6.00
    against 10.00 exactly one is charged, the other is told that the funds
    do not suffice, and the balance ends at 4.00.  The views take no lock
    and read the balance once, so the statement is about requests that
    do not overlap. *)
Theorem serial_debits_settle E1 E2 ww1 ww2 f1 f2 w w' r1 r2 :
  well_formed w ->
  serial E1 E2 ww1 ww2 f1 f2 w = (w', r1, r2) ->
  r1 <> Beyond -> r2 <> Beyond ->
  (forall u B, balances w !! u = Some (Dec B (-2)) ->
     balances w' !! u = Some (Dec (B + amounts_sum (committed_since w w' u)) (-2))) /\
  (exists w6,
      serial offline offline true true (pay_with_wallet 1) (pay_with_wallet 2) two_orders
      = (w6, Ok (HttpResponseRedirect [charged (Dec 600 (-2)); payment_succeeded]),
             Ok (HttpResponseRedirect [insufficient_funds; payment_succeeded])) /\
      balances w6 !! 1%nat = Some (Dec 400 (-2)) /\
      amount <$> wallet_transactions w6 = [Dec (-600) (-2)]).
Proof.
  intros Hwf Hserial Hr1 Hr2. split.
  - unfold serial in Hserial.
    destruct (PaymentView_post E1 ww1 w f1) as [w1 r1'] eqn:H1.
    destruct (PaymentView_post E2 ww2 w1 f2) as [w2 r2'] eqn:H2.
    injection Hserial as <- <- <-.
    destruct (payment_effect _ _ _ _ _ _ Hwf H1 Hr1) as [Hwf1 Hm1].
    destruct (payment_effect _ _ _ _ _ _ Hwf1 H2 Hr2) as [_ Hm2].
    assert (Hmoved : moved w w2).
    { apply (moved_trans _ w1).
      - destruct Hm1 as [Hn|[_ Hp]]; [by apply moved_nothing|by eapply moved_posted].
      - destruct Hm2 as [Hn|[_ Hp]]; [by apply moved_nothing|by eapply moved_posted]. }
    intros u B Hu. by apply moved_committed.
  - eexists. split; [vm_compute; reflexivity|]. done.
Qed.

Lemma serial_debits_settle_witness :
  exists w,
    serial offline offline true true (pay_with_wallet 1) (pay_with_wallet 2) two_orders
    = (w, Ok (HttpResponseRedirect [charged (Dec 600 (-2)); payment_succeeded]),
          Ok (HttpResponseRedirect [insufficient_funds; payment_succeeded])) /\
    balances w !! 1%nat
    = Some (Dec (1000 + amounts_sum (committed_since two_orders w 1)) (-2)).
Proof.
  eexists. split; [vm_compute; reflexivity|].
  refine (proj1 (serial_debits_settle offline offline true true (pay_with_wallet 1)
                   (pay_with_wallet 2) two_orders _ _ _ well_formed_two_orders eq_refl _ _)
                1%nat 1000 eq_refl); discriminate.
Defined.

End AtomicityFacts.

(** ** More on the resolver *)

Section ResolverTables.
Import Dec Spec Currency Tables Samples.

Lemma nonempty_insert (k : string) (v : spec_float) m : nonempty (<[k := v]> m) = true.
Proof.
  unfold nonempty. apply negb_true_iff, bool_decide_eq_false.
  intros H%map_size_empty_inv. by apply insert_non_empty in H.
Qed.

Lemma nonempty_fmap (f : spec_float -> spec_float) m : nonempty (f <$> m) = nonempty m.
Proof. unfold nonempty. by rewrite map_size_fmap. Qed.

Lemma supported_fallback k v : _FALLBACK_USD !! k = Some v -> supported k = true.
Proof. unfold supported. by intros ->. Qed.

Lemma tidy_fallback : tidy _FALLBACK_USD.
Proof. split; [reflexivity|]. intros k v. apply supported_fallback. Qed.

Lemma tidy_static base : tidy (static_rates base).
Proof.
  unfold static_rates. destruct (decide _); [apply tidy_fallback|].
  destruct (_FALLBACK_USD !! base); [|apply tidy_fallback].
  split.
  - rewrite nonempty_fmap. reflexivity.
  - intros k v. rewrite lookup_fmap. destruct (_FALLBACK_USD !! k) eqn:Hk; [|done].
    intros _. by eapply supported_fallback.
Qed.

(** Both comprehensions keep supported codes only. *)
Lemma rates_of_rows_supported recs k v :
  rates_of_rows recs !! k = Some v -> supported k = true.
Proof.
  unfold rates_of_rows.
  assert (H : forall m : gmap string spec_float,
            (forall k v, m !! k = Some v -> supported k = true) ->
            forall k v,
              foldl (λ m r, if supported (cr_target r)
                            then <[cr_target r := Float.of_decimal (cr_rate r)]> m else m)
                    m recs !! k = Some v -> supported k = true).
  { induction recs as [|r recs IH]; intros m Hm k' v'; cbn [foldl]; [apply Hm|].
    apply IH. intros k'' v''. destruct (supported (cr_target r)) eqn:Hs; [|apply Hm].
    destruct (decide (cr_target r = k'')) as [<-|Hne]; [done|].
    rewrite lookup_insert_ne by done. apply Hm. }
  apply H. intros k' v'. by rewrite lookup_empty.
Qed.

Lemma filter_supported_supported items k v :
  filter_supported items !! k = Some v -> supported k = true.
Proof.
  unfold filter_supported.
  assert (H : forall m : gmap string spec_float,
            (forall k v, m !! k = Some v -> supported k = true) ->
            forall k v,
              foldl (λ m kv, if supported kv.1 then <[kv.1 := kv.2]> m else m)
                    m items !! k = Some v -> supported k = true).
  { induction items as [|kv items IH]; intros m Hm k' v'; cbn [foldl]; [apply Hm|].
    apply IH. intros k'' v''. destruct (supported kv.1) eqn:Hs; [|apply Hm].
    destruct (decide (kv.1 = k'')) as [<-|Hne]; [done|].
    rewrite lookup_insert_ne by done. apply Hm. }
  apply H. intros k' v'. by rewrite lookup_empty.
Qed.

Lemma cache_tidy_put st base r t : cache_tidy st -> tidy r -> cache_tidy (cache_put st base r t).
Proof.
  intros Hst Hr b r'. unfold cache_put. cbn [_CACHE].
  destruct (decide (base = b)) as [->|Hne].
  - rewrite lookup_insert_eq. by intros [= <-].
  - rewrite lookup_insert_ne by done. apply Hst.
Qed.

Lemma db_rates_tidy E st base db : db_rates E st base = Some db -> tidy db.
Proof.
  unfold db_rates. destruct (rates_query_ok E); [|done].
  destruct (take _ _) as [|r recs]; [done|].
  destruct (nonempty (rates_of_rows (r :: recs))) eqn:Hn; [|done].
  intros [= <-]. split; [done|]. apply rates_of_rows_supported.
Qed.

Lemma persist_cache E st base filtered st' :
  persist E st base filtered = Ok st' -> _CACHE st' = _CACHE st.
Proof.
  unfold persist. destruct (new_rows _ _ _) as [[rows|]|e|]; cbn; try done.
  - destruct (rates_write_ok E); by intros [= <-].
  - by intros [= <-].
Qed.

Lemma fetch_fallback_tidy E st base st' r :
  cache_tidy st -> fetch_fallback E st base = (st', Ok r) -> tidy r /\ cache_tidy st'.
Proof.
  intros Hst. unfold fetch_fallback. destruct (db_rates E st base) as [db|] eqn:Hdb.
  - intros [= <- <-]. apply db_rates_tidy in Hdb. split; [done|by apply cache_tidy_put].
  - intros [= <- <-]. split; [apply tidy_static|done].
Qed.

Lemma fetch_live_tidy E st base st' r :
  cache_tidy st -> fetch_live E st base = (st', Ok r) -> tidy r /\ cache_tidy st'.
Proof.
  intros Hst. unfold fetch_live.
  destruct (http_rates E base) as [items|]; [|by apply fetch_fallback_tidy].
  destruct (nonempty (filter_supported items)) eqn:Hn; [|by apply fetch_fallback_tidy].
  assert (Ht : tidy (filter_supported items)).
  { split; [done|]. apply filter_supported_supported. }
  destruct (persist E _ base _) as [st2|e|] eqn:Hp.
  - intros [= <- <-]. split; [done|].
    intros b r'. rewrite (persist_cache _ _ _ _ _ Hp). by apply cache_tidy_put.
  - intros [= <- <-]. split; [done|]. by apply cache_tidy_put.
  - done.
Qed.

(** X1. The resolver hands out only tables that are not empty and hold
    supported codes only, and keeps its cache that way: whatever the live
    service answers and whatever rows are stored, a code outside
    [_FALLBACK_USD] never gets a rate. *)
Theorem fetch_rates_keeps_tables_tidy E st base st' r :
  cache_tidy st ->
  _fetch_rates E st base = (st', Ok r) ->
  tidy r /\ cache_tidy st'.
Proof.
  intros Hst. unfold _fetch_rates.
  destruct (cache_hit E st base) as [cached|] eqn:Hc.
  - intros [= <- <-]. split; [|done].
    unfold cache_hit in Hc. destruct (_CACHE st !! base) as [c|] eqn:Hb; [|done].
    destruct (_ <? _); [|done]. injection Hc as <-. by eapply Hst.
  - destruct (negb (CURRENCY_FETCH_ENABLED E)).
    + unfold fetch_disabled. destruct (db_rates E st base) as [db|] eqn:Hdb.
      * intros [= <- <-]. apply db_rates_tidy in Hdb. split; [done|by apply cache_tidy_put].
      * intros [= <- <-]. split; [apply tidy_static|done].
    + by apply fetch_live_tidy.
Qed.

(** The resolver as imported has an empty cache, which is tidy; the rates
    for an unknown code are the table of the dollar. *)
Lemma fetch_rates_keeps_tables_tidy_witness :
  tidy (static_rates "XXX") /\ cache_tidy fresh_rates.
Proof.
  apply (fetch_rates_keeps_tables_tidy offline fresh_rates "XXX").
  - intros base r. unfold fresh_rates. cbn [_CACHE]. by rewrite lookup_empty.
  - reflexivity.
Defined.

End ResolverTables.

(** ** The cache of the resolver *)

Section ResolverCache.
Import Dec Spec Currency Tables Samples.

Lemma cache_hit_put E' st base r t (st2 : state) :
  _CACHE st2 = _CACHE (cache_put st base r t) ->
  _CACHE_TS st2 = _CACHE_TS (cache_put st base r t) ->
  now E' - t < _TTL_SECONDS ->
  cache_hit E' st2 base = Some r.
Proof.
  intros Hc Hts Hnow. unfold cache_hit. rewrite Hc, Hts. unfold cache_put.
  cbn [_CACHE _CACHE_TS]. rewrite !lookup_insert_eq.
  apply Z.ltb_lt in Hnow. cbn. cbn in Hnow. by rewrite Hnow.
Qed.

Lemma persist_cache_ts E st base filtered st' :
  persist E st base filtered = Ok st' -> _CACHE_TS st' = _CACHE_TS st.
Proof.
  unfold persist. destruct (new_rows _ _ _) as [[rows|]|e|]; cbn; try done.
  - destruct (rates_write_ok E); by intros [= <-].
  - by intros [= <-].
Qed.

(** X2. What a call that missed the cache returns is either the static
    table, and then nothing was stored or cached, or rates from the live
    service or from stored rows, and then every call for the same base in
    the hour that follows is answered with the same table from memory,
    without any change of state, whatever the settings, the service and
    the stored rows are by then. *)
Theorem fetched_rates_are_cached_for_an_hour E st base st1 r :
  cache_hit E st base = None ->
  _fetch_rates E st base = (st1, Ok r) ->
  (st1 = st /\ r = static_rates base) \/
  (forall E' st2,
      _CACHE st2 = _CACHE st1 -> _CACHE_TS st2 = _CACHE_TS st1 ->
      now E' - now E < _TTL_SECONDS ->
      _fetch_rates E' st2 base = (st2, Ok r)).
Proof.
  intros Hmiss. unfold _fetch_rates. rewrite Hmiss.
  assert (Hfb : forall st1 r, fetch_fallback E st base = (st1, Ok r) ->
            (st1 = st /\ r = static_rates base) \/
            (forall E' st2,
                _CACHE st2 = _CACHE st1 -> _CACHE_TS st2 = _CACHE_TS st1 ->
                now E' - now E < _TTL_SECONDS ->
                cache_hit E' st2 base = Some r)).
  { intros s r0. unfold fetch_fallback. destruct (db_rates E st base) as [db|].
    - intros [= <- <-]. right. intros E' st2 Hc Hts Hnow. by eapply cache_hit_put.
    - intros [= <- <-]. by left. }
  assert (Hhit : forall s r0,
            (s = st /\ r0 = static_rates base) \/
            (forall E' st2,
                _CACHE st2 = _CACHE s -> _CACHE_TS st2 = _CACHE_TS s ->
                now E' - now E < _TTL_SECONDS ->
                cache_hit E' st2 base = Some r0) ->
            (s = st /\ r0 = static_rates base) \/
            (forall E' st2,
                _CACHE st2 = _CACHE s -> _CACHE_TS st2 = _CACHE_TS s ->
                now E' - now E < _TTL_SECONDS ->
                _fetch_rates E' st2 base = (st2, Ok r0))).
  { intros s r0 [H|H]; [by left|right].
    intros E' st2 Hc Hts Hnow. unfold _fetch_rates. by rewrite (H E' st2 Hc Hts Hnow). }
  destruct (negb (CURRENCY_FETCH_ENABLED E)).
  - intros H. apply Hhit, Hfb. exact H.
  - unfold fetch_live.
    destruct (http_rates E base) as [items|]; [|intros H; by apply Hhit, Hfb].
    destruct (nonempty (filter_supported items)); [|intros H; by apply Hhit, Hfb].
    destruct (persist E _ base _) as [st2'|e|] eqn:Hp.
    + intros [= <- <-]. apply Hhit. right. intros E' st2 Hc Hts Hnow.
      rewrite (persist_cache _ _ _ _ _ Hp) in Hc.
      rewrite (persist_cache_ts _ _ _ _ _ Hp) in Hts.
      by eapply cache_hit_put.
    + intros [= <- <-]. apply Hhit. right. intros E' st2 Hc Hts Hnow.
      by eapply cache_hit_put.
    + done.
Qed.

(** The two stored rows of the repository's test, read with fetching
    disabled. *)
Lemma fetched_rates_are_cached_for_an_hour_witness :
  exists st1 r,
    _fetch_rates offline test_rows "USD" = (st1, Ok r) /\
    ((st1 = test_rows /\ r = static_rates "USD") \/
     (forall E' st2,
         _CACHE st2 = _CACHE st1 -> _CACHE_TS st2 = _CACHE_TS st1 ->
         now E' - now offline < _TTL_SECONDS ->
         _fetch_rates E' st2 "USD" = (st2, Ok r))).
Proof.
  eexists _, _. split; [reflexivity|].
  apply (fetched_rates_are_cached_for_an_hour offline test_rows "USD"); reflexivity.
Defined.

End ResolverCache.

(** ** Stored rates *)

Section StoredRates.
Import Dec Spec Currency Tables Samples.

Lemma latest_row_spec base target rows :
  match latest_row base target rows with
  | Some r =>
      r ∈ rows /\ cr_base r = base /\ cr_target r = target /\
      forall r', r' ∈ rows -> cr_base r' = base -> cr_target r' = target ->
                 cr_fetched_at r' <= cr_fetched_at r
  | None => forall r', r' ∈ rows -> ~ (cr_base r' = base /\ cr_target r' = target)
  end.
Proof.
  induction rows as [|x rows IH]; cbn [latest_row].
  - intros r' Hr'. by apply elem_of_nil in Hr'.
  - destruct (bool_decide (cr_base x = base) && bool_decide (cr_target x = target)) eqn:Hx.
    + apply andb_true_iff in Hx as [Hb%bool_decide_eq_true Ht%bool_decide_eq_true].
      destruct (latest_row base target rows) as [r|].
      * destruct IH as (Hin & Hrb & Hrt & Hmax).
        destruct (cr_fetched_at x <? cr_fetched_at r) eqn:Hlt.
        -- apply Z.ltb_lt in Hlt. split_and!; [by right|done|done|].
           intros r' [->|Hr']%elem_of_cons ? ?; [lia|by apply Hmax].
        -- apply Z.ltb_ge in Hlt. split_and!; [by left|done|done|].
           intros r' [->|Hr']%elem_of_cons Hb' Ht'; [lia|].
           specialize (Hmax r' Hr' Hb' Ht'). lia.
      * split_and!; [by left|done|done|].
        intros r' [->|Hr']%elem_of_cons ? ?; [lia|]. by destruct (IH r' Hr').
    + apply andb_false_iff in Hx.
      assert (Hnx : ~ (cr_base x = base /\ cr_target x = target)).
      { intros [? ?]. destruct Hx as [Hx|Hx]; by apply bool_decide_eq_false in Hx. }
      destruct (latest_row base target rows) as [r|].
      * destruct IH as (Hin & Hrb & Hrt & Hmax). split_and!; [by right|done|done|].
        intros r' [->|Hr']%elem_of_cons ? ?; [by destruct Hnx|by apply Hmax].
      * intros r' [->|Hr']%elem_of_cons; [done|by apply IH].
Qed.


Lemma insert_desc_perm r l : insert_desc r l ≡ₚ r :: l.
Proof.
  induction l as [|x l IH]; cbn [insert_desc]; [done|].
  destruct (_ <? _); [|done]. rewrite IH. apply Permutation_swap.
Qed.

Lemma order_by_fetched_at_desc_perm l : order_by_fetched_at_desc l ≡ₚ l.
Proof.
  unfold order_by_fetched_at_desc. induction l as [|x l IH]; cbn [foldr]; [done|].
  by rewrite insert_desc_perm, IH.
Qed.

Lemma rates_of_rows_app_one recs r :
  rates_of_rows (recs ++ [r]) =
    if supported (cr_target r)
    then <[cr_target r := Float.of_decimal (cr_rate r)]> (rates_of_rows recs)
    else rates_of_rows recs.
Proof. unfold rates_of_rows. by rewrite foldl_app. Qed.

Lemma rates_of_rows_absent recs t :
  (forall r, r ∈ recs -> cr_target r <> t) -> rates_of_rows recs !! t = None.
Proof.
  induction recs as [|x recs IH] using rev_ind; intros Hno; [done|].
  rewrite rates_of_rows_app_one.
  assert (Hx : cr_target x <> t) by (apply Hno, elem_of_app; right; by left).
  assert (Hrec : rates_of_rows recs !! t = None).
  { apply IH. intros r Hr. apply Hno, elem_of_app. by left. }
  destruct (supported (cr_target x)); [|done]. by rewrite lookup_insert_ne.
Qed.

Lemma rates_of_rows_present recs r :
  NoDup (cr_target <$> recs) -> r ∈ recs -> supported (cr_target r) = true ->
  rates_of_rows recs !! cr_target r = Some (Float.of_decimal (cr_rate r)).
Proof.
  induction recs as [|x recs IH] using rev_ind; intros Hnd Hr Hs.
  { by apply elem_of_nil in Hr. }
  rewrite fmap_app in Hnd. apply NoDup_app in Hnd as (Hnd & Hdisj & _).
  rewrite rates_of_rows_app_one.
  apply elem_of_app in Hr as [Hr|Hr].
  - assert (Hne : cr_target x <> cr_target r).
    { intros Heq. apply (Hdisj (cr_target r)).
      - apply list_elem_of_fmap. by exists r.
      - rewrite <- Heq. cbn. by left. }
    destruct (supported (cr_target x)).
    + rewrite lookup_insert_ne by done. by apply IH.
    + by apply IH.
  - apply list_elem_of_singleton in Hr as ->. rewrite Hs. apply lookup_insert_eq.
Qed.

Lemma NoDup_fmap_same {A B} (f : A -> B) (l : list A) x y :
  NoDup (f <$> l) -> x ∈ l -> y ∈ l -> f x = f y -> x = y.
Proof.
  intros Hnd [i Hi]%list_elem_of_lookup [j Hj]%list_elem_of_lookup Hf.
  assert (i = j) as ->.
  { eapply (NoDup_lookup _ _ _ (f x) Hnd).
    - by rewrite list_lookup_fmap, Hi.
    - by rewrite list_lookup_fmap, Hj, Hf. }
  congruence.
Qed.

(** X4. With at most ten stored rows for the base, one row per target,
    the stored fallback and [CurrencyRate.latest_rate] agree: for every
    supported target, the rate that the fallback table holds is
    [float] of the latest rate of the pair, and a pair without row has no
    rate. *)
Theorem stored_fallback_agrees_with_latest_rate E st base t :
  rates_query_ok E = true ->
  (length (filter (λ r, cr_base r = base) (rate_rows st)) <= 10)%nat ->
  NoDup (cr_target <$> filter (λ r, cr_base r = base) (rate_rows st)) ->
  supported t = true ->
  (db_rates E st base ≫= (.!! t)) = Float.of_decimal <$> latest_rate base t (rate_rows st).
Proof.
  intros Hq Hlen Hnd Hs. unfold db_rates. rewrite Hq.
  set (mine := filter (λ r, cr_base r = base) (rate_rows st)) in *.
  assert (Hrecs : take (size _FALLBACK_USD) (order_by_fetched_at_desc mine)
                  = order_by_fetched_at_desc mine).
  { apply take_ge. rewrite (Permutation_length (order_by_fetched_at_desc_perm mine)).
    change (size _FALLBACK_USD) with 10%nat. lia. }
  rewrite Hrecs. set (recs := order_by_fetched_at_desc mine).
  assert (Hperm : recs ≡ₚ mine) by apply order_by_fetched_at_desc_perm.
  assert (Hnd' : NoDup (cr_target <$> recs)) by (by rewrite Hperm).
  assert (Hmine : forall r, r ∈ recs <-> r ∈ rate_rows st /\ cr_base r = base).
  { intros r. rewrite Hperm. unfold mine. by rewrite list_elem_of_filter, (comm and). }
  pose proof (latest_row_spec base t (rate_rows st)) as Hl. unfold latest_rate.
  destruct (latest_row base t (rate_rows st)) as [r|]; cbn [fmap option_fmap option_map].
  - destruct Hl as (Hin & Hb & Ht & _).
    assert (Hr : r ∈ recs) by (apply (proj2 (Hmine r)); split; assumption).
    assert (Hlook : rates_of_rows recs !! t = Some (Float.of_decimal (cr_rate r))).
    { rewrite <- Ht. apply rates_of_rows_present; [assumption|assumption|by rewrite Ht]. }
    destruct recs as [|x xs] eqn:Hxs; [by apply elem_of_nil in Hr|].
    assert (Hne : nonempty (rates_of_rows (x :: xs)) = true).
    { unfold nonempty. apply negb_true_iff, bool_decide_eq_false.
      intros H0%map_size_empty_inv. by rewrite H0, lookup_empty in Hlook. }
    cbv beta iota zeta. rewrite Hne. exact Hlook.
  - assert (Hlook : rates_of_rows recs !! t = None).
    { apply rates_of_rows_absent. intros r Hr Ht. apply (proj1 (Hmine r)) in Hr as [Hin Hb].
      apply (Hl r Hin). split; assumption. }
    destruct recs as [|x xs]; [reflexivity|].
    cbv beta iota zeta. destruct (nonempty (rates_of_rows (x :: xs))); [exact Hlook|reflexivity].
Qed.

(** The rows of the repository's test: the stored rate of the euro. *)
Lemma stored_fallback_agrees_with_latest_rate_witness :
  (db_rates offline test_rows "USD" ≫= (.!! "EUR"%string))
  = Float.of_decimal <$> latest_rate "USD" "EUR" (rate_rows test_rows).
Proof.
  apply (stored_fallback_agrees_with_latest_rate offline test_rows "USD" "EUR").
  - reflexivity.
  - vm_compute. lia.
  - vm_compute. apply NoDup_cons. split; [|apply NoDup_singleton].
    intros H. apply list_elem_of_singleton in H. discriminate H.
  - reflexivity.
Defined.

End StoredRates.

(** ** More on conversions *)

Section Negation.
Import Dec Spec Currency Samples.

Lemma opp_eqb_0 m : (- m =? 0) = (m =? 0).
Proof. destruct (Z.eqb_spec m 0), (Z.eqb_spec (- m) 0); lia. Qed.

Lemma adjusted_neg d : adjusted (neg d) = adjusted d.
Proof. unfold adjusted, neg. cbn [dmant dexp]. by rewrite Z.abs_opp. Qed.

Lemma neg_Dec m e : neg (Dec m e) = Dec (- m) e.
Proof. done. Qed.

Lemma fix_neg prec d : fix_ prec (neg d) = (v ← fix_ prec d; Ok (neg v)).
Proof.
  destruct d as [m e]. unfold fix_. rewrite neg_Dec. cbn [dmant dexp].
  rewrite opp_eqb_0, Z.abs_opp, Z.sgn_opp.
  destruct (m =? 0); [done|].
  destruct (Etop prec <? _); [done|].
  destruct (e <? _); [|done].
  destruct (prec <? ndigits _).
  - destruct (Etop prec <? _); [done|]. cbn. by rewrite neg_Dec, Z.mul_opp_l.
  - destruct (Etop prec <? _); [done|]. cbn. by rewrite neg_Dec, Z.mul_opp_l.
Qed.

Lemma rescale_neg r d exp : rescale r (neg d) exp = neg (rescale r d exp).
Proof.
  destruct d as [m e]. unfold rescale. rewrite neg_Dec. cbn [dmant dexp].
  rewrite opp_eqb_0, Z.abs_opp, Z.sgn_opp.
  destruct (m =? 0); [done|]. destruct (exp <=? e); rewrite neg_Dec; f_equal; lia.
Qed.

Lemma quantize_neg prec r d exp :
  quantize prec r (neg d) exp = (v ← quantize prec r d exp; Ok (neg v)).
Proof.
  unfold quantize. destruct (negb _); [done|].
  replace (dmant (neg d) =? 0) with (dmant d =? 0)
    by (destruct d; cbn; by rewrite opp_eqb_0).
  destruct (dmant d =? 0).
  { unfold fix_. cbn [dmant dexp]. change (0 =? 0) with true. reflexivity. }
  rewrite adjusted_neg. destruct (Emax <? adjusted d); [done|].
  destruct (prec <? _); [done|].
  rewrite rescale_neg, adjusted_neg.
  destruct (Emax <? _); [done|].
  replace (Z.abs (dmant (neg (rescale r d exp)))) with (Z.abs (dmant (rescale r d exp)))
    by (destruct (rescale r d exp); cbn; by rewrite Z.abs_opp).
  destruct (prec <? _); [done|]. apply fix_neg.
Qed.

Lemma mul_neg a b : mul (neg a) b = (v ← mul a b; Ok (neg v)).
Proof.
  unfold mul. rewrite <- fix_neg. destruct a as [m e]. rewrite !neg_Dec.
  cbn [dmant dexp]. by rewrite Z.mul_opp_l.
Qed.

Lemma div_neg a b : div (neg a) b = (v ← div a b; Ok (neg v)).
Proof.
  destruct a as [m e]. unfold div. rewrite neg_Dec. cbn [dmant dexp].
  rewrite opp_eqb_0, Z.abs_opp, Z.sgn_opp.
  destruct (dmant b =? 0); [by destruct (m =? 0)|].
  destruct (m =? 0).
  { unfold fix_. cbn [dmant dexp]. change (0 =? 0) with true. reflexivity. }
  destruct (if 0 <=? _ then _ else _) as [coeff remainder].
  destruct (if remainder =? 0 then _ else _) as [coeff' exp'].
  rewrite <- fix_neg, neg_Dec. do 2 f_equal. lia.
Qed.

Lemma quantize_cents_neg x : quantize_cents (neg x) = (v ← quantize_cents x; Ok (neg v)).
Proof. apply quantize_neg. Qed.

Lemma bind_neg_assoc {A} (r : outcome A) (f : A -> outcome decimal) :
  (v ← (a ← r; f a); Ok (neg v)) = (a ← r; v ← f a; Ok (neg v)).
Proof. by destruct r. Qed.

Lemma pivot_neg amount usd_rates from_currency to_currency :
  pivot (neg amount) usd_rates from_currency to_currency
  = (o ← pivot amount usd_rates from_currency to_currency;
     Ok (match o with Some v => Some (neg v) | None => None end)).
Proof.
  unfold pivot.
  destruct (usd_rates !! from_currency) as [r_from|]; [|done].
  destruct (usd_rates !! to_currency) as [r_to|]; [|done].
  destruct (_ && _); [|done].
  destruct (Float.to_decimal r_from) as [d_from| |]; cbn [mbind outcome_bind]; [|done..].
  rewrite div_neg.
  destruct (div amount d_from) as [in_usd| |]; cbn [mbind outcome_bind]; [|done..].
  destruct (Float.to_decimal r_to) as [d_to| |]; cbn [mbind outcome_bind]; [|done..].
  rewrite mul_neg.
  destruct (mul in_usd d_to) as [converted| |]; cbn [mbind outcome_bind]; [|done..].
  rewrite quantize_cents_neg.
  by destruct (quantize_cents converted).
Qed.

(** X5. Conversion commutes with the sign: the negated amount converts to
    the negated result (half-up rounding is symmetric around zero), the
    resolver is left in the same state, and one call raises exactly when
    the other does. *)
Theorem convert_amount_of_negated_amount E st amount from_currency to_currency :
  convert_amount E st (neg amount) from_currency to_currency
  = ((convert_amount E st amount from_currency to_currency).1,
     v ← (convert_amount E st amount from_currency to_currency).2; Ok (neg v)).
Proof.
  unfold convert_amount. destruct (decide _).
  { cbn [fst snd]. by rewrite quantize_cents_neg. }
  destruct (_fetch_rates E st from_currency) as [st1 [rates_from|e|]]; [|done..].
  destruct (rates_from !! to_currency) as [rate_to|].
  - cbn [fst snd]. f_equal.
    destruct (Float.to_decimal rate_to) as [rate| |]; cbn [mbind outcome_bind]; [|done..].
    rewrite mul_neg. destruct (mul amount rate) as [c| |]; cbn [mbind outcome_bind]; [|done..].
    apply quantize_cents_neg.
  - destruct (_fetch_rates E st1 "USD") as [st2 [usd_rates|e|]]; cbn [fst snd].
    + rewrite pivot_neg.
      destruct (pivot amount usd_rates from_currency to_currency) as [[v|]|e|];
        cbn [mbind outcome_bind fst snd]; try done.
      * by rewrite quantize_cents_neg.
      * by rewrite quantize_cents_neg.
    + by rewrite quantize_cents_neg.
    + done.
Qed.

End Negation.

(** ** What conversions return *)

Section ConversionResults.
Import Dec Spec Currency Models StoreExtras Samples.

Lemma quantize_cents_of_cents V :
  Z.abs V < 10 ^ 28 -> quantize_cents (Dec V (-2)) = Ok (Dec V (-2)).
Proof.
  intros HV. rewrite quantize_cents_spec. unfold round_half_up_2.
  rewrite cents_half_up_cents. apply Z.ltb_lt in HV. by rewrite HV.
Qed.

(** X6. Whatever [convert_amount] returns has exactly two decimals and at
    most 28 digits, and converting it again within one currency gives it
    back unchanged. *)
Theorem converted_amounts_are_cents E st amount from_currency to_currency st' v :
  convert_amount E st amount from_currency to_currency = (st', Ok v) ->
  dexp v = -2 /\ Z.abs (dmant v) < 10 ^ 28 /\
  forall E' s C, convert_amount E' s v C C = (s, Ok v).
Proof.
  intros (V & -> & HV)%convert_amount_cents. split_and!; [done|done|].
  intros E' s C. rewrite convert_same_currency. by rewrite quantize_cents_of_cents.
Qed.

Lemma converted_amounts_are_cents_witness :
  dexp (Dec 920 (-2)) = -2 /\ Z.abs (dmant (Dec 920 (-2))) < 10 ^ 28 /\
  forall E' s C, convert_amount E' s (Dec 920 (-2)) C C = (s, Ok (Dec 920 (-2))).
Proof.
  apply (converted_amounts_are_cents offline fresh_rates (Dec 10 0) "USD" "EUR" fresh_rates).
  vm_compute. reflexivity.
Defined.






End ConversionResults.

(** ** Unknown codes, the template tag, the size of the rounding *)

Section ConversionEdges.
Import Dec Spec Currency Models StoreExtras Samples.

Lemma static_rates_unsupported base :
  supported base = false -> static_rates base = _FALLBACK_USD.
Proof.
  unfold supported, static_rates. destruct (decide _); [done|].
  by destruct (_FALLBACK_USD !! base).
Qed.

(** X8. With the static table in use (fetching disabled, no stored row,
    nothing cached for the two bases), an amount in a code that the table
    does not know converts exactly as the same amount in US dollars
    would, to every target but the dollar itself. *)
Theorem unknown_base_converts_as_dollars E st amount base to_currency :
  CURRENCY_FETCH_ENABLED E = false ->
  rate_rows st = [] ->
  cache_hit E st base = None ->
  cache_hit E st "USD" = None ->
  supported base = false ->
  to_currency <> base -> to_currency <> "USD"%string ->
  convert_amount E st amount base to_currency
  = convert_amount E st amount "USD" to_currency.
Proof.
  intros Hoff Hrows Hb Hu Hs Hne1 Hne2. unfold convert_amount.
  rewrite !decide_False by done.
  rewrite !fetch_static_table by done.
  rewrite (static_rates_unsupported base Hs).
  change (static_rates "USD") with _FALLBACK_USD.
  destruct (_FALLBACK_USD !! to_currency) as [rate_to|] eqn:Hto; [done|].
  rewrite ?fetch_static_table by done.
  change (static_rates "USD") with _FALLBACK_USD.
  rewrite !pivot_unusable; [done| |].
  - rewrite Hto. cbn [usable]. apply andb_false_r.
  - unfold supported in Hs. destruct (_FALLBACK_USD !! base); [done|]. done.
Qed.

(** 5.00 of the unknown code XXX are 4.60 EUR, as 5.00 USD are. *)
Lemma unknown_base_converts_as_dollars_witness :
  convert_amount offline fresh_rates (Dec 500 (-2)) "XXX" "EUR" = (fresh_rates, Ok (Dec 460 (-2))).
Proof.
  rewrite (unknown_base_converts_as_dollars offline fresh_rates (Dec 500 (-2)) "XXX" "EUR");
    [vm_compute; reflexivity|reflexivity..|done|done].
Defined.


(** X10. Within one currency the result is the amount itself when the
    amount has at most two decimals, and is otherwise at most half a cent
    away from it. *)
Theorem same_currency_rounding_error E st x C v :
  (convert_amount E st x C C).2 = Ok v ->
  dexp v = -2 /\
  (-2 <= dexp x -> dmant v = dmant x * 10 ^ (dexp x + 2)) /\
  (dexp x < -2 ->
   Z.abs (2 * dmant x - 2 * 10 ^ (- (dexp x + 2)) * dmant v) <= 10 ^ (- (dexp x + 2))).
Proof.
  rewrite convert_same_currency. cbn [snd]. rewrite quantize_cents_spec.
  destruct (_ <? _); [|done]. intros [= <-]. unfold round_half_up_2. cbn [dmant dexp].
  split; [done|]. unfold cents_half_up. split.
  - intros He. assert (H : (0 <=? dexp x + 2) = true) by (apply Z.leb_le; lia).
    rewrite H. replace ((2 * (Z.abs (dmant x) * 10 ^ (dexp x + 2)) + 1) / (2 * 1))
      with (Z.abs (dmant x) * 10 ^ (dexp x + 2)).
    + rewrite Z.mul_assoc. f_equal. rewrite Z.mul_comm. apply Z.abs_sgn.
    + apply Z.div_unique with (r := 1); lia.
  - intros He. assert (H : (0 <=? dexp x + 2) = false) by (apply Z.leb_gt; lia).
    rewrite H. set (d := 10 ^ (- (dexp x + 2))).
    assert (Hd : 0 < d) by (apply Z.pow_pos_nonneg; lia).
    set (n := Z.abs (dmant x)).
    pose proof (Z.div_mod (2 * n + d) (2 * d) ltac:(lia)) as Hdm.
    pose proof (Z.mod_pos_bound (2 * n + d) (2 * d) ltac:(lia)) as Hr.
    set (q := (2 * n + d) / (2 * d)) in *. set (r := (2 * n + d) mod (2 * d)) in *.
    assert (Hq : Z.abs (2 * n - 2 * d * q) <= d) by lia.
    assert (Hn : dmant x = n \/ dmant x = - n) by (unfold n; lia).
    destruct (Z.sgn_spec (dmant x)) as [[Hp ->]|[[Hz ->]|[Hneg ->]]].
    + assert (dmant x = n) as -> by (unfold n; lia). lia.
    + rewrite <- Hz. lia.
    + assert (dmant x = - n) as -> by (unfold n; lia). lia.
Qed.

(** 10.005 in one currency: 10.01, half a cent away. *)
Lemma same_currency_rounding_error_witness :
  dexp (Dec 1001 (-2)) = -2 /\
  (-2 <= -3 -> 1001 = 10005 * 10 ^ (-3 + 2)) /\
  (-3 < -2 -> Z.abs (2 * 10005 - 2 * 10 ^ (- (-3 + 2)) * 1001) <= 10 ^ (- (-3 + 2))).
Proof.
  apply (same_currency_rounding_error offline fresh_rates (Dec 10005 (-3)) "USD" (Dec 1001 (-2))).
  vm_compute. reflexivity.
Defined.

End ConversionEdges.

(** ** The wallet helpers in the wallet's own currency *)

Section OwnCurrency.
Import Dec Spec Currency Models Samples.

Lemma in_preferred_currency_own E w self amt :
  in_preferred_currency E w self amt None = (w, Ok amt).
Proof. unfold in_preferred_currency, currency_or. by rewrite decide_True. Qed.

Lemma save_balance_cents w self V :
  balance self = Dec V (-2) ->
  save_balance w self =
    if Z.abs V <? 10 ^ 12 then
      if needs_rollback w then (w, Raise TransactionManagementError)
      else match profiles w !! user self with
           | Some row =>
               (set_profiles w (<[user self := with_balance row (Dec V (-2))]> (profiles w)),
                Ok tt)
           | None => (mark_for_rollback_on_error w, Raise DatabaseError)
           end
    else (mark_for_rollback_on_error w, Raise InvalidOperation).
Proof.
  intros Hb. unfold save_balance, save. rewrite Hb.
  rewrite DecimalField_cents by lia. by destruct (Z.abs V <? 10 ^ 12).
Qed.

Lemma deduct_balance_cents E w self row B a allow_negative :
  needs_rollback w = false ->
  profiles w !! user self = Some row ->
  balance self = Dec B (-2) ->
  0 < a -> Z.abs B < 10 ^ 12 -> Z.abs (B - a) < 10 ^ 12 ->
  deduct_balance E w self (Numeric (Dec a (-2))) None allow_negative true =
    if allow_negative || (a <=? B)
    then (with_balance self (Dec (B - a) (-2)),
          set_profiles w (<[user self := with_balance row (Dec (B - a) (-2))]> (profiles w)),
          Ok true)
    else (self, w, Ok false).
Proof.
  intros Hnr Hrow Hbal Ha HB HBa. unfold deduct_balance.
  rewrite leb_zero. assert (Hle : (a <=? 0) = false) by (apply Z.leb_gt; lia).
  rewrite Hle, in_preferred_currency_own. cbn [mbind outcome_bind].
  rewrite Hbal, sub_cents by lia. rewrite ltb_cents.
  replace (B - a <? 0) with (negb (a <=? B)).
  2:{ destruct (Z.leb_spec a B), (Z.ltb_spec (B - a) 0); cbn; lia. }
  destruct allow_negative, (a <=? B); cbn [negb andb orb]; try done.
  all: rewrite (save_balance_cents _ _ (B - a)) by done.
  all: assert (Hfit : (Z.abs (B - a) <? 10 ^ 12) = true) by (by apply Z.ltb_lt).
  all: rewrite Hfit, Hnr; cbn [user with_balance]; by rewrite Hrow.
Qed.



Lemma add_balance_cents E w self row B a :
  needs_rollback w = false ->
  profiles w !! user self = Some row ->
  balance self = Dec B (-2) ->
  0 < a -> Z.abs (B + a) < 10 ^ 28 ->
  add_balance E w self (Numeric (Dec a (-2))) None true =
    if Z.abs (B + a) <? 10 ^ 12
    then (with_balance self (Dec (B + a) (-2)),
          set_profiles w (<[user self := with_balance row (Dec (B + a) (-2))]> (profiles w)),
          Ok tt)
    else (with_balance self (Dec (B + a) (-2)), mark_for_rollback_on_error w,
          Raise InvalidOperation).
Proof.
  intros Hnr Hrow Hbal Ha HBa. unfold add_balance.
  rewrite leb_zero. assert (Hle : (a <=? 0) = false) by (apply Z.leb_gt; lia).
  rewrite Hle, in_preferred_currency_own. cbn [mbind outcome_bind].
  rewrite Hbal, add_cents by lia.
  rewrite (save_balance_cents _ _ (B + a)) by done.
  destruct (Z.abs (B + a) <? 10 ^ 12); [|done].
  rewrite Hnr. cbn [user with_balance]. by rewrite Hrow.
Qed.

(** X12. [add_balance] in the wallet's own currency, on amounts in cents:
    the instance gets the balance plus the amount, to the cent; the row
    gets it too when the sum fits the column of twelve digits; when it
    does not, the save raises InvalidOperation and the row stays as it
    was, while the instance already carries the sum. *)
Theorem add_balance_in_own_currency E w self row B a :
  needs_rollback w = false ->
  profiles w !! user self = Some row ->
  balance self = Dec B (-2) ->
  0 < a -> Z.abs (B + a) < 10 ^ 28 ->
  add_balance E w self (Numeric (Dec a (-2))) None true =
    if Z.abs (B + a) <? 10 ^ 12
    then (with_balance self (Dec (B + a) (-2)),
          set_profiles w (<[user self := with_balance row (Dec (B + a) (-2))]> (profiles w)),
          Ok tt)
    else (with_balance self (Dec (B + a) (-2)), mark_for_rollback_on_error w,
          Raise InvalidOperation).
Proof. apply add_balance_cents. Qed.

(** 9,999,999,999.00 and 1.00 more do not fit. *)
Lemma add_balance_in_own_currency_witness :
  add_balance offline (world_of (with_balance no_money (Dec 999999999900 (-2))) ∅)
              (with_balance no_money (Dec 999999999900 (-2))) (Numeric (Dec 100 (-2))) None true
  = (with_balance no_money (Dec 1000000000000 (-2)),
     world_of (with_balance no_money (Dec 999999999900 (-2))) ∅,
     Raise InvalidOperation).
Proof.
  apply (add_balance_in_own_currency offline
           (world_of (with_balance no_money (Dec 999999999900 (-2))) ∅)
           (with_balance no_money (Dec 999999999900 (-2)))
           (with_balance no_money (Dec 999999999900 (-2))) 999999999900 100);
    try reflexivity; simpl; lia.
Defined.

Lemma with_balance_same p B : balance p = B -> with_balance p B = p.
Proof. intros <-. by destruct p. Qed.

Lemma set_profiles_same w : set_profiles w (profiles w) = w.
Proof. by destruct w. Qed.

(** X13. Crediting an amount and debiting it again brings instance and
    database back to where they were (own currency, amounts in cents, a
    sum that fits the column). *)
Theorem add_then_deduct_round_trip E w self B a :
  needs_rollback w = false ->
  profiles w !! user self = Some self ->
  balance self = Dec B (-2) ->
  0 < a -> 0 <= B -> B + a < 10 ^ 12 ->
  exists self1 w1,
    add_balance E w self (Numeric (Dec a (-2))) None true = (self1, w1, Ok tt) /\
    deduct_balance E w1 self1 (Numeric (Dec a (-2))) None false true = (self, w, Ok true).
Proof.
  intros Hnr Hrow Hbal Ha HB HBa.
  rewrite (add_balance_cents E w self self B a) by (try done; lia).
  assert (Hfit : (Z.abs (B + a) <? 10 ^ 12) = true) by (apply Z.ltb_lt; lia).
  rewrite Hfit. eexists _, _. split; [done|].
  rewrite (deduct_balance_cents E _ _ (with_balance self (Dec (B + a) (-2))) (B + a) a).
  - assert (Hle : (a <=? B + a) = true) by (apply Z.leb_le; lia).
    rewrite Hle. cbn [orb]. replace (B + a - a) with B by lia.
    destruct w as [rs ps wt os ia nr]. destruct self as [u pc ts b].
    cbn in *. subst b. unfold set_profiles. cbn. unfold with_balance. cbn.
    rewrite insert_insert_eq, insert_id by done. done.
  - by destruct w.
  - destruct w. cbn [profiles set_profiles user with_balance]. apply lookup_insert_eq.
  - done.
  - done.
  - lia.
  - lia.
Qed.

Lemma add_then_deduct_round_trip_witness :
  exists self1 w1,
    add_balance offline (world_of five_dollars ∅) five_dollars (Numeric (Dec 250 (-2))) None true
      = (self1, w1, Ok tt) /\
    deduct_balance offline w1 self1 (Numeric (Dec 250 (-2))) None false true
      = (five_dollars, world_of five_dollars ∅, Ok true).
Proof.
  apply (add_then_deduct_round_trip offline (world_of five_dollars ∅) five_dollars 500 250);
    try reflexivity; lia.
Defined.

Lemma add_spending_cents w self row T a :
  needs_rollback w = false ->
  profiles w !! user self = Some row ->
  total_spent self = Dec T (-2) ->
  Z.abs (T + a) < 10 ^ 28 ->
  add_spending w self (Dec a (-2)) =
    if Z.abs (T + a) <? 10 ^ 10
    then (with_total_spent self (Dec (T + a) (-2)),
          set_profiles w (<[user self := with_total_spent row (Dec (T + a) (-2))]> (profiles w)),
          Ok tt)
    else (with_total_spent self (Dec (T + a) (-2)), mark_for_rollback_on_error w,
          Raise InvalidOperation).
Proof.
  intros Hnr Hrow HT HTa. unfold add_spending. rewrite HT, add_cents by done.
  unfold save_total_spent, save. cbn [total_spent with_total_spent user].
  rewrite DecimalField_cents by lia.
  destruct (Z.abs (T + a) <? 10 ^ 10); cbn [mbind outcome_bind]; [|done].
  by rewrite Hnr, Hrow.
Qed.

(** X14. [add_spending] adds the amount to [total_spent], to the cent: in
    the instance always, in the row when the sum fits the column of ten
    digits; a sum of 100,000,000.00 or more makes the save raise
    InvalidOperation and leaves the row as it was. *)
Theorem add_spending_accumulates w self row T a :
  needs_rollback w = false ->
  profiles w !! user self = Some row ->
  total_spent self = Dec T (-2) ->
  Z.abs (T + a) < 10 ^ 28 ->
  add_spending w self (Dec a (-2)) =
    if Z.abs (T + a) <? 10 ^ 10
    then (with_total_spent self (Dec (T + a) (-2)),
          set_profiles w (<[user self := with_total_spent row (Dec (T + a) (-2))]> (profiles w)),
          Ok tt)
    else (with_total_spent self (Dec (T + a) (-2)), mark_for_rollback_on_error w,
          Raise InvalidOperation).
Proof. apply add_spending_cents. Qed.

(** 6.00 spent on top of 0.00. *)
Lemma add_spending_accumulates_witness :
  add_spending (world_of ten_dollars ∅) ten_dollars (Dec 600 (-2))
  = (with_total_spent ten_dollars (Dec 600 (-2)),
     set_profiles (world_of ten_dollars ∅)
       (<[1%nat := with_total_spent ten_dollars (Dec 600 (-2))]>
          (profiles (world_of ten_dollars ∅))),
     Ok tt).
Proof.
  apply (add_spending_accumulates (world_of ten_dollars ∅) ten_dollars ten_dollars 0 600);
    try reflexivity; simpl; lia.
Defined.


End OwnCurrency.

(** ** What the two views touch *)

Section Footprints.
Import Dec Spec Currency Models Views Ledger Frames Samples.

Lemma footprint_refl u w : footprint u w w.
Proof. split_and!; [done|done|]. exists []. by rewrite app_nil_r. Qed.

Lemma footprint_trans u w1 w2 w3 :
  footprint u w1 w2 -> footprint u w2 w3 -> footprint u w1 w3.
Proof.
  intros (Hp1 & Ho1 & rows1 & Hw1 & Hr1) (Hp2 & Ho2 & rows2 & Hw2 & Hr2). split_and!.
  - intros k Hk. by rewrite Hp2, Hp1.
  - by rewrite Ho2.
  - exists (rows1 ++ rows2). rewrite Hw2, Hw1, app_assoc. split; [done|].
    by apply Forall_app.
Qed.

Lemma footprint_same u w w' :
  profiles w' = profiles w -> orders w' = orders w ->
  wallet_transactions w' = wallet_transactions w -> footprint u w w'.
Proof.
  intros Hp Ho Hw. split_and!; [by rewrite Hp|done|]. exists []. by rewrite app_nil_r.
Qed.

Lemma footprint_set_rates u w rs : footprint u w (set_rates w rs).
Proof. by apply footprint_same. Qed.

Lemma footprint_mark u w : footprint u w (mark_for_rollback_on_error w).
Proof. by apply footprint_same. Qed.

Lemma footprint_save w self prepared w' r :
  save w self prepared = (w', r) -> footprint (user self) w w'.
Proof.
  unfold save. destruct prepared as [update|x|].
  - destruct (needs_rollback w); [intros [= <- <-]; apply footprint_refl|].
    destruct (profiles w !! user self) as [row|].
    + intros [= <- <-]. destruct w. split_and!; cbn.
      * intros k Hk. by rewrite lookup_insert_ne.
      * done.
      * exists []. by rewrite app_nil_r.
    + intros [= <- <-]. apply footprint_mark.
  - intros [= <- <-]. apply footprint_mark.
  - intros [= <- <-]. apply footprint_refl.
Qed.

Lemma footprint_create ww w t w' r :
  create ww w t = (w', r) -> footprint (wt_user t) w w'.
Proof.
  unfold create. destruct (prepare_row t) as [row|x|] eqn:Hrow.
  - destruct (needs_rollback w); [intros [= <- <-]; apply footprint_refl|].
    destruct ww; intros [= <- <-]; [|apply footprint_mark].
    destruct w. split_and!; cbn; [done|done|]. exists [row]. split; [done|].
    apply Forall_singleton. unfold prepare_row in Hrow.
    destruct (Field.DecimalField 12 2 (amount t)); cbn in Hrow; [|done..].
    destruct (match source_amount t with Some v => _ | None => _ end); cbn in Hrow; [|done..].
    destruct (Field.DecimalField 12 2 (balance_after t)); cbn in Hrow; [|done..].
    by injection Hrow as <-.
  - intros [= <- <-]. apply footprint_mark.
  - intros [= <- <-]. apply footprint_refl.
Qed.

Lemma footprint_try_convert E u w amt cur preferred w' r :
  try_convert E w amt cur preferred = (w', r) -> footprint u w w'.
Proof.
  unfold try_convert. destruct (convert_amount _ _ _ _ _) as [rs [v|x|]];
    intros [= <- <-]; apply footprint_set_rates.
Qed.

Lemma footprint_in_preferred_currency E w self amt currency w' r :
  in_preferred_currency E w self amt currency = (w', r) -> footprint (user self) w w'.
Proof.
  intros [rs ->]%in_preferred_currency_frame. apply footprint_set_rates.
Qed.

Lemma footprint_add_balance E w self amount currency sv self' w' r :
  add_balance E w self amount currency sv = (self', w', r) ->
  user self' = user self /\ footprint (user self) w w'.
Proof.
  unfold add_balance. destruct amount as [amt| |[|]|];
    [|intros [= <- <- <-]; split; [done|apply footprint_refl]..].
  destruct (leb amt zero); [intros [= <- <- <-]; split; [done|apply footprint_refl]|].
  destruct (in_preferred_currency E w self amt currency) as [w1 a] eqn:Hc.
  apply footprint_in_preferred_currency in Hc.
  destruct (a ≫= add (balance self)) as [b|x|]; [|by intros [= <- <- <-]..].
  destruct sv; [|by intros [= <- <- <-]].
  destruct (save_balance w1 (with_balance self b)) as [w2 r2] eqn:Hs.
  intros [= <- <- <-]. split; [done|].
  apply footprint_save in Hs. by eapply footprint_trans.
Qed.

Lemma footprint_deduct_balance E w self amount currency an sv self' w' r :
  deduct_balance E w self amount currency an sv = (self', w', r) ->
  user self' = user self /\ footprint (user self) w w'.
Proof.
  unfold deduct_balance. destruct amount as [amt| |[|]|];
    [|intros [= <- <- <-]; split; [done|apply footprint_refl]..].
  destruct (leb amt zero); [intros [= <- <- <-]; split; [done|apply footprint_refl]|].
  destruct (in_preferred_currency E w self amt currency) as [w1 a] eqn:Hc.
  apply footprint_in_preferred_currency in Hc.
  destruct (a ≫= sub (balance self)) as [b|x|]; [|by intros [= <- <- <-]..].
  destruct (_ && _); [by intros [= <- <- <-]|].
  destruct sv; [|by intros [= <- <- <-]].
  destruct (save_balance w1 (with_balance self b)) as [w2 r2] eqn:Hs.
  intros [= <- <- <-]. split; [done|].
  apply footprint_save in Hs. by eapply footprint_trans.
Qed.

Lemma footprint_add_spending w self amount self' w' r :
  add_spending w self amount = (self', w', r) -> footprint (user self) w w'.
Proof.
  unfold add_spending. destruct (add _ _) as [t|x|];
    [|intros [= <- <- <-]; apply footprint_refl..].
  destruct (save_total_spent w (with_total_spent self t)) as [w2 r2] eqn:Hs.
  intros [= <- <- <-]. by apply footprint_save in Hs.
Qed.

Lemma footprint_min_amount E u w c w' r : min_amount E w c = (w', r) -> footprint u w w'.
Proof.
  unfold min_amount. destruct (convert_amount _ _ _ _ _) as [rs [v|x|]];
    intros [= <- <-]; apply footprint_set_rates.
Qed.

Lemma footprint_topup E ww w f w' r :
  keyed w -> WalletTopupView_post E ww w f = (w', r) -> footprint (tf_user f) w w'.
Proof.
  intros Hk. unfold WalletTopupView_post.
  destruct (profiles w !! tf_user f) as [p|] eqn:Hp;
    [|intros [= <- <-]; apply footprint_refl].
  pose proof (Hk _ _ Hp) as Hu.
  set (chosen := if decide (tf_currency f = EmptyString) then preferred_currency p
                 else tf_currency f). clearbody chosen.
  destruct (tf_amount f) as [amt| |[|]|]; [|intros [= <- <-]; apply footprint_refl..].
  destruct (leb amt zero); [intros [= <- <-]; apply footprint_refl|].
  destruct (min_amount E w chosen) as [w1 m] eqn:Hm.
  apply (footprint_min_amount E (tf_user f)) in Hm.
  destruct m as [m|x|]; [|by intros [= <- <-]..].
  destruct (ltb amt m); [by intros [= <- <-]|].
  destruct (if decide (chosen = preferred_currency p) then (w1, Ok amt)
            else try_convert E w1 amt chosen (preferred_currency p)) as [w2 credited] eqn:Hc.
  assert (H12 : footprint (tf_user f) w1 w2).
  { destruct (decide _); [injection Hc as <- <-; apply footprint_refl|].
    by eapply footprint_try_convert. }
  destruct credited as [credited|x|];
    [|intros [= <- <-]; by eapply footprint_trans..].
  destruct (add_balance E w2 p (Numeric credited) (Some (preferred_currency p)) true)
    as [[p' w3] r3] eqn:Ha.
  apply footprint_add_balance in Ha as [Hu' H23]. rewrite Hu in H23.
  assert (H03 : footprint (tf_user f) w w3).
  { eapply footprint_trans; [exact Hm|]. eapply footprint_trans; [exact H12|exact H23]. }
  destruct (r3 ≫= _) as [delta|x|]; [|by intros [= <- <-]..].
  destruct (create ww w3 _) as [w4 r4] eqn:Hcr.
  apply footprint_create in Hcr. cbn [wt_user] in Hcr.
  intros [= <- <-]. by eapply footprint_trans.
Qed.

Lemma footprint_charge_wallet E ww w f order p p' w' msgs :
  user p = pf_user f ->
  charge_wallet E ww w f order p = (p', w', msgs) ->
  user p' = pf_user f /\ footprint (pf_user f) w w'.
Proof.
  intros Hu. unfold charge_wallet.
  destruct (_ && _); [|intros [= <- <- <-]; split; [done|apply footprint_refl]].
  destruct (if decide (o_currency order = preferred_currency p) then (w, Ok (total_price order))
            else try_convert E w (total_price order) (o_currency order) (preferred_currency p))
    as [w1 to_charge] eqn:Hc.
  assert (H01 : footprint (pf_user f) w w1).
  { destruct (decide _); [injection Hc as <- <-; apply footprint_refl|].
    by eapply footprint_try_convert. }
  destruct to_charge as [to_charge|x|]; [|by intros [= <- <- <-]..].
  destruct (leb to_charge (balance p)); [|by intros [= <- <- <-]].
  destruct (deduct_balance E w1 p (Numeric to_charge) (Some (preferred_currency p)) false true)
    as [[p1 w2] ok] eqn:Hd.
  apply footprint_deduct_balance in Hd as [Hu1 H12]. rewrite Hu in H12.
  assert (H02 : footprint (pf_user f) w w2) by (by eapply footprint_trans).
  destruct ok as [[|]|x|]; [|intros [= <- <- <-]; split; [congruence|done]..].
  destruct (_ ≫= _) as [amount|x|];
    [|intros [= <- <- <-]; split; [congruence|done]..].
  destruct (create ww w2 _) as [w3 r3] eqn:Hcr.
  apply footprint_create in Hcr. cbn [wt_user] in Hcr.
  intros [= <- <- <-]. split; [congruence|]. by eapply footprint_trans.
Qed.

(** The tables after [atomic_exit]: those of before on a rollback, those
    reached on a commit. *)
Lemma atomic_exit_tables before w :
  (needs_rollback w = true /\
   profiles (atomic_exit before w) = profiles before /\
   wallet_transactions (atomic_exit before w) = wallet_transactions before /\
   orders (atomic_exit before w) = orders before) \/
  (needs_rollback w = false /\
   profiles (atomic_exit before w) = profiles w /\
   wallet_transactions (atomic_exit before w) = wallet_transactions w /\
   orders (atomic_exit before w) = orders w).
Proof. unfold atomic_exit. destruct (needs_rollback w); [by left|by right]. Qed.

(** What the body of a payment has reached when it leaves the atomic
    block: the order saved as paid, and the footprint of the payer. *)
Lemma payment_run_reaches E ww w f order prof w' r :
  (forall p, prof = Some p -> user p = pf_user f) ->
  o_status order <> paid ->
  payment_run E ww w f order prof = (w', r) ->
  exists wd,
    footprint (pf_user f)
      (set_orders (atomic_enter w) (<[pf_pk f := as_paid order]> (orders w))) wd /\
    (r = Beyond \/ w' = atomic_exit w wd).
Proof.
  intros Hu Hst. unfold payment_run.
  destruct (o_status order) eqn:Hs; [|done|].
  all: cbv beta iota zeta; change (orders (atomic_enter w)) with (orders w);
    fold (as_paid order).
  all: set (wb := set_orders (atomic_enter w) (<[pf_pk f := as_paid order]> (orders w))).
  all: destruct prof as [p|];
    [|intros H; injection H as <- <-; exists wb; split; [apply footprint_refl|by right]].
  all: destruct (charge_wallet E ww wb f order p) as [[p1 wc] msgs] eqn:Hc.
  all: apply footprint_charge_wallet in Hc as [Hu1 Hbc]; [|by apply Hu].
  all: destruct msgs as [msgs|x|];
    [|intros H; injection H as <- <-; exists wc; split; [done|by right]
     |intros H; injection H as <- <-; exists wc; split; [done|by left]].
  all: destruct (add_spending wc p1 (total_price order)) as [[p2 wd] spent] eqn:Hsp.
  all: apply footprint_add_spending in Hsp; rewrite Hu1 in Hsp.
  all: assert (Hbd : footprint (pf_user f) wb wd) by (by eapply footprint_trans).
  all: destruct spent; intros H; injection H as <- <-; exists wd; (split; [done|]);
    first [by right|by left].
Qed.

End Footprints.

(** ** The two views, as a user meets them *)

Section ViewsAtLarge.
Import Dec Spec Currency Models Views Ledger Frames Samples.

Lemma payment_load_spec w f order prof :
  payment_load w f = Some (order, prof) ->
  orders w !! pf_pk f = Some order /\ o_user order = pf_user f /\
  prof = profiles w !! pf_user f.
Proof.
  unfold payment_load. destruct (orders w !! pf_pk f) as [o|]; [|done].
  destruct (decide _); [|done]. by intros [= <- <-].
Qed.

Lemma ledger_of_app u w rows :
  Forall (λ t, wt_user t <> u) rows ->
  filter (λ t, wt_user t = u) (wallet_transactions w ++ rows) = ledger_of u w.
Proof.
  intros Hrows. unfold ledger_of. rewrite filter_app.
  replace (filter (λ t, wt_user t = u) rows) with (@nil WalletTransaction);
    [by rewrite app_nil_r|].
  symmetry. induction Hrows as [|t rows Ht _ IH]; [done|].
  by rewrite filter_cons_False.
Qed.

Lemma footprint_other_user v u w w' :
  footprint v w w' -> u <> v ->
  profiles w' !! u = profiles w !! u /\ ledger_of u w' = ledger_of u w.
Proof.
  intros (Hp & _ & rows & Hw & Hr) Hne. split; [by apply Hp|].
  unfold ledger_of at 1. rewrite Hw. apply ledger_of_app.
  eapply Forall_impl; [exact Hr|]. intros t Ht. cbn in Ht. congruence.
Qed.

(** X16. A request touches the wallet of its own user only: after a
    top-up or a payment, the profile row and the ledger rows of every
    other user are what they were, and so is every order but the one
    being paid. *)
Theorem requests_touch_only_their_user w c w' r :
  keyed w ->
  step w c = (w', r) -> r <> Beyond ->
  (forall u, u <> actor c ->
     profiles w' !! u = profiles w !! u /\ ledger_of u w' = ledger_of u w) /\
  (forall k, match c with Pay _ _ f => k <> pf_pk f | Topup _ _ _ => True end ->
     orders w' !! k = orders w !! k).
Proof.
  intros Hk Hstep Hr. destruct c as [E ww f|E ww f]; cbn [step actor] in *.
  - apply footprint_topup in Hstep; [|done]. split.
    + intros u Hu. by eapply footprint_other_user.
    + intros k _. destruct Hstep as (_ & -> & _). done.
  - unfold PaymentView_post in Hstep.
    destruct (payment_load w f) as [[order prof]|] eqn:Hload;
      [|injection Hstep as <- <-; by split].
    apply payment_load_spec in Hload as (Ho & Hou & ->).
    assert (Hcase : o_status order = paid \/ o_status order <> paid)
      by (destruct (o_status order); [by right|by left|by right]).
    destruct Hcase as [Hpaid|Hpaid].
    { unfold payment_run in Hstep. rewrite Hpaid in Hstep.
      injection Hstep as <- <-. by split. }
    apply payment_run_reaches in Hstep as (wd & Hfp & [Hb|Hw']); [done|subst w'| |done].
    2:{ intros p Hp. by apply Hk. }
    destruct (atomic_exit_tables w wd) as [(_ & Hp & Hw & Ho')|(_ & Hp & Hw & Ho')].
    + split.
      * intros u Hu. unfold ledger_of. by rewrite Hp, Hw.
      * intros k _. by rewrite Ho'.
    + destruct Hfp as (Hfp1 & Hfp2 & rows & Hfp3 & Hfp4). split.
      * intros u Hu. split; [rewrite Hp; by apply Hfp1|].
        unfold ledger_of at 1. rewrite Hw, Hfp3.
        change (wallet_transactions (set_orders (atomic_enter w) _))
          with (wallet_transactions w).
        apply ledger_of_app. eapply Forall_impl; [exact Hfp4|].
        intros t Ht. cbn in Ht. congruence.
      * intros k Hne. rewrite Ho', Hfp2.
        change (orders (set_orders (atomic_enter w) ?o)) with o.
        cbn [orders set_orders]. by rewrite lookup_insert_ne.
Qed.

Lemma keyed_world_of p o : keyed (world_of p o).
Proof.
  intros k q Hq. cbn [profiles world_of] in Hq.
  apply lookup_singleton_Some in Hq as [<- <-]. done.
Qed.

(** The first of two orders is paid from a wallet of 10.00: the second
    order stays as it was. *)
Lemma requests_touch_only_their_user_witness :
  exists w' r,
    step two_orders (Pay offline true (pay_with_wallet 1)) = (w', r) /\
    (forall u, u <> 1%nat ->
       profiles w' !! u = profiles two_orders !! u /\
       ledger_of u w' = ledger_of u two_orders) /\
    (forall k, k <> 1%nat -> orders w' !! k = orders two_orders !! k).
Proof.
  eexists _, _. split; [reflexivity|].
  eapply (requests_touch_only_their_user two_orders (Pay offline true (pay_with_wallet 1))).
  - apply keyed_world_of.
  - reflexivity.
  - discriminate.
Defined.

Lemma payment_is_all_or_nothing_aux E ww w f w' r :
  keyed w ->
  PaymentView_post E ww w f = (w', r) -> r <> Beyond ->
  same_tables w w' \/
  exists order,
    orders w !! pf_pk f = Some order /\ o_user order = pf_user f /\
    o_status order <> paid /\
    orders w' = <[pf_pk f := as_paid order]> (orders w).
Proof.
  intros Hk Hstep Hr. unfold PaymentView_post in Hstep.
  destruct (payment_load w f) as [[order prof]|] eqn:Hload;
    [|injection Hstep as <- <-; by left].
  apply payment_load_spec in Hload as (Ho & Hou & ->).
  assert (Hcase : o_status order = paid \/ o_status order <> paid)
    by (destruct (o_status order); [by right|by left|by right]).
  destruct Hcase as [Hpaid|Hpaid].
  { unfold payment_run in Hstep. rewrite Hpaid in Hstep.
    injection Hstep as <- <-. by left. }
  apply payment_run_reaches in Hstep as (wd & Hfp & [Hb|Hw']); [done|subst w'| |done].
  2:{ intros p Hp. by apply Hk. }
  destruct (atomic_exit_tables w wd) as [(_ & Hp & Hw & Ho')|(_ & Hp & Hw & Ho')].
  - by left.
  - right. exists order. split_and!; [done..|].
    destruct Hfp as (_ & Hfp2 & _). by rewrite Ho', Hfp2.
Qed.

(** X17. A payment is all or nothing.  Whatever happens inside the
    atomic block, afterwards either profiles, ledger and orders are
    exactly what they were, or the order, which was not paid before, is
    saved as paid and nothing else in the table of orders has moved. *)
Theorem payment_is_all_or_nothing E ww w f w' r :
  keyed w ->
  PaymentView_post E ww w f = (w', r) -> r <> Beyond ->
  same_tables w w' \/
  exists order,
    orders w !! pf_pk f = Some order /\ o_user order = pf_user f /\
    o_status order <> paid /\
    orders w' = <[pf_pk f := as_paid order]> (orders w).
Proof. apply payment_is_all_or_nothing_aux. Qed.

Lemma payment_is_all_or_nothing_witness :
  exists w' r,
    PaymentView_post offline true two_orders (pay_with_wallet 1) = (w', r) /\
    (same_tables two_orders w' \/
     exists order,
       orders two_orders !! 1%nat = Some order /\ o_user order = 1%nat /\
       o_status order <> paid /\
       orders w' = <[1%nat := as_paid order]> (orders two_orders)).
Proof.
  eexists _, _. split; [reflexivity|].
  eapply (payment_is_all_or_nothing offline true two_orders (pay_with_wallet 1)).
  - apply keyed_world_of.
  - reflexivity.
  - discriminate.
Defined.

(** X18. Submitting a payment a second time is harmless: when the first
    submission has changed anything at all, the order is paid, and the
    same form sent again, under whatever rates and settings, changes
    nothing and is answered with the success message alone, without
    a second deduction. *)
Theorem second_submission_changes_nothing E ww w f w1 r1 E' ww' :
  keyed w ->
  PaymentView_post E ww w f = (w1, r1) -> r1 <> Beyond ->
  ~ same_tables w w1 ->
  PaymentView_post E' ww' w1 f = (w1, Ok (HttpResponseRedirect [payment_succeeded])).
Proof.
  intros Hk Hstep Hr Hchanged.
  destruct (payment_is_all_or_nothing_aux E ww w f w1 r1 Hk Hstep Hr)
    as [Hsame|(order & Ho & Hu & _ & Ho1)]; [done|].
  unfold PaymentView_post, payment_load. rewrite Ho1, lookup_insert_eq.
  cbn [o_user as_paid]. rewrite decide_True by done. reflexivity.
Qed.

End ViewsAtLarge.

(** ** Requests that are turned down *)

Section TurnedDown.
Import Dec Spec Currency Models Views Ledger Frames Samples.

(** The first of two orders of 6.00 is paid from 10.00; the form sent
    again finds the order paid. *)
Lemma second_submission_changes_nothing_witness :
  exists w1 r1,
    PaymentView_post offline true two_orders (pay_with_wallet 1) = (w1, r1) /\
    PaymentView_post offline false w1 (pay_with_wallet 1)
    = (w1, Ok (HttpResponseRedirect [payment_succeeded])).
Proof.
  eexists _, _. split; [reflexivity|].
  eapply (second_submission_changes_nothing offline true two_orders (pay_with_wallet 1)).
  - apply keyed_world_of.
  - reflexivity.
  - discriminate.
  - intros (_ & _ & Ho). apply (f_equal (λ m, o_status <$> m !! 1%nat)) in Ho.
    vm_compute in Ho. discriminate.
Defined.








End TurnedDown.
